(** * The multi-person profile store and its performance ledger

    A shallow embedding of [store_org.py] (the entity store, its identity
    normaliser and its schema migrator) and of [performance_models.py] (the
    event ledger), followed by the properties the specification states about
    them.

    Conventions of the embedding.
    - Python text is a [string] holding its UTF-8 bytes; two texts are equal
      exactly when their bytes are.
    - A schema-less JSON payload (a profile, a membership's [fields]) is a
      [value]; a mapping is a [gmap string value].
    - A key that the code only ever reads through [get(k, default)] or
      [setdefault(k, default)] is a record field that holds the default when
      the key is absent ([memberships], [sources], [fields]).
    - The document file, the wall clock and the UUID generator are the
      [World]; every store operation is a function [World -> result * World].
    - The builtin [sum] on floats differs between interpreters; both
      implementations are modelled ([SumAlgorithm]) and the ledger functions
      that call it take the one in use as their first argument.
*)

From Stdlib Require Import ZArith String Ascii Floats List DecimalString Permutation.
From stdpp Require Import base option list gmap strings fin_maps.

Set Warnings "-register-all".
Local Open Scope string_scope.
Local Open Scope list_scope.

(** ** Python values *)

Inductive value : Type :=
| VNone
| VBool (b : bool)
| VInt (n : Z)
| VFloat (f : float)
| VStr (s : string)
| VList (l : list value)
| VDict (d : gmap string value).

(** [bool(v)]: what [if v:] tests. *)
Definition truthy (v : value) : bool :=
  match v with
  | VNone => false
  | VBool b => b
  | VInt n => negb (n =? 0)%Z
  | VFloat f => negb (PrimFloat.eqb f 0%float)
  | VStr s => negb (String.eqb s "")
  | VList l => match l with [] => false | _ :: _ => true end
  | VDict d => match map_to_list d with [] => false | _ :: _ => true end
  end.

(** [v == s] for a text literal [s]. *)
Definition py_eq_str (v : value) (s : string) : bool :=
  match v with
  | VStr t => String.eqb t s
  | _ => false
  end.

(** [isinstance(v, dict)] *)
Definition is_dict (v : value) : bool :=
  match v with VDict _ => true | _ => false end.

(** The builtins whose full definition is outside the repository: [repr] of
    a float, a list or a mapping, and [str.lower], which follows the Unicode
    case tables. Every theorem holds for all of them. *)
Class PyBuiltins := {
  py_repr : value -> string;
  py_lower : string -> string
}.

(** [str(v)] *)
Definition py_str `{PyBuiltins} (v : value) : string :=
  match v with
  | VStr s => s
  | VNone => "None"
  | VBool true => "True"
  | VBool false => "False"
  | VInt n => NilZero.string_of_int (Z.to_int n)
  | VFloat _ | VList _ | VDict _ => py_repr v
  end.

(** ** Text: whitespace, [strip], and the phone pattern *)

Definition byte (a : ascii) : N := N_of_ascii a.

(** The one-byte code points of [str.isspace]: U+0009..U+000D,
    U+001C..U+001F and the space. *)
Definition space1 (a : ascii) : bool :=
  let n := byte a in
  ((9 <=? n) && (n <=? 13) || (28 <=? n) && (n <=? 32))%N.

(** U+0085 and U+00A0. *)
Definition space2 (a b : ascii) : bool :=
  ((byte a =? 194) && ((byte b =? 133) || (byte b =? 160)))%N.

(** U+1680, U+2000..U+200A, U+2028, U+2029, U+202F, U+205F, U+3000. *)
Definition space3 (a b c : ascii) : bool :=
  let '(x, y, z) := (byte a, byte b, byte c) in
  ((x =? 225) && (y =? 154) && (z =? 128)
   || (x =? 226) && (y =? 128)
      && ((128 <=? z) && (z <=? 138) || (z =? 168) || (z =? 169) || (z =? 175))
   || (x =? 226) && (y =? 129) && (z =? 159)
   || (x =? 227) && (y =? 128) && (z =? 128))%N.

(** [s.lstrip()] *)
Fixpoint lstrip (s : string) : string :=
  match s with
  | EmptyString => EmptyString
  | String a r1 =>
    if space1 a then lstrip r1 else
    match r1 with
    | EmptyString => s
    | String b r2 =>
      if space2 a b then lstrip r2 else
      match r2 with
      | EmptyString => s
      | String c r3 => if space3 a b c then lstrip r3 else s
      end
    end
  end.

(** [lstrip] on the reversed bytes: the last code point comes first, its
    bytes in reverse order. *)
Fixpoint lstrip_rev (s : string) : string :=
  match s with
  | EmptyString => EmptyString
  | String a r1 =>
    if space1 a then lstrip_rev r1 else
    match r1 with
    | EmptyString => s
    | String b r2 =>
      if space2 b a then lstrip_rev r2 else
      match r2 with
      | EmptyString => s
      | String c r3 => if space3 c b a then lstrip_rev r3 else s
      end
    end
  end.

(** [s.strip()] *)
Definition py_strip (s : string) : string :=
  String.rev (lstrip_rev (String.rev (lstrip s))).

Definition phone_punct (a : ascii) : bool :=
  ((byte a =? 45) || (byte a =? 40) || (byte a =? 41))%N.

(** [re.sub(r"[\s\-\(\)]+", "", s)]: every whitespace code point, hyphen
    and parenthesis is dropped. *)
Fixpoint re_sub_phone (s : string) : string :=
  match s with
  | EmptyString => EmptyString
  | String a r1 =>
    if space1 a || phone_punct a then re_sub_phone r1 else
    match r1 with
    | EmptyString => s
    | String b r2 =>
      if space2 a b then re_sub_phone r2 else
      match r2 with
      | EmptyString => String a (re_sub_phone r1)
      | String c r3 =>
        if space3 a b c then re_sub_phone r3 else String a (re_sub_phone r1)
      end
    end
  end.

(** ** Identity normaliser *)

Definition SENTINEL : string := "未提及".

(** [_normalize_phone] *)
Definition _normalize_phone `{PyBuiltins} (phone : value) : string :=
  if negb (truthy phone) || py_eq_str phone SENTINEL then ""
  else re_sub_phone (py_strip (py_str phone)).

(** [_normalize_email] *)
Definition _normalize_email `{PyBuiltins} (email : value) : string :=
  if negb (truthy email) || py_eq_str email SENTINEL then ""
  else py_lower (py_strip (py_str email)).

Record Dedup := { strategy : string; key : string }.

(** [_compute_dedup_key] *)
Definition _compute_dedup_key `{PyBuiltins} (phone email : value) : Dedup :=
  let norm_phone := _normalize_phone phone in
  let norm_email := _normalize_email email in
  if negb (String.eqb norm_phone "") then
    {| strategy := "phone_then_email"; key := "phone:" +:+ norm_phone |}
  else if negb (String.eqb norm_email "") then
    {| strategy := "phone_then_email"; key := "email:" +:+ norm_email |}
  else
    {| strategy := "phone_then_email"; key := "" |}.

(** The loop [for key in keys: if key in d and d[key]: ...; break]: the
    first value, in the order of [keys], that is present and truthy. *)
Fixpoint first_truthy (keys : list string) (d : gmap string value) : option value :=
  match keys with
  | [] => None
  | k :: ks =>
    match d !! k with
    | Some v => if truthy v then Some v else first_truthy ks d
    | None => first_truthy ks d
    end
  end.

Definition phone_keys : list string :=
  ["电话"; "联系电话"; "手机"; "phone"; "tel"; "mobile"].
Definition email_keys : list string :=
  ["邮箱"; "联系邮箱"; "email"; "e-mail"].

(** [_extract_contact_from_profile] *)
Definition _extract_contact_from_profile `{PyBuiltins} (profile_data : value)
  : value * value :=
  match profile_data with
  | VDict d =>
    let phone :=
      match first_truthy phone_keys d with
      | Some v => VStr (py_str v)
      | None => VStr ""
      end in
    let contact := default (VDict ∅) (d !! "联系方式") in
    let '(phone, email) :=
      match contact with
      | VDict c =>
        (if negb (truthy phone) then default (VStr "") (c !! "电话") else phone,
         default (VStr "") (c !! "邮箱"))
      | _ => (phone, VStr "")
      end in
    let email :=
      match first_truthy email_keys d with
      | Some v => VStr (py_str v)
      | None => email
      end in
    (phone, email)
  | _ => (VStr "", VStr "")
  end.

(** [s[:n]]: the first [n] code points (a byte [10xxxxxx] continues the
    code point before it). *)
Definition continuation (a : ascii) : bool :=
  ((128 <=? byte a) && (byte a <=? 191))%N.

Fixpoint take_chars (n : nat) (s : string) {struct s} : string :=
  match s with
  | EmptyString => EmptyString
  | String a r =>
    if continuation a then String a (take_chars n r)
    else match n with
         | O => EmptyString
         | S n' => String a (take_chars n' r)
         end
  end.

(** ** The data model *)

(** An event of the ledger. [ev_group_id = None] is a null or absent
    [group_id]; an absent [delta] reads as [0]. *)
Record Event := {
  ev_id : string;
  ev_type : string;
  ev_delta : float;
  ev_title : string;
  ev_note : string;
  ev_group_id : option string;
  ev_at : string
}.

Record Performance := {
  base_score : float;
  events : list Event;
  perf_updated_at : option string
}.

Record Source := { src_type : string; imported_at : string }.

Record Membership := {
  ms_group_id : string;
  joined_at : string;
  ms_updated_at : string;
  fields : gmap string value
}.

(** [p_performance = None]: the key is absent or does not hold a mapping
    (a person of a version 2 document). *)
Record Person := {
  p_id : string;
  p_name : value;
  p_phone : string;
  p_email : string;
  p_dedup : Dedup;
  p_created_at : string;
  p_updated_at : string;
  p_profile : value;
  p_sources : list Source;
  p_memberships : list Membership;
  p_performance : option Performance
}.

Record Group := {
  g_id : string;
  g_name : string;
  g_description : string;
  g_tags : list value;
  g_created_at : string;
  g_updated_at : string
}.

Record Org := {
  org_id : string;
  org_name : string;
  org_created_at : string;
  org_updated_at : string
}.

Record Store := {
  schema_version : option Z;
  org : Org;
  groups : list Group;
  people : list Person
}.

(** Version 1 payloads: a list of teams with embedded members, or a flat
    list of members. Every key is optional, as the migration reads each of
    them with a default. *)
Record OldMember := {
  om_id : option string;
  om_name : option value;
  om_source : option string;
  om_created_at : option string;
  om_profile : option value
}.

Record OldTeam := {
  ot_id : option string;
  ot_name : option string;
  ot_created_at : option string;
  ot_members : option (list OldMember)
}.

(** What [json.load] finds in the document file. [POther] is any other
    JSON value (a scalar, an empty list); [PCorrupt] does not parse. *)
Inductive Payload :=
| PDoc (s : Store)
| PTeams (teams : list OldTeam)
| PMembers (members : list OldMember)
| POther
| PCorrupt.

(** The file ([None]: it does not exist), whether writing it succeeds, the
    clock and the UUID generator with the number of readings taken. *)
Record World := {
  disk : option Payload;
  writable : bool;
  clock : nat -> string;
  ticks : nat;
  uuids : nat -> string;
  draws : nat
}.

(** Field updates. *)
Definition set_disk (d : option Payload) (w : World) : World :=
  {| disk := d; writable := writable w; clock := clock w; ticks := ticks w;
     uuids := uuids w; draws := draws w |}.

Definition set_groups (gs : list Group) (s : Store) : Store :=
  {| schema_version := schema_version s; org := org s; groups := gs;
     people := people s |}.

Definition set_people (ps : list Person) (s : Store) : Store :=
  {| schema_version := schema_version s; org := org s; groups := groups s;
     people := ps |}.

Definition set_schema_version (v : option Z) (s : Store) : Store :=
  {| schema_version := v; org := org s; groups := groups s; people := people s |}.

Definition set_org (o : Org) (s : Store) : Store :=
  {| schema_version := schema_version s; org := o; groups := groups s;
     people := people s |}.

Definition set_memberships (ms : list Membership) (p : Person) : Person :=
  {| p_id := p_id p; p_name := p_name p; p_phone := p_phone p;
     p_email := p_email p; p_dedup := p_dedup p;
     p_created_at := p_created_at p; p_updated_at := p_updated_at p;
     p_profile := p_profile p; p_sources := p_sources p;
     p_memberships := ms; p_performance := p_performance p |}.

Definition set_performance (perf : option Performance) (p : Person) : Person :=
  {| p_id := p_id p; p_name := p_name p; p_phone := p_phone p;
     p_email := p_email p; p_dedup := p_dedup p;
     p_created_at := p_created_at p; p_updated_at := p_updated_at p;
     p_profile := p_profile p; p_sources := p_sources p;
     p_memberships := p_memberships p; p_performance := perf |}.

Definition set_p_updated_at (t : string) (p : Person) : Person :=
  {| p_id := p_id p; p_name := p_name p; p_phone := p_phone p;
     p_email := p_email p; p_dedup := p_dedup p;
     p_created_at := p_created_at p; p_updated_at := t;
     p_profile := p_profile p; p_sources := p_sources p;
     p_memberships := p_memberships p; p_performance := p_performance p |}.

Definition set_profile (v : value) (p : Person) : Person :=
  {| p_id := p_id p; p_name := p_name p; p_phone := p_phone p;
     p_email := p_email p; p_dedup := p_dedup p;
     p_created_at := p_created_at p; p_updated_at := p_updated_at p;
     p_profile := v; p_sources := p_sources p;
     p_memberships := p_memberships p; p_performance := p_performance p |}.

Definition set_sources (l : list Source) (p : Person) : Person :=
  {| p_id := p_id p; p_name := p_name p; p_phone := p_phone p;
     p_email := p_email p; p_dedup := p_dedup p;
     p_created_at := p_created_at p; p_updated_at := p_updated_at p;
     p_profile := p_profile p; p_sources := l;
     p_memberships := p_memberships p; p_performance := p_performance p |}.

(** ** The event ledger ([performance_models.py]) *)

Definition EVENT_TYPE_CONTRIBUTION : string := "contribution".

(** The builtin [sum] on floats depends on the interpreter, and the code
    pins none: CPython up to 3.11 adds the items from left to right;
    CPython 3.12 and later adds them with Neumaier's compensation. *)
Inductive SumAlgorithm := LeftToRight | Compensated.

(** [sum(xs)] up to CPython 3.11: the items added from left to right,
    starting from [0]. *)
Definition py_sum_left_to_right (xs : list float) : float :=
  fold_left PrimFloat.add xs 0%float.

(** [sum(xs)] from CPython 3.12 on: the running sum [s] and the rounding
    errors collected in [c], which is added at the end when it is non-zero
    and finite. The first item is added to the integer [0] as before. *)
Definition neumaier_step (acc : float * float) (x : float) : float * float :=
  let '(s, c) := acc in
  let t := PrimFloat.add s x in
  (t,
   if PrimFloat.leb (PrimFloat.abs x) (PrimFloat.abs s)
   then PrimFloat.add c (PrimFloat.add (PrimFloat.sub s t) x)
   else PrimFloat.add c (PrimFloat.add (PrimFloat.sub x t) s)).

Definition py_sum_compensated (xs : list float) : float :=
  match xs with
  | [] => 0%float
  | x :: rest =>
    let '(s, c) := fold_left neumaier_step rest (PrimFloat.add 0%float x, 0%float) in
    if negb (PrimFloat.is_zero c) && PrimFloat.is_finite c
    then PrimFloat.add s c else s
  end.

(** [sum(xs)] *)
Definition py_sum (alg : SumAlgorithm) (xs : list float) : float :=
  match alg with
  | LeftToRight => py_sum_left_to_right xs
  | Compensated => py_sum_compensated xs
  end.

Definition is_contribution (e : Event) : bool :=
  String.eqb (ev_type e) EVENT_TYPE_CONTRIBUTION.

(** [compute_current_score] *)
Definition compute_current_score (alg : SumAlgorithm) (perf : Performance) : float :=
  let base := base_score perf in
  let total_delta := py_sum alg (map ev_delta (events perf)) in
  PrimFloat.add base total_delta.

(** [compute_contribution_total] *)
Definition compute_contribution_total (alg : SumAlgorithm) (perf : Performance) : float :=
  py_sum alg (map ev_delta (List.filter is_contribution (events perf))).

(** [count_contributions] *)
Definition count_contributions (perf : Performance) : nat :=
  length (List.filter is_contribution (events perf)).

(** [if group_id:] on an optional text. *)
Definition supplied (group_id : option string) : bool :=
  match group_id with
  | Some g => negb (String.eqb g "")
  | None => false
  end.

(** [e.get("group_id") == group_id or e.get("group_id") is None] *)
Definition in_scope (group_id : option string) (e : Event) : bool :=
  match ev_group_id e, group_id with
  | None, _ => true
  | Some g, Some g' => String.eqb g g'
  | Some _, None => false
  end.

Record Summary := {
  sum_base_score : float;
  sum_current_score : float;
  sum_contribution_total : float;
  sum_contribution_count : nat;
  sum_event_count : nat;
  sum_last_updated : string
}.

(** [get_summary] *)
Definition get_summary (alg : SumAlgorithm) (perf : Performance)
    (group_id : option string) : Summary :=
  let events0 := events perf in
  let events1 :=
    if supplied group_id then List.filter (in_scope group_id) events0
    else events0 in
  let base := base_score perf in
  let total_delta := py_sum alg (map ev_delta events1) in
  let contrib_delta := py_sum alg (map ev_delta (List.filter is_contribution events1)) in
  let contrib_count := length (List.filter is_contribution events1) in
  {| sum_base_score := base;
     sum_current_score := PrimFloat.add base total_delta;
     sum_contribution_total := contrib_delta;
     sum_contribution_count := contrib_count;
     sum_event_count := length events1;
     sum_last_updated := default "" (perf_updated_at perf) |}.

(** [filter_events] *)
Definition filter_events (perf : Performance) (group_id event_type : option string)
  : list Event :=
  let events0 := events perf in
  let events1 :=
    match group_id with
    | Some _ => List.filter (in_scope group_id) events0
    | None => events0
    end in
  match event_type with
  | Some t => List.filter (fun e => String.eqb (ev_type e) t) events1
  | None => events1
  end.

(** ** The world: effects of the store operations *)

Definition M (A : Type) : Type := World -> A * World.

#[global] Instance M_ret : MRet M := fun A (a : A) (w : World) => (a, w).

#[global] Instance M_bind : MBind M :=
  fun A B (f : A -> M B) (m : M A) (w : World) => let '(a, w') := m w in f a w'.

(** [datetime.now().strftime(...)]: [_get_timestamp] of [store_org.py] and
    [_now] of [performance_models.py]. *)
Definition _get_timestamp : M string := fun w =>
  (clock w (ticks w),
   {| disk := disk w; writable := writable w; clock := clock w;
      ticks := S (ticks w); uuids := uuids w; draws := draws w |}).

Definition _now : M string := _get_timestamp.

(** [str(uuid.uuid4())] *)
Definition uuid4 : M string := fun w =>
  (uuids w (draws w),
   {| disk := disk w; writable := writable w; clock := clock w;
      ticks := ticks w; uuids := uuids w; draws := S (draws w) |}).

(** A loop that threads the store through its iterations. *)
Fixpoint foldM {A S : Type} (f : S -> A -> M S) (l : list A) (s : S) : M S :=
  match l with
  | [] => mret s
  | x :: l' => s' ← f s x; foldM f l' s'
  end.

(** A loop that updates every element of a list in place. *)
Fixpoint forM {A B : Type} (f : A -> M B) (l : list A) : M (list B) :=
  match l with
  | [] => mret []
  | x :: l' => y ← f x; ys ← forM f l'; mret (y :: ys)
  end.

(** [empty_performance] *)
Definition empty_performance : M Performance :=
  t ← _now;
  mret {| base_score := 0%float; events := []; perf_updated_at := Some t |}.

(** [ensure_performance(person)] followed by [person["performance"]]: the
    ledger the person holds once it has been backfilled. *)
Definition ensured_performance (person : Person) : M Performance :=
  match p_performance person with
  | None => empty_performance
  | Some perf =>
    match perf_updated_at perf with
    | Some _ => mret perf
    | None =>
      t ← _now;
      mret {| base_score := base_score perf; events := events perf;
              perf_updated_at := Some t |}
    end
  end.

(** [ensure_performance] *)
Definition ensure_performance (person : Person) : M Person :=
  perf ← ensured_performance person;
  mret (set_performance (Some perf) person).

(** ** Persistence and schema migration *)

Definition SCHEMA_VERSION : Z := 3.

(** [save_org_store]: stamps the version and rewrites the file; [false]
    when the write fails, the file being left as it was. *)
Definition save_org_store (store : Store) : M bool := fun w =>
  if writable w then
    (true, set_disk (Some (PDoc (set_schema_version (Some SCHEMA_VERSION) store))) w)
  else (false, w).

(** [_create_empty_org_store] *)
Definition _create_empty_org_store : M Store :=
  t1 ← _get_timestamp;
  t2 ← _get_timestamp;
  mret {| schema_version := Some SCHEMA_VERSION;
          org := {| org_id := "org_default"; org_name := "大团队";
                    org_created_at := t1; org_updated_at := t2 |};
          groups := []; people := [] |}.

Definition has_key (k : string) (p : Person) : Prop := key (p_dedup p) = k.

#[global] Instance has_key_dec k p : Decision (has_key k p).
Proof. unfold has_key. apply _. Defined.

Definition in_group (g : string) (m : Membership) : Prop := ms_group_id m = g.

#[global] Instance in_group_dec g m : Decision (in_group g m).
Proof. unfold in_group. apply _. Defined.

(** The scan [for p in people: if p["dedup"]["key"] == k: ...; break],
    run only for a non-empty key: the first match and its position. *)
Definition find_by_key (k : string) (ps : list Person) : option (nat * Person) :=
  if String.eqb k "" then None else list_find (has_key k) ps.

(** [_migrate_member_to_store] *)
Definition _migrate_member_to_store `{PyBuiltins}
    (store : Store) (old_member : OldMember) (group_id : string) : M Store :=
  let profile := default (VDict ∅) (om_profile old_member) in
  let '(phone, email) := _extract_contact_from_profile profile in
  let dedup := _compute_dedup_key phone email in
  let name :=
    match profile with
    | VDict d =>
      let name := default (default (VStr "未知") (om_name old_member)) (d !! "姓名") in
      if py_eq_str name SENTINEL then
        default (VStr ("成员_" +:+ take_chars 4 (default "" (om_id old_member))))
                (om_name old_member)
      else name
    | _ => VStr "未知"
    end in
  let existing_person := find_by_key (key dedup) (people store) in
  t_joined ← _get_timestamp;
  t_updated ← _get_timestamp;
  let membership :=
    {| ms_group_id := group_id;
       joined_at := default t_joined (om_created_at old_member);
       ms_updated_at := t_updated;
       fields := {[ "source" := VStr (default "unknown" (om_source old_member)) ]} |} in
  match existing_person with
  | Some (i, existing) =>
    let ms :=
      match filter (in_group group_id) (p_memberships existing) with
      | [] => p_memberships existing ++ [membership]
      | _ :: _ => p_memberships existing
      end in
    t ← _get_timestamp;
    mret (set_people
            (<[i := set_p_updated_at t (set_memberships ms existing)]> (people store))
            store)
  | None =>
    u ← uuid4;
    t_created ← _get_timestamp;
    t_updated' ← _get_timestamp;
    t_imported ← _get_timestamp;
    let new_person :=
      {| p_id := default (take_chars 8 u) (om_id old_member);
         p_name := name;
         p_phone := _normalize_phone phone;
         p_email := _normalize_email email;
         p_dedup := dedup;
         p_created_at := default t_created (om_created_at old_member);
         p_updated_at := t_updated';
         p_profile := profile;
         p_sources :=
           [ {| src_type := default "unknown" (om_source old_member);
                imported_at := default t_imported (om_created_at old_member) |} ];
         p_memberships := [membership];
         p_performance := None |} in
    mret (set_people (people store ++ [new_person]) store)
  end.

(** The body of [for old_team in old_data] in [_migrate_from_v1]. *)
Definition migrate_team `{PyBuiltins} (store : Store) (old_team : OldTeam) : M Store :=
  u ← uuid4;
  let group_id := default (take_chars 8 u) (ot_id old_team) in
  let group_name := default "默认小组" (ot_name old_team) in
  t_created ← _get_timestamp;
  t_updated ← _get_timestamp;
  let group :=
    {| g_id := group_id; g_name := group_name; g_description := ""; g_tags := [];
       g_created_at := default t_created (ot_created_at old_team);
       g_updated_at := t_updated |} in
  foldM (fun s m => _migrate_member_to_store s m group_id)
        (default [] (ot_members old_team))
        (set_groups (groups store ++ [group]) store).

(** [_migrate_from_v1] *)
Definition _migrate_from_v1 `{PyBuiltins} (old_data : Payload) : M Store :=
  store ← _create_empty_org_store;
  match old_data with
  | PTeams ((first_item :: _) as teams) =>
    match ot_members first_item with
    | Some _ => foldM migrate_team teams store
    | None => mret store
    end
  | PMembers ((first_item :: _) as members) =>
    match om_profile first_item with
    | Some _ =>
      let default_group_id := "default_group" in
      t_created ← _get_timestamp;
      t_updated ← _get_timestamp;
      let group :=
        {| g_id := default_group_id; g_name := "默认小组";
           g_description := "从旧数据迁移"; g_tags := [];
           g_created_at := t_created; g_updated_at := t_updated |} in
      foldM (fun s m => _migrate_member_to_store s m default_group_id)
            members (set_groups (groups store ++ [group]) store)
    | None => mret store
    end
  | _ => mret store
  end.

(** [_migrate_v2_to_v3] *)
Definition _migrate_v2_to_v3 (store : Store) : M Store :=
  ps ← forM ensure_performance (people store);
  mret (set_schema_version (Some SCHEMA_VERSION) (set_people ps store)).

(** [load_org_store] *)
Definition load_org_store `{PyBuiltins} : M Store := fun w =>
  let migrate_v1 (data : Payload) : M Store :=
    migrated ← _migrate_from_v1 data;
    migrated ← _migrate_v2_to_v3 migrated;
    _ ← save_org_store migrated;
    mret migrated in
  match disk w with
  | None => _create_empty_org_store w
  | Some PCorrupt => _create_empty_org_store w
  | Some ((PDoc s) as data) =>
    if bool_decide (schema_version s = Some SCHEMA_VERSION) then (s, w)
    else if bool_decide (schema_version s = Some 2%Z) then
      (migrated ← _migrate_v2_to_v3 s;
       _ ← save_org_store migrated;
       mret migrated) w
    else migrate_v1 data w
  | Some data => migrate_v1 data w
  end.

(** ** Group operations *)

Definition has_id (i : string) (p : Person) : Prop := p_id p = i.

#[global] Instance has_id_dec i p : Decision (has_id i p).
Proof. unfold has_id. apply _. Defined.

Definition group_has_id (i : string) (g : Group) : Prop := g_id g = i.

#[global] Instance group_has_id_dec i g : Decision (group_has_id i g).
Proof. unfold group_has_id. apply _. Defined.

(** [create_group] *)
Definition create_group `{PyBuiltins}
    (group_name description : string) (tags : option (list value)) : M string :=
  store ← load_org_store;
  u ← uuid4;
  let group_id := take_chars 8 u in
  t_created ← _get_timestamp;
  t_updated ← _get_timestamp;
  let group :=
    {| g_id := group_id; g_name := group_name; g_description := description;
       g_tags := default [] tags;
       g_created_at := t_created; g_updated_at := t_updated |} in
  _ ← save_org_store (set_groups (groups store ++ [group]) store);
  mret group_id.

(** [rename_group] *)
Definition rename_group `{PyBuiltins} (group_id new_name : string) : M bool :=
  store ← load_org_store;
  match list_find (group_has_id group_id) (groups store) with
  | Some (i, group) =>
    t ← _get_timestamp;
    let group' :=
      {| g_id := g_id group; g_name := new_name;
         g_description := g_description group; g_tags := g_tags group;
         g_created_at := g_created_at group; g_updated_at := t |} in
    save_org_store (set_groups (<[i := group']> (groups store)) store)
  | None => mret false
  end.

(** The comprehension [[m for m in memberships if m["group_id"] != group_id]]. *)
Definition drop_group (group_id : string) (ms : list Membership) : list Membership :=
  filter (fun m => ms_group_id m <> group_id) ms.

(** [delete_group] *)
Definition delete_group `{PyBuiltins} (group_id : string) : M bool :=
  store ← load_org_store;
  let store1 := set_groups (filter (fun g => g_id g <> group_id) (groups store)) store in
  let store2 :=
    set_people
      (map (fun person => set_memberships (drop_group group_id (p_memberships person)) person)
           (people store1))
      store1 in
  save_org_store store2.

(** [get_group_by_id] *)
Definition get_group_by_id `{PyBuiltins} (group_id : string) : M (option Group) :=
  store ← load_org_store;
  mret (snd <$> list_find (group_has_id group_id) (groups store)).

(** [update_organization] *)
Definition update_organization `{PyBuiltins} (name : option string) : M bool :=
  store ← load_org_store;
  let o := org store in
  let name' :=
    match name with
    | Some n => if String.eqb n "" then org_name o else n
    | None => org_name o
    end in
  t ← _get_timestamp;
  save_org_store
    (set_org {| org_id := org_id o; org_name := name';
                org_created_at := org_created_at o; org_updated_at := t |} store).

(** [save_teams] *)
Definition save_teams `{PyBuiltins} (teams : list Group) : M bool :=
  store ← load_org_store;
  save_org_store (set_groups teams store).

(** ** Person operations *)

(** [find_person_by_dedup_key] *)
Definition find_person_by_dedup_key `{PyBuiltins} (dedup_key : string)
  : M (option Person) :=
  if String.eqb dedup_key "" then mret None
  else
    store ← load_org_store;
    mret (snd <$> list_find (has_key dedup_key) (people store)).

(** [get_person_by_id] *)
Definition get_person_by_id `{PyBuiltins} (person_id : string) : M (option Person) :=
  store ← load_org_store;
  mret (snd <$> list_find (has_id person_id) (people store)).

(** [d or default] on an optional mapping. *)
Definition dict_or (d : option (gmap string value)) (dflt : gmap string value)
  : gmap string value :=
  match d with
  | Some m => if truthy (VDict m) then m else dflt
  | None => dflt
  end.

(** What the merge loop of [upsert_person] copies: a value that is truthy
    and is not the sentinel. *)
Definition provided (v : value) : bool :=
  truthy v && negb (py_eq_str v SENTINEL).

(** The loop [for key, value in profile_data.items(): if value and
    value != SENTINEL: existing["profile"][key] = value]. *)
Definition merge_profile (incoming existing : gmap string value) : gmap string value :=
  map_fold (fun k v acc => if provided v then <[k := v]> acc else acc)
           existing incoming.

(** The block of [upsert_person] that derives the display name. *)
Definition upsert_name (profile_data : value) : M value :=
  match profile_data with
  | VDict d =>
    let name := default (VStr "未知") (d !! "姓名") in
    if py_eq_str name SENTINEL then
      u ← uuid4; mret (VStr ("成员_" +:+ take_chars 4 u))
    else mret name
  | _ => mret (VStr "未知")
  end.

(** The block [membership = None; if group_id: membership = {...}]. *)
Definition upsert_membership
    (source : string) (group_id : option string)
    (membership_fields : option (gmap string value)) : M (option Membership) :=
  match group_id with
  | Some g =>
    if String.eqb g "" then mret None
    else
      t_joined ← _get_timestamp;
      t_updated ← _get_timestamp;
      mret (Some {| ms_group_id := g; joined_at := t_joined;
                    ms_updated_at := t_updated;
                    fields := dict_or membership_fields
                                {[ "source" := VStr source ]} |})
  | None => mret None
  end.

(** The block [if membership: ...] of the merge branch: the existing
    membership of the group is updated, or the new one is appended. *)
Definition upsert_attach
    (membership : option Membership) (membership_fields : option (gmap string value))
    (ms : list Membership) : M (list Membership) :=
  match membership with
  | Some m =>
    match list_find (in_group (ms_group_id m)) ms with
    | Some (j, existing_ms) =>
      t_ms ← _get_timestamp;
      mret (<[j := {| ms_group_id := ms_group_id existing_ms;
                      joined_at := joined_at existing_ms;
                      ms_updated_at := t_ms;
                      fields := dict_or membership_fields ∅ ∪ fields existing_ms |}]> ms)
    | None => mret (ms ++ [m])
    end
  | None => mret ms
  end.

(** The dedup key [upsert_person] computes for a profile. *)
Definition profile_dedup `{PyBuiltins} (profile_data : value) : Dedup :=
  let '(phone, email) := _extract_contact_from_profile profile_data in
  _compute_dedup_key phone email.

(** [upsert_person] *)
Definition upsert_person `{PyBuiltins}
    (profile_data : value) (source : string) (group_id : option string)
    (membership_fields : option (gmap string value)) : M (option string * bool) :=
  store ← load_org_store;
  let '(phone, email) := _extract_contact_from_profile profile_data in
  let dedup := _compute_dedup_key phone email in
  name ← upsert_name profile_data;
  let existing_person := find_by_key (key dedup) (people store) in
  membership ← upsert_membership source group_id membership_fields;
  match existing_person with
  | Some (i, existing) =>
    t ← _get_timestamp;
    let profile' :=
      match profile_data, p_profile existing with
      | VDict incoming, VDict old => VDict (merge_profile incoming old)
      | _, _ => p_profile existing
      end in
    t_imported ← _get_timestamp;
    let sources' :=
      p_sources existing ++ [ {| src_type := source; imported_at := t_imported |} ] in
    memberships' ← upsert_attach membership membership_fields (p_memberships existing);
    let existing' :=
      set_memberships memberships'
        (set_sources sources' (set_profile profile' (set_p_updated_at t existing))) in
    _ ← save_org_store (set_people (<[i := existing']> (people store)) store);
    mret (Some (p_id existing), false)
  | None =>
    u ← uuid4;
    let person_id := take_chars 8 u in
    t_created ← _get_timestamp;
    t_updated ← _get_timestamp;
    t_imported ← _get_timestamp;
    perf ← empty_performance;
    let new_person :=
      {| p_id := person_id; p_name := name;
         p_phone := _normalize_phone phone; p_email := _normalize_email email;
         p_dedup := dedup;
         p_created_at := t_created; p_updated_at := t_updated;
         p_profile := profile_data;
         p_sources := [ {| src_type := source; imported_at := t_imported |} ];
         p_memberships := match membership with Some m => [m] | None => [] end;
         p_performance := Some perf |} in
    _ ← save_org_store (set_people (people store ++ [new_person]) store);
    mret (Some person_id, true)
  end.

(** [delete_person] *)
Definition delete_person `{PyBuiltins} (person_id : string) : M bool :=
  store ← load_org_store;
  save_org_store (set_people (filter (fun p => p_id p <> person_id) (people store)) store).

(** ** Membership operations *)

(** [add_person_to_group] *)
Definition add_person_to_group `{PyBuiltins}
    (person_id group_id : string) (new_fields : option (gmap string value)) : M bool :=
  store ← load_org_store;
  match list_find (has_id person_id) (people store) with
  | Some (i, person) =>
    match list_find (in_group group_id) (p_memberships person) with
    | Some (j, ms) =>
      t ← _get_timestamp;
      let ms' :=
        {| ms_group_id := ms_group_id ms; joined_at := joined_at ms;
           ms_updated_at := t;
           fields := dict_or new_fields ∅ ∪ fields ms |} in
      save_org_store
        (set_people
           (<[i := set_memberships (<[j := ms']> (p_memberships person)) person]>
              (people store))
           store)
    | None =>
      t_joined ← _get_timestamp;
      t_updated ← _get_timestamp;
      let ms :=
        {| ms_group_id := group_id; joined_at := t_joined;
           ms_updated_at := t_updated; fields := dict_or new_fields ∅ |} in
      save_org_store
        (set_people
           (<[i := set_memberships (p_memberships person ++ [ms]) person]>
              (people store))
           store)
    end
  | None => mret false
  end.

(** [remove_person_from_group] *)
Definition remove_person_from_group `{PyBuiltins}
    (person_id group_id : string) : M bool :=
  store ← load_org_store;
  match list_find (has_id person_id) (people store) with
  | Some (i, person) =>
    save_org_store
      (set_people
         (<[i := set_memberships (drop_group group_id (p_memberships person)) person]>
            (people store))
         store)
  | None => mret false
  end.

(** The nested loops of [update_membership_fields]: the first person with
    the id who has a membership of the group; a person with the id and no
    such membership is passed over. *)
Fixpoint update_membership_loop
    (person_id group_id : string) (new_fields : gmap string value)
    (ps : list Person) : M (option (list Person)) :=
  match ps with
  | [] => mret None
  | person :: rest =>
    let found :=
      if decide (has_id person_id person)
      then list_find (in_group group_id) (p_memberships person) else None in
    match found with
    | Some (j, ms) =>
      t ← _get_timestamp;
      let ms' :=
        {| ms_group_id := ms_group_id ms; joined_at := joined_at ms;
           ms_updated_at := t; fields := new_fields ∪ fields ms |} in
      mret (Some (set_memberships (<[j := ms']> (p_memberships person)) person :: rest))
    | None =>
      r ← update_membership_loop person_id group_id new_fields rest;
      mret (cons person <$> r)
    end
  end.

(** [update_membership_fields] *)
Definition update_membership_fields `{PyBuiltins}
    (person_id group_id : string) (new_fields : gmap string value) : M bool :=
  store ← load_org_store;
  r ← update_membership_loop person_id group_id new_fields (people store);
  match r with
  | Some ps => save_org_store (set_people ps store)
  | None => mret false
  end.

(** ** Performance operations *)

(** [get_person_performance] *)
Definition get_person_performance `{PyBuiltins} (person_id : string) : M Performance :=
  person ← get_person_by_id person_id;
  match person with
  | None => empty_performance
  | Some p => ensured_performance p
  end.

(** [set_person_base_score] *)
Definition set_person_base_score `{PyBuiltins}
    (person_id : string) (new_base : float) : M bool :=
  store ← load_org_store;
  match list_find (has_id person_id) (people store) with
  | Some (i, person) =>
    perf ← ensured_performance person;
    t ← _now;
    let perf' :=
      {| base_score := new_base; events := events perf; perf_updated_at := Some t |} in
    save_org_store
      (set_people (<[i := set_performance (Some perf') person]> (people store)) store)
  | None => mret false
  end.

(** [add_performance_event] *)
Definition add_performance_event `{PyBuiltins}
    (person_id : string) (event : Event) : M bool :=
  store ← load_org_store;
  match list_find (has_id person_id) (people store) with
  | Some (i, person) =>
    perf ← ensured_performance person;
    t ← _now;
    let perf' :=
      {| base_score := base_score perf; events := events perf ++ [event];
         perf_updated_at := Some t |} in
    save_org_store
      (set_people (<[i := set_performance (Some perf') person]> (people store)) store)
  | None => mret false
  end.

(** The keys a patch sets; [event.update(patch)] leaves the others. *)
Record EventPatch := {
  patch_id : option string;
  patch_type : option string;
  patch_delta : option float;
  patch_title : option string;
  patch_note : option string;
  patch_group_id : option (option string);
  patch_at : option string
}.

Definition apply_patch (patch : EventPatch) (e : Event) : Event :=
  {| ev_id := default (ev_id e) (patch_id patch);
     ev_type := default (ev_type e) (patch_type patch);
     ev_delta := default (ev_delta e) (patch_delta patch);
     ev_title := default (ev_title e) (patch_title patch);
     ev_note := default (ev_note e) (patch_note patch);
     ev_group_id := default (ev_group_id e) (patch_group_id patch);
     ev_at := default (ev_at e) (patch_at patch) |}.

Definition event_has_id (i : string) (e : Event) : Prop := ev_id e = i.

#[global] Instance event_has_id_dec i e : Decision (event_has_id i e).
Proof. unfold event_has_id. apply _. Defined.

(** The nested loops of [update_performance_event]: every person with the
    id is backfilled on the way; the first of them that holds the event gets
    it patched. *)
Fixpoint update_event_loop
    (person_id event_id : string) (patch : EventPatch) (ps : list Person)
  : M (option (list Person)) :=
  match ps with
  | [] => mret None
  | person :: rest =>
    if decide (has_id person_id person) then
      perf ← ensured_performance person;
      match list_find (event_has_id event_id) (events perf) with
      | Some (j, event) =>
        t ← _now;
        let perf' :=
          {| base_score := base_score perf;
             events := <[j := apply_patch patch event]> (events perf);
             perf_updated_at := Some t |} in
        mret (Some (set_performance (Some perf') person :: rest))
      | None =>
        r ← update_event_loop person_id event_id patch rest;
        mret (cons (set_performance (Some perf) person) <$> r)
      end
    else
      r ← update_event_loop person_id event_id patch rest;
      mret (cons person <$> r)
  end.

(** [update_performance_event] *)
Definition update_performance_event `{PyBuiltins}
    (person_id event_id : string) (patch : EventPatch) : M bool :=
  store ← load_org_store;
  r ← update_event_loop person_id event_id patch (people store);
  match r with
  | Some ps => save_org_store (set_people ps store)
  | None => mret false
  end.

(** The loop of [delete_performance_event]. *)
Fixpoint delete_event_loop (person_id event_id : string) (ps : list Person)
  : M (option (list Person)) :=
  match ps with
  | [] => mret None
  | person :: rest =>
    if decide (has_id person_id person) then
      perf ← ensured_performance person;
      let before_len := length (events perf) in
      let events' := filter (fun e => ev_id e <> event_id) (events perf) in
      if (length events' <? before_len)%nat then
        t ← _now;
        let perf' :=
          {| base_score := base_score perf; events := events';
             perf_updated_at := Some t |} in
        mret (Some (set_performance (Some perf') person :: rest))
      else
        let perf' :=
          {| base_score := base_score perf; events := events';
             perf_updated_at := perf_updated_at perf |} in
        r ← delete_event_loop person_id event_id rest;
        mret (cons (set_performance (Some perf') person) <$> r)
    else
      r ← delete_event_loop person_id event_id rest;
      mret (cons person <$> r)
  end.

(** [delete_performance_event] *)
Definition delete_performance_event `{PyBuiltins}
    (person_id event_id : string) : M bool :=
  store ← load_org_store;
  r ← delete_event_loop person_id event_id (people store);
  match r with
  | Some ps => save_org_store (set_people ps store)
  | None => mret false
  end.

(** ** The mutating interface as commands *)

Inductive Op :=
| OpLoad
| OpCreateGroup (group_name description : string) (tags : option (list value))
| OpRenameGroup (group_id new_name : string)
| OpDeleteGroup (group_id : string)
| OpUpdateOrganization (name : option string)
| OpSaveTeams (teams : list Group)
| OpUpsertPerson (profile_data : value) (source : string) (group_id : option string)
                 (membership_fields : option (gmap string value))
| OpDeletePerson (person_id : string)
| OpAddPersonToGroup (person_id group_id : string)
                     (new_fields : option (gmap string value))
| OpRemovePersonFromGroup (person_id group_id : string)
| OpUpdateMembershipFields (person_id group_id : string)
                           (new_fields : gmap string value)
| OpSetPersonBaseScore (person_id : string) (new_base : float)
| OpAddPerformanceEvent (person_id : string) (event : Event)
| OpUpdatePerformanceEvent (person_id event_id : string) (patch : EventPatch)
| OpDeletePerformanceEvent (person_id event_id : string).

(** The world after one command (its result dropped). *)
Definition exec `{PyBuiltins} (o : Op) (w : World) : World :=
  match o with
  | OpLoad => snd (load_org_store w)
  | OpCreateGroup n d t => snd (create_group n d t w)
  | OpRenameGroup g n => snd (rename_group g n w)
  | OpDeleteGroup g => snd (delete_group g w)
  | OpUpdateOrganization n => snd (update_organization n w)
  | OpSaveTeams t => snd (save_teams t w)
  | OpUpsertPerson p s g f => snd (upsert_person p s g f w)
  | OpDeletePerson i => snd (delete_person i w)
  | OpAddPersonToGroup i g f => snd (add_person_to_group i g f w)
  | OpRemovePersonFromGroup i g => snd (remove_person_from_group i g w)
  | OpUpdateMembershipFields i g f => snd (update_membership_fields i g f w)
  | OpSetPersonBaseScore i b => snd (set_person_base_score i b w)
  | OpAddPerformanceEvent i e => snd (add_performance_event i e w)
  | OpUpdatePerformanceEvent i e p => snd (update_performance_event i e p w)
  | OpDeletePerformanceEvent i e => snd (delete_performance_event i e w)
  end.

Definition exec_all `{PyBuiltins} (ops : list Op) (w : World) : World :=
  fold_left (fun w o => exec o w) ops w.

(** The store an operation finds: what [load_org_store] returns. *)
Definition stored `{PyBuiltins} (w : World) : Store := fst (load_org_store w).

(** ** The validation collaborator's extraction ([profile_validation.py])

    The sibling of [_extract_contact_from_profile]: it probes the same
    aliases and treats placeholder tokens as missing. *)

Definition MISSING_STRINGS : list string :=
  [""; "未提及"; "未知"; "无"; "none"; "null"; "n/a"; "na"].

(** [_is_missing_str] *)
Definition _is_missing_str `{PyBuiltins} (v : string) : bool :=
  let s := py_strip v in
  String.eqb s "" || existsb (String.eqb (py_lower s)) MISSING_STRINGS.

(** [is_missing] *)
Fixpoint is_missing `{PyBuiltins} (v : value) : bool :=
  match v with
  | VNone => true
  | VStr s => _is_missing_str s
  | VBool _ | VInt _ | VFloat _ => false
  | VList l => forallb is_missing l
  | VDict d => match map_to_list d with [] => true | _ :: _ => false end
  end.

(** [_get_first_non_missing] *)
Fixpoint _get_first_non_missing `{PyBuiltins}
    (mapping : gmap string value) (keys : list string) : string :=
  match keys with
  | [] => ""
  | k :: ks =>
    match mapping !! k with
    | Some v =>
      if negb (is_missing v) then py_strip (py_str v)
      else _get_first_non_missing mapping ks
    | None => _get_first_non_missing mapping ks
    end
  end.

(** [extract_contact] *)
Definition extract_contact `{PyBuiltins} (profile : value) : string * string :=
  match profile with
  | VDict d =>
    let phone := _get_first_non_missing d phone_keys in
    let email := _get_first_non_missing d email_keys in
    match default (VDict ∅) (d !! "联系方式") with
    | VDict c =>
      (if String.eqb phone ""
       then _get_first_non_missing c ["电话"; "phone"; "tel"; "mobile"] else phone,
       if String.eqb email ""
       then _get_first_non_missing c ["邮箱"; "email"; "e-mail"] else email)
    | _ => (phone, email)
    end
  | _ => ("", "")
  end.

(** ** An instance of the builtins for running the code on examples

    Texts of the examples are ASCII and Chinese, and no example prints a
    float, a list or a mapping: [py_lower] lowercases the ASCII letters and
    [py_repr] returns a fixed text. *)

Definition lower_byte (a : ascii) : ascii :=
  if ((65 <=? byte a) && (byte a <=? 90))%N then ascii_of_N (byte a + 32) else a.

Fixpoint lower_ascii (s : string) : string :=
  match s with
  | EmptyString => EmptyString
  | String a r => String (lower_byte a) (lower_ascii r)
  end.

#[global] Instance example_builtins : PyBuiltins :=
  {| py_repr := fun _ => "<object>"; py_lower := lower_ascii |}.

(** A world with no document yet, a writable file, and a clock and a UUID
    generator that number their readings. *)
Definition nat_text (n : nat) : string := NilZero.string_of_uint (Nat.to_uint n).

Definition fresh_world : World :=
  {| disk := None; writable := true;
     clock := fun n => "2024-01-01 00:00:" +:+ nat_text n; ticks := 0;
     uuids := fun n => nat_text n +:+ "f0e1d2c-0000-4000-8000-000000000000";
     draws := 0 |}.

(** ** Definitions used to state the properties *)

(** The events a summary scoped to group [G] is said to cover: those tagged
    with [G] and the global ones. *)
Definition scoped_events (G : string) (evs : list Event) : list Event :=
  filter (fun e => ev_group_id e = Some G \/ ev_group_id e = None) evs.

(** The ledger restricted to the events of a scope. *)
Definition restrict_ledger (G : string) (perf : Performance) : Performance :=
  {| base_score := base_score perf;
     events := scoped_events G (events perf);
     perf_updated_at := perf_updated_at perf |}.

(** [float(z)] for an integer of at most 63 bits. *)
Definition float_of_Z (z : Z) : float :=
  match z with
  | Z0 => 0%float
  | Zpos _ => PrimFloat.of_uint63 (Uint63.of_Z z)
  | Zneg _ => PrimFloat.opp (PrimFloat.of_uint63 (Uint63.of_Z (- z)))
  end.

(** Float addition and subtraction are exact on the integers of magnitude
    at most [B]: they round nothing away. (For IEEE doubles this holds up
    to [2^53].) *)
Definition exact_up_to (B : Z) : Prop :=
  forall a b : Z,
    (Z.abs a <= B)%Z -> (Z.abs b <= B)%Z ->
    ((Z.abs (a + b) <= B)%Z ->
     PrimFloat.add (float_of_Z a) (float_of_Z b) = float_of_Z (a + b))
    /\ ((Z.abs (a - b) <= B)%Z ->
        PrimFloat.sub (float_of_Z a) (float_of_Z b) = float_of_Z (a - b)).

Definition sum_Z (zs : list Z) : Z := fold_right Z.add 0%Z zs.

Definition event_with_delta (d : float) : Event :=
  {| ev_id := "e"; ev_type := "manual_adjust"; ev_delta := d; ev_title := "";
     ev_note := ""; ev_group_id := None; ev_at := "2024-01-01" |}.

(** Two ledgers with the same base and the same events in two orders. *)
Definition ledger_ordered : Performance :=
  {| base_score := 0%float;
     events := map event_with_delta
                 [0x1p106%float; 0x1p53%float; 1%float; 1%float; (-0x1p106)%float];
     perf_updated_at := None |}.

Definition ledger_permuted : Performance :=
  {| base_score := 0%float;
     events := map event_with_delta
                 [0x1p106%float; (-0x1p106)%float; 0x1p53%float; 1%float; 1%float];
     perf_updated_at := None |}.

(** A ledger with small integer deltas, the same events in another order,
    and the integer each delta stands for. *)
Definition ledger_small : Performance :=
  {| base_score := 10%float;
     events := map event_with_delta [1%float; 2%float; (-1)%float];
     perf_updated_at := None |}.

Definition ledger_small_permuted : Performance :=
  {| base_score := 10%float;
     events := map event_with_delta [(-1)%float; 1%float; 2%float];
     perf_updated_at := None |}.

Definition delta_Z (e : Event) : Z :=
  if PrimFloat.eqb (ev_delta e) 1%float then 1
  else if PrimFloat.eqb (ev_delta e) 2%float then 2 else (-1).

(** A profile whose first phone alias holds the sentinel and whose third
    holds a number. *)
Definition profile_with_placeholder : value :=
  VDict (<["电话" := VStr "未提及"]> (<["手机" := VStr "13800000000"]> ∅)).

(** A computation that only reads the clock and draws UUIDs: it leaves the
    file and its permissions alone. *)
Definition quiet {A : Type} (m : M A) : Prop :=
  forall w, disk (snd (m w)) = disk w /\ writable (snd (m w)) = writable w.

(** The document [s] is what the file holds, at the current version. *)
Definition holds (w : World) (s : Store) : Prop :=
  disk w = Some (PDoc s) /\ schema_version s = Some SCHEMA_VERSION.

(** Example inputs: the two profiles of the specification's scenario, and
    worlds reached from [fresh_world]. *)
Definition fields_zhang : gmap string value :=
  <["姓名" := VStr "张三"]> (<["电话" := VStr "138-1234-5678"]> ∅).

Definition profile_zhang : value := VDict fields_zhang.

Definition profile_zhang_later : value :=
  VDict (<["教育背景" := VStr "硕士"]> (<["电话" := VStr "13812345678"]> ∅)).

Definition disk_with_group : option Payload :=
  Eval vm_compute in disk (snd (create_group "研发组" "" None fresh_world)).

Definition world_with_group : World :=
  {| disk := disk_with_group; writable := true;
     clock := clock fresh_world; ticks := 4;
     uuids := uuids fresh_world; draws := 1 |}.

(** The group has the id ["0f0e1d2c"], the person the id ["1f0e1d2c"]. *)
Definition disk_with_member : option Payload :=
  Eval vm_compute in
    disk (snd (upsert_person profile_zhang "file_upload" (Some "0f0e1d2c") None
                 world_with_group)).

Definition world_with_member : World :=
  {| disk := disk_with_member; writable := true;
     clock := clock fresh_world; ticks := 10;
     uuids := uuids fresh_world; draws := 2 |}.

(** The profile a matched person holds after the merge. *)
Definition merged (incoming old : value) : value :=
  match incoming, old with
  | VDict i, VDict o => VDict (merge_profile i o)
  | _, _ => old
  end.

(** How the memberships [ms'] of a matched person relate to the former
    ones [ms] after an upsert with [group_id]: unchanged without a group
    id; with one, the existing membership of that group is refreshed in
    place, or a new one is appended when there is none. *)
Definition attached (group_id : option string) (membership_fields : option (gmap string value))
    (source : string) (ms ms' : list Membership) : Prop :=
  match group_id with
  | Some g =>
    if String.eqb g "" then ms' = ms
    else
      match list_find (in_group g) ms with
      | Some (j, existing_ms) =>
        exists t,
          ms' = <[j := {| ms_group_id := ms_group_id existing_ms;
                          joined_at := joined_at existing_ms;
                          ms_updated_at := t;
                          fields := dict_or membership_fields ∅ ∪ fields existing_ms |}]> ms
      | None =>
        exists t_joined t_updated,
          ms' = ms ++ [ {| ms_group_id := g; joined_at := t_joined;
                           ms_updated_at := t_updated;
                           fields := dict_or membership_fields
                                       {[ "source" := VStr source ]} |} ]
      end
  | None => ms' = ms
  end.

(** The same phone under another name and with another e-mail address. *)
Definition fields_renamed : gmap string value :=
  <["姓名" := VStr "李四"]>
    (<["电话" := VStr "138 1234 5678"]>
       (<["邮箱" := VStr "li@example.com"]>
          (<["教育背景" := VStr "未提及"]> ∅))).

Definition profile_renamed : value := VDict fields_renamed.

(** The person [world_with_member] holds. *)
Definition person_zhang : Person :=
  {| p_id := "1f0e1d2c"; p_name := VStr "张三";
     p_phone := "13812345678"; p_email := "";
     p_dedup := {| strategy := "phone_then_email"; key := "phone:13812345678" |};
     p_created_at := "2024-01-01 00:00:6"; p_updated_at := "2024-01-01 00:00:7";
     p_profile := profile_zhang;
     p_sources := [ {| src_type := "file_upload"; imported_at := "2024-01-01 00:00:8" |} ];
     p_memberships :=
       [ {| ms_group_id := "0f0e1d2c"; joined_at := "2024-01-01 00:00:4";
            ms_updated_at := "2024-01-01 00:00:5";
            fields := {[ "source" := VStr "file_upload" ]} |} ];
     p_performance :=
       Some {| base_score := 0%float; events := [];
               perf_updated_at := Some "2024-01-01 00:00:9" |} |}.

(** A ledger with a contribution in group G1, a global contribution and an
    adjustment in group G2. *)
Definition ledger_scenario : Performance :=
  {| base_score := 60%float;
     events :=
       [ {| ev_id := "e_1"; ev_type := "contribution"; ev_delta := 10%float;
            ev_title := "a"; ev_note := ""; ev_group_id := Some "G1";
            ev_at := "2024-01-01" |};
         {| ev_id := "e_2"; ev_type := "contribution"; ev_delta := 3%float;
            ev_title := "b"; ev_note := ""; ev_group_id := None;
            ev_at := "2024-01-02" |};
         {| ev_id := "e_3"; ev_type := "manual_adjust"; ev_delta := 2%float;
            ev_title := "c"; ev_note := ""; ev_group_id := Some "G2";
            ev_at := "2024-01-03" |} ];
     perf_updated_at := Some "2024-01-03 00:00:00" |}.

(** ** Invariants of the store *)

Definition person_key (p : Person) : string := key (p_dedup p).

(** The group ids of a person's memberships, in order. *)
Definition group_ids (p : Person) : list string := ms_group_id <$> p_memberships p.

(** No two people share a non-empty dedup key. *)
Definition keys_unique (s : Store) : Prop :=
  NoDup (filter (fun k => k <> "") (person_key <$> people s)).

(** No person has two memberships of the same group. *)
Definition memberships_unique (s : Store) : Prop :=
  Forall (fun p => NoDup (group_ids p)) (people s).

(** Some person with dedup key [k] is a member of group [g]. *)
Definition covers (s : Store) (k g : string) : Prop :=
  exists p, p ∈ people s /\ person_key p = k /\ g ∈ group_ids p.

(** The dedup key the migration recomputes from a legacy member's
    embedded profile. *)
Definition member_key `{PyBuiltins} (m : OldMember) : string :=
  key (profile_dedup (default (VDict ∅) (om_profile m))).

(** Whatever document the file holds satisfies [memberships_unique]. *)
Definition disk_unique (w : World) : Prop :=
  forall s, disk w = Some (PDoc s) -> memberships_unique s.

(** A version 1 payload: two teams, each with a member carrying the same
    phone number, written differently. *)
Definition legacy_member_a : OldMember :=
  {| om_id := Some "m1"; om_name := Some (VStr "张三"); om_source := Some "text";
     om_created_at := Some "2023-01-01 00:00:00"; om_profile := Some profile_zhang |}.

Definition legacy_member_b : OldMember :=
  {| om_id := Some "m2"; om_name := Some (VStr "张三"); om_source := Some "file";
     om_created_at := Some "2023-02-01 00:00:00";
     om_profile := Some profile_zhang_later |}.

Definition legacy_team_a : OldTeam :=
  {| ot_id := Some "t1"; ot_name := Some "一组";
     ot_created_at := Some "2023-01-01 00:00:00";
     ot_members := Some [legacy_member_a] |}.

Definition legacy_team_b : OldTeam :=
  {| ot_id := Some "t2"; ot_name := Some "二组";
     ot_created_at := Some "2023-02-01 00:00:00";
     ot_members := Some [legacy_member_b] |}.

Definition legacy_world : World :=
  {| disk := Some (PTeams [legacy_team_a; legacy_team_b]); writable := true;
     clock := clock fresh_world; ticks := 0;
     uuids := uuids fresh_world; draws := 0 |}.

Definition legacy_groups : list Group :=
  Eval vm_compute in groups (stored legacy_world).

(** A computation leaves the file as it was or leaves a document that
    satisfies [P]. *)
Definition keeps (P : Store -> Prop) {A : Type} (m : M A) : Prop :=
  forall w, disk (snd (m w)) = disk w
            \/ exists s', P s' /\ disk (snd (m w)) = Some (PDoc s').

(** Whatever document the file holds satisfies [P]. *)
Definition disk_sat (P : Store -> Prop) (w : World) : Prop :=
  forall s, disk w = Some (PDoc s) -> P s.

(** How the memberships [ms'] of a person relate to the former ones [ms]
    after [add_person_to_group] with group [g]: the existing membership of
    the group is refreshed in place, or a new one is appended when there is
    none. *)
Definition joined (g : string) (new_fields : option (gmap string value))
    (ms ms' : list Membership) : Prop :=
  match list_find (in_group g) ms with
  | Some (j, m) =>
    exists t,
      ms' = <[j := {| ms_group_id := ms_group_id m; joined_at := joined_at m;
                      ms_updated_at := t;
                      fields := dict_or new_fields ∅ ∪ fields m |}]> ms
  | None =>
    exists t_joined t_updated,
      ms' = ms ++ [ {| ms_group_id := g; joined_at := t_joined;
                       ms_updated_at := t_updated;
                       fields := dict_or new_fields ∅ |} ]
  end.

(** A session: a group is created, a person imported into it, added to it
    twice more and imported again under another name. *)
Definition example_session : list Op :=
  [ OpCreateGroup "研发组" "" None;
    OpUpsertPerson profile_zhang "file_upload" (Some "0f0e1d2c") None;
    OpAddPersonToGroup "1f0e1d2c" "0f0e1d2c" None;
    OpAddPersonToGroup "1f0e1d2c" "0f0e1d2c" (Some {[ "role" := VStr "组长" ]});
    OpUpsertPerson profile_renamed "text_analysis" (Some "0f0e1d2c") None ].

(** ** Further functions of [store_org.py] and [performance_models.py] *)

(** [load_groups] *)
Definition load_groups `{PyBuiltins} : M (list Group) :=
  store ← load_org_store;
  mret (groups store).

(** [get_people_in_group]: the people with a membership of the group, each
    with the first such membership. *)
Definition get_people_in_group `{PyBuiltins} (group_id : string)
  : M (list (Person * Membership)) :=
  store ← load_org_store;
  mret (omap (fun person =>
                match list_find (in_group group_id) (p_memberships person) with
                | Some (_, ms) => Some (person, ms)
                | None => None
                end)
             (people store)).


(** [add_profile_multi] *)
Definition add_profile_multi `{PyBuiltins}
    (profile_data : value) (source : string) (group_id : option string) : M bool :=
  group_id' ←
    (if supplied group_id then mret group_id
     else
       gs ← load_groups;
       match gs with
       | [] => g ← create_group "默认小组" "" None; mret (Some g)
       | g :: _ => mret (Some (g_id g))
       end);
  '(person_id, _) ← upsert_person profile_data source group_id' None;
  mret (match person_id with Some _ => true | None => false end).

(** The events of a person's ledger, none when the ledger is absent. *)
Definition ledger_events (p : Person) : list Event :=
  match p_performance p with
  | Some perf => events perf
  | None => []
  end.

(** A payload in which [load_org_store] recognises neither a current or
    version 2 document nor a version 1 list. *)
Definition unrecognised (d : Payload) : Prop :=
  match d with
  | PDoc s => schema_version s <> Some SCHEMA_VERSION /\ schema_version s <> Some 2%Z
  | PTeams [] => True
  | PTeams (t :: _) => ot_members t = None
  | PMembers [] => True
  | PMembers (m :: _) => om_profile m = None
  | POther => True
  | PCorrupt => False
  end.



Definition store_version_1 : Store :=
  {| schema_version := Some 1%Z;
     org := {| org_id := "org_default"; org_name := "大团队";
               org_created_at := "2023-01-01 00:00:00";
               org_updated_at := "2023-01-01 00:00:00" |};
     groups := []; people := [person_zhang] |}.

Definition world_version_1 : World :=
  {| disk := Some (PDoc store_version_1); writable := true;
     clock := clock fresh_world; ticks := 0;
     uuids := uuids fresh_world; draws := 0 |}.



(** The person [world_with_member] holds. *)
Definition member_zhang : Person :=
  Eval vm_compute in default person_zhang (people (stored world_with_member) !! 0).

(** The base score of a person's ledger, [0.0] when the ledger is absent. *)
Definition ledger_base (p : Person) : float :=
  match p_performance p with
  | Some perf => base_score perf
  | None => 0%float
  end.

(** The person holds an event with the id. *)
Definition holds_event (pid eid : string) (p : Person) : Prop :=
  p_id p = pid /\ Exists (fun e => ev_id e = eid) (ledger_events p).

(** [get_person_groups]: the person's memberships whose group is in the
    store, each with that group; every membership looks its group up with
    [get_group_by_id]. *)
Definition get_person_groups `{PyBuiltins} (person_id : string)
  : M (list (Group * Membership)) :=
  person ← get_person_by_id person_id;
  match person with
  | None => mret []
  | Some p =>
    found ← forM (fun ms =>
                    group ← get_group_by_id (ms_group_id ms);
                    mret ((fun g => (g, ms)) <$> group))
                 (p_memberships p);
    mret (omap id found)
  end.

(** A version 1 payload that is a flat list of members. *)
Definition flat_world : World :=
  {| disk := Some (PMembers [legacy_member_a; legacy_member_b]); writable := true;
     clock := clock fresh_world; ticks := 0;
     uuids := uuids fresh_world; draws := 0 |}.

(** * Properties *)

(** ** The event ledger *)

Section Ledger.

Lemma filter_bool_prop {A} (f : A -> bool) (P : A -> Prop) `{!forall x, Decision (P x)}
    (l : list A) :
  (forall x, f x = true <-> P x) -> List.filter f l = filter P l.
Proof.
  intros Hf. induction l as [|x l IH]; [reflexivity|].
  simpl. rewrite filter_cons. destruct (f x) eqn:E.
  - rewrite decide_True by (apply Hf; exact E). by rewrite IH.
  - rewrite decide_False; [exact IH|]. intros HP. apply Hf in HP. congruence.
Qed.

Lemma in_scope_spec (G : string) (e : Event) :
  in_scope (Some G) e = true <-> ev_group_id e = Some G \/ ev_group_id e = None.
Proof.
  unfold in_scope. destruct (ev_group_id e) as [g|]; [|tauto].
  rewrite String.eqb_eq. split; [intros ->; by left|]. intros [[=]|[=]]. done.
Qed.

Lemma scoped_events_filter (G : string) (evs : list Event) :
  List.filter (in_scope (Some G)) evs = scoped_events G evs.
Proof. apply filter_bool_prop, in_scope_spec. Qed.

Lemma supplied_Some (G : string) : G <> "" -> supplied (Some G) = true.
Proof.
  intros HG. simpl. destruct (String.eqb G "") eqn:E; [|reflexivity].
  apply String.eqb_eq in E. contradiction.
Qed.

(** C4. A summary scoped to a supplied (non-empty) group id [G] is computed
    over exactly the events tagged [G] or untagged, in their order: the
    event count, the contribution count and total and the current score
    (base plus the sum of the deltas) are those of the ledger restricted to
    that subset, and an event tagged with another group is not in it. *)
Theorem get_summary_scoped (alg : SumAlgorithm) (perf : Performance) (G : string) :
  G <> "" ->
  let sub := scoped_events G (events perf) in
  get_summary alg perf (Some G) =
    {| sum_base_score := base_score perf;
       sum_current_score := PrimFloat.add (base_score perf) (py_sum alg (map ev_delta sub));
       sum_contribution_total := py_sum alg (map ev_delta (List.filter is_contribution sub));
       sum_contribution_count := length (List.filter is_contribution sub);
       sum_event_count := length sub;
       sum_last_updated := default "" (perf_updated_at perf) |}
  /\ sum_current_score (get_summary alg perf (Some G))
     = compute_current_score alg (restrict_ledger G perf)
  /\ sum_contribution_total (get_summary alg perf (Some G))
     = compute_contribution_total alg (restrict_ledger G perf)
  /\ sum_contribution_count (get_summary alg perf (Some G))
     = count_contributions (restrict_ledger G perf)
  /\ (forall e, e ∈ sub <->
        e ∈ events perf /\ (ev_group_id e = Some G \/ ev_group_id e = None))
  /\ (forall e G', e ∈ events perf -> ev_group_id e = Some G' -> G' <> G -> e ∉ sub).
Proof.
  intros HG sub.
  assert (Hsum : get_summary alg perf (Some G) =
    {| sum_base_score := base_score perf;
       sum_current_score := PrimFloat.add (base_score perf) (py_sum alg (map ev_delta sub));
       sum_contribution_total := py_sum alg (map ev_delta (List.filter is_contribution sub));
       sum_contribution_count := length (List.filter is_contribution sub);
       sum_event_count := length sub;
       sum_last_updated := default "" (perf_updated_at perf) |}).
  { unfold get_summary. rewrite (supplied_Some G HG).
    rewrite scoped_events_filter. reflexivity. }
  split; [exact Hsum|]. rewrite Hsum. simpl.
  split; [reflexivity|]. split; [reflexivity|]. split; [reflexivity|]. split.
  - intros e. unfold sub, scoped_events. rewrite list_elem_of_filter. tauto.
  - intros e G' _ Hg Hne He. apply list_elem_of_filter in He.
    destruct He as [[He|He] _]; congruence.
Qed.

End Ledger.

Lemma get_summary_scoped_witness :
  (sum_event_count (get_summary LeftToRight ledger_scenario (Some "G2")) = 2
   /\ sum_contribution_total (get_summary LeftToRight ledger_scenario (Some "G2")) = 3%float
   /\ sum_contribution_count (get_summary LeftToRight ledger_scenario (Some "G2")) = 1
   /\ sum_current_score (get_summary LeftToRight ledger_scenario (Some "G2")) = 65%float)
  /\ (sum_event_count (get_summary Compensated ledger_scenario (Some "G2")) = 2
      /\ sum_contribution_total (get_summary Compensated ledger_scenario (Some "G2"))
         = 3%float
      /\ sum_contribution_count (get_summary Compensated ledger_scenario (Some "G2")) = 1
      /\ sum_current_score (get_summary Compensated ledger_scenario (Some "G2"))
         = 65%float).
Proof.
  split.
  - destruct (get_summary_scoped LeftToRight ledger_scenario "G2") as [Hs _];
      [discriminate|].
    rewrite Hs. repeat split; vm_compute; reflexivity.
  - destruct (get_summary_scoped Compensated ledger_scenario "G2") as [Hs _];
      [discriminate|].
    rewrite Hs. repeat split; vm_compute; reflexivity.
Defined.

Section ScoreFold.

Lemma sum_Z_perm (l l' : list Z) : l ≡ₚ l' -> sum_Z l = sum_Z l'.
Proof.
  induction 1 as [|x l l' _ IH|x y l|l l' l'' _ IH1 _ IH2]; simpl in *; lia.
Qed.

Lemma sum_Z_abs_nonneg (l : list Z) : (0 <= sum_Z (map Z.abs l))%Z.
Proof. induction l as [|x l IH]; simpl; lia. Qed.

Lemma sum_Z_abs_bound (l : list Z) : (Z.abs (sum_Z l) <= sum_Z (map Z.abs l))%Z.
Proof. induction l as [|x l IH]; simpl; lia. Qed.

(** Adding integer-valued floats from left to right computes the integer
    sum as long as no partial sum leaves the range where addition is
    exact. *)
Lemma fold_add_exact (B : Z) (zs : list Z) :
  exact_up_to B ->
  forall a : Z,
    (Z.abs a + sum_Z (map Z.abs zs) <= B)%Z ->
    fold_left PrimFloat.add (map float_of_Z zs) (float_of_Z a)
    = float_of_Z (a + sum_Z zs).
Proof.
  intros HB. induction zs as [|z zs IH]; intros a Ha; simpl in *.
  - by rewrite Z.add_0_r.
  - pose proof (sum_Z_abs_nonneg zs) as Hnn.
    rewrite (proj1 (HB a z ltac:(lia) ltac:(lia))) by lia.
    rewrite IH by lia. f_equal. lia.
Qed.

(** One step of the compensated sum on integers in the exact range: the
    running sum is the integer sum and nothing is collected in the
    compensation. *)
Lemma neumaier_step_exact (B : Z) (a z : Z) :
  exact_up_to B ->
  (Z.abs a + Z.abs z <= B)%Z ->
  neumaier_step (float_of_Z a, float_of_Z 0) (float_of_Z z)
  = (float_of_Z (a + z), float_of_Z 0).
Proof.
  intros HB Hb. unfold neumaier_step.
  destruct (HB a z ltac:(lia) ltac:(lia)) as [Hadd _].
  rewrite Hadd by lia. f_equal.
  destruct (HB 0%Z 0%Z ltac:(lia) ltac:(lia)) as [Hzero _].
  specialize (Hzero ltac:(lia)). simpl Z.add in Hzero.
  destruct (PrimFloat.leb (PrimFloat.abs (float_of_Z z)) (PrimFloat.abs (float_of_Z a))).
  - destruct (HB a (a + z)%Z ltac:(lia) ltac:(lia)) as [_ Hsub].
    rewrite Hsub by lia.
    destruct (HB (a - (a + z))%Z z ltac:(lia) ltac:(lia)) as [Hback _].
    rewrite Hback by lia.
    replace (a - (a + z) + z)%Z with 0%Z by lia. exact Hzero.
  - destruct (HB z (a + z)%Z ltac:(lia) ltac:(lia)) as [_ Hsub].
    rewrite Hsub by lia.
    destruct (HB (z - (a + z))%Z a ltac:(lia) ltac:(lia)) as [Hback _].
    rewrite Hback by lia.
    replace (z - (a + z) + a)%Z with 0%Z by lia. exact Hzero.
Qed.

Lemma fold_neumaier_exact (B : Z) (zs : list Z) :
  exact_up_to B ->
  forall a : Z,
    (Z.abs a + sum_Z (map Z.abs zs) <= B)%Z ->
    fold_left neumaier_step (map float_of_Z zs) (float_of_Z a, float_of_Z 0)
    = (float_of_Z (a + sum_Z zs), float_of_Z 0).
Proof.
  intros HB. induction zs as [|z zs IH]; intros a Ha.
  - simpl. by rewrite Z.add_0_r.
  - pose proof (sum_Z_abs_nonneg zs) as Hnn.
    simpl in Ha. cbn [map fold_left].
    change (sum_Z (z :: zs)) with (z + sum_Z zs)%Z.
    rewrite (neumaier_step_exact B) by (exact HB || lia).
    rewrite IH by lia. f_equal. f_equal. lia.
Qed.

(** On integers in the exact range the builtin sum is the integer sum,
    with either algorithm. *)
Lemma py_sum_exact (B : Z) (alg : SumAlgorithm) (zs : list Z) :
  exact_up_to B -> (sum_Z (map Z.abs zs) <= B)%Z ->
  py_sum alg (map float_of_Z zs) = float_of_Z (sum_Z zs).
Proof.
  intros HB Hzs. destruct alg; simpl.
  - unfold py_sum_left_to_right.
    change 0%float with (float_of_Z 0). by rewrite (fold_add_exact B).
  - destruct zs as [|z zs]; [reflexivity|].
    pose proof (sum_Z_abs_nonneg zs) as Hnn.
    simpl in Hzs. cbn [map].
    change (sum_Z (z :: zs)) with (z + sum_Z zs)%Z.
    unfold py_sum_compensated.
    change 0%float with (float_of_Z 0).
    rewrite (proj1 (HB 0%Z z ltac:(lia) ltac:(lia))) by lia.
    rewrite (fold_neumaier_exact B) by (exact HB || lia).
    reflexivity.
Qed.

(** C5, as amended. When the deltas are integer-valued and float addition
    and subtraction are exact up to the sum of their magnitudes, the
    current score is the base plus the exact sum of the deltas and
    reordering the events leaves it unchanged, whether the interpreter's
    [sum] adds from left to right or with compensation. *)
Theorem score_fold_exact (alg : SumAlgorithm) (B : Z) (perf perf' : Performance)
    (z : Event -> Z) :
  exact_up_to B ->
  (forall e, e ∈ events perf -> ev_delta e = float_of_Z (z e)) ->
  (sum_Z (map Z.abs (map z (events perf))) <= B)%Z ->
  base_score perf' = base_score perf ->
  events perf ≡ₚ events perf' ->
  compute_current_score alg perf
  = PrimFloat.add (base_score perf) (float_of_Z (sum_Z (map z (events perf))))
  /\ compute_current_score alg perf' = compute_current_score alg perf.
Proof.
  intros HB Hz Hsum Hbase Hperm.
  assert (Hdeltas : forall evs, (forall e, e ∈ evs -> ev_delta e = float_of_Z (z e)) ->
                                map ev_delta evs = map float_of_Z (map z evs)).
  { induction evs as [|e evs IH]; intros He; [reflexivity|]. simpl.
    rewrite He by left. rewrite IH; [reflexivity|]. intros e' He'. apply He. by right. }
  assert (Hscore : forall p, events perf ≡ₚ events p ->
            compute_current_score alg p
            = PrimFloat.add (base_score p) (float_of_Z (sum_Z (map z (events perf))))).
  { intros p Hp. unfold compute_current_score. cbn zeta.
    rewrite Hdeltas by (intros e He; apply Hz; by rewrite Hp).
    rewrite (py_sum_exact B); [|exact HB|].
    - f_equal. f_equal. apply sum_Z_perm. by rewrite Hp.
    - erewrite sum_Z_perm; [exact Hsum|]. by rewrite Hp. }
  split.
  - by apply Hscore.
  - rewrite (Hscore perf') by exact Hperm. rewrite (Hscore perf) by reflexivity.
    by rewrite Hbase.
Qed.

Lemma exact_up_to_4 : exact_up_to 4.
Proof.
  intros a b Ha Hb.
  assert (Hcases : forall x : Z, (Z.abs x <= 4)%Z ->
            x = (-4)%Z \/ x = (-3)%Z \/ x = (-2)%Z \/ x = (-1)%Z \/ x = 0%Z
            \/ x = 1%Z \/ x = 2%Z \/ x = 3%Z \/ x = 4%Z) by (intros x Hx; lia).
  destruct (Hcases a Ha) as [->|[->|[->|[->|[->|[->|[->|[->| ->]]]]]]]];
  destruct (Hcases b Hb) as [->|[->|[->|[->|[->|[->|[->|[->| ->]]]]]]]];
  split; intros _; vm_compute; reflexivity.
Qed.

Lemma score_fold_exact_witness :
  (compute_current_score LeftToRight ledger_small = 12%float
   /\ compute_current_score LeftToRight ledger_small_permuted
      = compute_current_score LeftToRight ledger_small)
  /\ (compute_current_score Compensated ledger_small = 12%float
      /\ compute_current_score Compensated ledger_small_permuted
         = compute_current_score Compensated ledger_small).
Proof.
  assert (Hdelta : forall e, e ∈ events ledger_small ->
                             ev_delta e = float_of_Z (delta_Z e)).
  { intros e He. simpl in He.
    repeat (apply elem_of_cons in He as [->|He]; [vm_compute; reflexivity|]).
    by apply elem_of_nil in He. }
  assert (Hbound : (sum_Z (map Z.abs (map delta_Z (events ledger_small))) <= 4)%Z)
    by (vm_compute; discriminate).
  assert (Hperm : events ledger_small ≡ₚ events ledger_small_permuted).
  { simpl. change ([event_with_delta 1; event_with_delta 2] ++ [event_with_delta (-1)]
                   ≡ₚ [event_with_delta (-1)] ++ [event_with_delta 1; event_with_delta 2]).
    apply Permutation_app_comm. }
  split.
  - destruct (score_fold_exact LeftToRight 4 ledger_small ledger_small_permuted delta_Z
                exact_up_to_4 Hdelta Hbound eq_refl Hperm) as (H1 & H2).
    split; [|exact H2]. rewrite H1. vm_compute. reflexivity.
  - destruct (score_fold_exact Compensated 4 ledger_small ledger_small_permuted delta_Z
                exact_up_to_4 Hdelta Hbound eq_refl Hperm) as (H1 & H2).
    split; [|exact H2]. rewrite H1. vm_compute. reflexivity.
Defined.

(** C5, the claim as stated fails: two ledgers with the same base and the
    same events in two orders have different scores, because float addition
    rounds. The exact sum of the deltas is [2^53 + 2]; adding from left to
    right gives [0] and [2^53], adding with compensation gives [2^53] and
    [2^53 + 2]. *)
Lemma score_depends_on_order :
  base_score ledger_ordered = base_score ledger_permuted
  /\ events ledger_ordered ≡ₚ events ledger_permuted
  /\ compute_current_score LeftToRight ledger_ordered = 0%float
  /\ compute_current_score LeftToRight ledger_permuted = 0x1p53%float
  /\ compute_current_score Compensated ledger_ordered = 0x1p53%float
  /\ compute_current_score Compensated ledger_permuted = 0x1.0000000000001p53%float
  /\ (forall alg, compute_current_score alg ledger_ordered
                  <> compute_current_score alg ledger_permuted).
Proof.
  split; [reflexivity|]. split.
  - unfold ledger_ordered, ledger_permuted. simpl. apply perm_skip.
    change ([event_with_delta 0x1p53; event_with_delta 1; event_with_delta 1]
              ++ [event_with_delta (-0x1p106)]
            ≡ₚ [event_with_delta (-0x1p106)]
              ++ [event_with_delta 0x1p53; event_with_delta 1; event_with_delta 1]).
    apply Permutation_app_comm.
  - repeat (split; [vm_compute; reflexivity|]).
    intros [|]; vm_compute; discriminate.
Qed.

End ScoreFold.

(** ** Contact extraction *)

(** C3, the code at the failing input. The first phone alias holds the
    sentinel: [_extract_contact_from_profile] returns the sentinel as the
    phone and never reaches the number under the third alias, so the dedup
    key is empty; [extract_contact] of the validation module, on the same
    profile, skips the sentinel and returns the number. *)
Theorem extract_contact_keeps_placeholder :
  (forall B : PyBuiltins,
      @_extract_contact_from_profile B profile_with_placeholder
      = (VStr "未提及", VStr "")
      /\ key (@_compute_dedup_key B (VStr "未提及") (VStr "")) = "")
  /\ extract_contact profile_with_placeholder = ("13800000000", "").
Proof.
  split; [|vm_compute; reflexivity].
  intros B. split; vm_compute; reflexivity.
Qed.

(** ** The world monad *)

Section Monad.

Lemma bind_run {A B} (m : M A) (f : A -> M B) (w : World) :
  (x ← m; f x) w = f (fst (m w)) (snd (m w)).
Proof. unfold mbind, M_bind. by destruct (m w). Qed.

Lemma ret_run {A} (a : A) (w : World) : (mret a : M A) w = (a, w).
Proof. reflexivity. Qed.

Lemma quiet_ret {A} (a : A) : quiet (mret a : M A).
Proof. by intros w. Qed.

Lemma quiet_bind {A B} (m : M A) (f : A -> M B) :
  quiet m -> (forall a, quiet (f a)) -> quiet (x ← m; f x).
Proof.
  intros Hm Hf w. rewrite bind_run.
  destruct (Hf (fst (m w)) (snd (m w))) as [-> ->]. apply Hm.
Qed.

Lemma quiet_timestamp : quiet _get_timestamp.
Proof. by intros w. Qed.

Lemma quiet_now : quiet _now.
Proof. by intros w. Qed.

Lemma quiet_uuid4 : quiet uuid4.
Proof. by intros w. Qed.

Lemma quiet_foldM {A S} (f : S -> A -> M S) (l : list A) :
  (forall s x, quiet (f s x)) -> forall s, quiet (foldM f l s).
Proof.
  intros Hf. induction l as [|x l IH]; intros s; simpl.
  - apply quiet_ret.
  - apply quiet_bind; [apply Hf | apply IH].
Qed.

Lemma quiet_forM {A B} (f : A -> M B) (l : list A) :
  (forall x, quiet (f x)) -> quiet (forM f l).
Proof.
  intros Hf. induction l as [|x l IH]; simpl.
  - apply quiet_ret.
  - apply quiet_bind; [apply Hf|]. intros y.
    apply quiet_bind; [apply IH|]. intros ys. apply quiet_ret.
Qed.

Lemma quiet_match_option {A B} (o : option A) (f : A -> M B) (m : M B) :
  (forall a, quiet (f a)) -> quiet m ->
  quiet (match o with Some a => f a | None => m end).
Proof. by destruct o. Qed.

End Monad.

(** Discharges [quiet] for a straight-line sequence of clock and UUID
    readings that ends in [mret]. *)
Ltac quiet_tac :=
  repeat first
    [ apply quiet_ret | apply quiet_timestamp | apply quiet_now | apply quiet_uuid4
    | apply quiet_bind; [|intros ?] ].

Section Persistence.
Context `{PyBuiltins}.

Lemma quiet_empty_performance : quiet empty_performance.
Proof. unfold empty_performance. quiet_tac. Qed.

Lemma quiet_ensured_performance (p : Person) : quiet (ensured_performance p).
Proof.
  unfold ensured_performance. destruct (p_performance p) as [perf|].
  - destruct (perf_updated_at perf); quiet_tac.
  - apply quiet_empty_performance.
Qed.

Lemma quiet_ensure_performance (p : Person) : quiet (ensure_performance p).
Proof.
  unfold ensure_performance. apply quiet_bind; [apply quiet_ensured_performance|].
  intros. apply quiet_ret.
Qed.

Lemma quiet_create_empty : quiet _create_empty_org_store.
Proof. unfold _create_empty_org_store. quiet_tac. Qed.

Lemma quiet_migrate_member (s : Store) (m : OldMember) (g : string) :
  quiet (_migrate_member_to_store s m g).
Proof.
  unfold _migrate_member_to_store.
  destruct (_extract_contact_from_profile _) as [phone email].
  apply quiet_bind; [apply quiet_timestamp|]. intros t1.
  apply quiet_bind; [apply quiet_timestamp|]. intros t2.
  destruct (find_by_key _ _) as [[i existing]|]; quiet_tac.
Qed.

Lemma quiet_migrate_team (s : Store) (t : OldTeam) : quiet (migrate_team s t).
Proof.
  unfold migrate_team.
  apply quiet_bind; [apply quiet_uuid4|]. intros u.
  apply quiet_bind; [apply quiet_timestamp|]. intros t1.
  apply quiet_bind; [apply quiet_timestamp|]. intros t2.
  apply quiet_foldM. intros. apply quiet_migrate_member.
Qed.

Lemma quiet_migrate_from_v1 (d : Payload) : quiet (_migrate_from_v1 d).
Proof.
  unfold _migrate_from_v1. apply quiet_bind; [apply quiet_create_empty|].
  intros s. destruct d as [s0|[|t ts]|[|m ms]| |]; try apply quiet_ret.
  - destruct (ot_members t); [|apply quiet_ret].
    apply quiet_foldM. intros. apply quiet_migrate_team.
  - destruct (om_profile m); [|apply quiet_ret].
    apply quiet_bind; [apply quiet_timestamp|]. intros t1.
    apply quiet_bind; [apply quiet_timestamp|]. intros t2.
    apply quiet_foldM. intros. apply quiet_migrate_member.
Qed.

Lemma quiet_migrate_v2_to_v3 (s : Store) : quiet (_migrate_v2_to_v3 s).
Proof.
  unfold _migrate_v2_to_v3. apply quiet_bind; [|intros; apply quiet_ret].
  apply quiet_forM. intros. apply quiet_ensure_performance.
Qed.

Lemma migrate_v2_to_v3_version (s : Store) (w : World) :
  schema_version (fst (_migrate_v2_to_v3 s w)) = Some SCHEMA_VERSION.
Proof.
  unfold _migrate_v2_to_v3. rewrite bind_run. reflexivity.
Qed.

Lemma set_schema_version_id (s : Store) :
  schema_version s = Some SCHEMA_VERSION ->
  set_schema_version (Some SCHEMA_VERSION) s = s.
Proof. destruct s; simpl; intros ->; reflexivity. Qed.

Lemma save_run (s : Store) (w : World) :
  save_org_store s w =
    if writable w
    then (true, set_disk (Some (PDoc (set_schema_version (Some SCHEMA_VERSION) s))) w)
    else (false, w).
Proof. reflexivity. Qed.

Lemma save_writable (s : Store) (w : World) :
  writable (snd (save_org_store s w)) = writable w.
Proof. rewrite save_run. by destruct (writable w) eqn:E. Qed.

Lemma save_result (s : Store) (w : World) :
  fst (save_org_store s w) = writable w.
Proof. rewrite save_run. by destruct (writable w). Qed.

Lemma save_holds (s : Store) (w : World) :
  writable w = true ->
  holds (snd (save_org_store s w)) (set_schema_version (Some SCHEMA_VERSION) s).
Proof. intros Hw. rewrite save_run, Hw. by split. Qed.

(** What [load_org_store] does to the file: nothing, or, after a migration
    whose write succeeded, it holds the store that was returned. *)
Lemma load_effect (w : World) :
  writable (snd (load_org_store w)) = writable w
  /\ (disk (snd (load_org_store w)) = disk w
      \/ holds (snd (load_org_store w)) (fst (load_org_store w))).
Proof.
  assert (Hmig : forall (m : M Store),
            quiet m ->
            (forall w0, schema_version (fst (m w0)) = Some SCHEMA_VERSION) ->
            let r := (migrated ← m; _ ← save_org_store migrated; mret migrated) w in
            writable (snd r) = writable w
            /\ (disk (snd r) = disk w \/ holds (snd r) (fst r))).
  { intros m Hq Hv. cbn zeta. rewrite bind_run, bind_run, ret_run. simpl.
    destruct (Hq w) as [Hd Hw]. rewrite save_writable, Hw. split; [done|].
    rewrite save_run. destruct (writable (snd (m w))) eqn:E; simpl.
    - right. split; [|apply Hv]. by rewrite set_schema_version_id by apply Hv.
    - by left. }
  assert (Hv1 : forall d,
            let r := (migrated ← _migrate_from_v1 d;
                      migrated ← _migrate_v2_to_v3 migrated;
                      _ ← save_org_store migrated; mret migrated) w in
            writable (snd r) = writable w
            /\ (disk (snd r) = disk w \/ holds (snd r) (fst r))).
  { intros d.
    pose proof (Hmig (migrated ← _migrate_from_v1 d; _migrate_v2_to_v3 migrated)) as Hm.
    cbn zeta in *. rewrite !bind_run in *. apply Hm.
    - apply quiet_bind; [apply quiet_migrate_from_v1|]. intros. apply quiet_migrate_v2_to_v3.
    - intros w0. rewrite bind_run. apply migrate_v2_to_v3_version. }
  unfold load_org_store.
  destruct (disk w) as [[s| | | |]|] eqn:Hd; rewrite <- ?Hd in *.
  - case_bool_decide; [by split; [|left]|].
    case_bool_decide.
    + apply (Hmig (_migrate_v2_to_v3 s)).
      * apply quiet_migrate_v2_to_v3.
      * intros. apply migrate_v2_to_v3_version.
    + apply Hv1.
  - apply Hv1.
  - apply Hv1.
  - apply Hv1.
  - destruct (quiet_create_empty w) as [-> ->]. by split; [|left].
  - destruct (quiet_create_empty w) as [-> ->]. by split; [|left].
Qed.

Lemma load_writable (w : World) : writable (snd (load_org_store w)) = writable w.
Proof. apply load_effect. Qed.

Lemma load_holds (w : World) (s : Store) :
  holds w s -> load_org_store w = (s, w).
Proof.
  intros [Hd Hv]. unfold load_org_store. rewrite Hd.
  by rewrite bool_decide_eq_true_2.
Qed.

Lemma stored_holds (w : World) (s : Store) : holds w s -> stored w = s.
Proof. intros Hh. unfold stored. by rewrite (load_holds w s). Qed.

End Persistence.

(** ** Group deletion *)

Section DeleteGroup.
Context `{PyBuiltins}.

(** C7. When the write succeeds, [delete_group G] leaves a document whose
    groups are the former ones without those of id [G], and whose people
    are the former people, one for one and in order, each with the same id,
    name, contact, dedup key, profile, sources and performance ledger, and
    with its memberships of group [G] removed. *)
Theorem delete_group_cascade (w : World) (G : string) :
  writable w = true ->
  exists s' : Store,
    fst (delete_group G w) = true
    /\ holds (snd (delete_group G w)) s'
    /\ groups s' = filter (fun g => g_id g <> G) (groups (stored w))
    /\ (forall g, g ∈ groups s' -> g_id g <> G)
    /\ length (people s') = length (people (stored w))
    /\ forall i p, people (stored w) !! i = Some p ->
         exists p', people s' !! i = Some p'
           /\ p_id p' = p_id p /\ p_name p' = p_name p
           /\ p_phone p' = p_phone p /\ p_email p' = p_email p
           /\ p_dedup p' = p_dedup p
           /\ p_created_at p' = p_created_at p /\ p_updated_at p' = p_updated_at p
           /\ p_profile p' = p_profile p /\ p_sources p' = p_sources p
           /\ p_performance p' = p_performance p
           /\ p_memberships p' = filter (fun m => ms_group_id m <> G) (p_memberships p)
           /\ forall m, m ∈ p_memberships p' -> ms_group_id m <> G.
Proof.
  intros Hw. unfold delete_group. rewrite bind_run. fold (stored w).
  set (s := stored w).
  set (s2 := set_people _ _).
  exists (set_schema_version (Some SCHEMA_VERSION) s2).
  assert (Hw1 : writable (snd (load_org_store w)) = true) by by rewrite load_writable.
  split; [by rewrite save_result|].
  split; [by apply save_holds|].
  split; [reflexivity|]. split.
  { intros g Hg. simpl in Hg. by apply list_elem_of_filter in Hg as [? _]. }
  split; [simpl; by rewrite length_map|].
  intros i p Hp. simpl.
  exists (set_memberships (drop_group G (p_memberships p)) p).
  split; [by rewrite list_lookup_fmap, Hp|].
  repeat (split; [reflexivity|]).
  intros m Hm. simpl in Hm. by apply list_elem_of_filter in Hm as [? _].
Qed.

End DeleteGroup.

Lemma delete_group_cascade_witness :
  fst (delete_group "0f0e1d2c" world_with_member) = true
  /\ (exists s, holds world_with_member s
                /\ length (groups s) = 1 /\ length (people s) = 1
                /\ (forall p, p ∈ people s -> length (p_memberships p) = 1))
  /\ exists s', holds (snd (delete_group "0f0e1d2c" world_with_member)) s'
                /\ groups s' = [] /\ length (people s') = 1
                /\ forall p, p ∈ people s' -> p_memberships p = [].
Proof.
  destruct (delete_group_cascade world_with_member "0f0e1d2c" eq_refl)
    as (s' & Hr & Hh & Hg & _ & Hl & Hp).
  split; [exact Hr|]. split.
  - eexists. split; [split; vm_compute; reflexivity|].
    split; [reflexivity|]. split; [reflexivity|].
    intros p Hp'. apply list_elem_of_singleton in Hp'. by subst.
  - exists s'. split; [exact Hh|].
    split; [rewrite Hg; vm_compute; reflexivity|].
    split; [rewrite Hl; vm_compute; reflexivity|].
    intros p Hp'. apply list_elem_of_lookup in Hp' as [i Hi].
    assert (Hlen : i < length (people s')) by (eapply lookup_lt_Some; exact Hi).
    rewrite Hl in Hlen.
    destruct (lookup_lt_is_Some_2 (people (stored world_with_member)) i Hlen) as [q Hq].
    destruct (Hp i q Hq) as (p' & Hi' & Hrest).
    rewrite Hi in Hi'. injection Hi' as <-.
    destruct Hrest as (_ & _ & _ & _ & _ & _ & _ & _ & _ & _ & Hms & _).
    rewrite Hms.
    assert (Hi0 : i = 0) by (vm_compute in Hlen; lia). subst i.
    vm_compute in Hq. injection Hq as <-. vm_compute. reflexivity.
Defined.

(** ** Operations addressed to an entity that is not there *)

Section NotFound.
Context `{PyBuiltins}.

Lemma list_find_absent {A} (P : A -> Prop) `{!forall x, Decision (P x)} (l : list A) :
  Forall (fun x => ~ P x) l -> list_find P l = None.
Proof. intros Hl. by apply list_find_None. Qed.

Lemma update_membership_loop_absent (pid g : string) (f : gmap string value)
    (ps : list Person) (w : World) :
  Forall (fun p => p_id p <> pid) ps ->
  update_membership_loop pid g f ps w = (None, w).
Proof.
  induction 1 as [|p ps Hp _ IH]; [reflexivity|]. simpl.
  rewrite decide_False by exact Hp. rewrite bind_run, IH. reflexivity.
Qed.

Lemma update_event_loop_absent (pid eid : string) (patch : EventPatch)
    (ps : list Person) (w : World) :
  Forall (fun p => p_id p <> pid) ps ->
  update_event_loop pid eid patch ps w = (None, w).
Proof.
  induction 1 as [|p ps Hp _ IH]; [reflexivity|]. simpl.
  rewrite decide_False by exact Hp. rewrite bind_run, IH. reflexivity.
Qed.

Lemma delete_event_loop_absent (pid eid : string) (ps : list Person) (w : World) :
  Forall (fun p => p_id p <> pid) ps ->
  delete_event_loop pid eid ps w = (None, w).
Proof.
  induction 1 as [|p ps Hp _ IH]; [reflexivity|]. simpl.
  rewrite decide_False by exact Hp. rewrite bind_run, IH. reflexivity.
Qed.

Lemma filter_all {A} (P : A -> Prop) `{!forall x, Decision (P x)} (l : list A) :
  Forall P l -> filter P l = l.
Proof.
  induction 1 as [|x l Hx _ IH]; [reflexivity|].
  rewrite filter_cons, decide_True by exact Hx. by rewrite IH.
Qed.

(** C8, as amended. With no person of id [pid] in the store, the
    operations addressed to a person return [false] and leave the world as
    loading the store left it; likewise [rename_group] for a group id [gid]
    that no group has. None of them raises: each is a total function.
    [delete_person] and [delete_group] do not look the entity up: they
    return the outcome of the write ([true] when it succeeds) and the
    document they write has the people, respectively the groups,
    unchanged. *)
Theorem not_found_results (w : World) (pid gid : string) :
  Forall (fun p => p_id p <> pid) (people (stored w)) ->
  Forall (fun g => g_id g <> gid) (groups (stored w)) ->
  let w1 := snd (load_org_store w) in
  (forall n, rename_group gid n w = (false, w1))
  /\ (forall g f, add_person_to_group pid g f w = (false, w1))
  /\ (forall g, remove_person_from_group pid g w = (false, w1))
  /\ (forall g f, update_membership_fields pid g f w = (false, w1))
  /\ (forall b, set_person_base_score pid b w = (false, w1))
  /\ (forall e, add_performance_event pid e w = (false, w1))
  /\ (forall eid patch, update_performance_event pid eid patch w = (false, w1))
  /\ (forall eid, delete_performance_event pid eid w = (false, w1))
  /\ fst (delete_person pid w) = writable w
  /\ fst (delete_group gid w) = writable w
  /\ (writable w = true ->
      exists s', holds (snd (delete_person pid w)) s'
                 /\ people s' = people (stored w) /\ groups s' = groups (stored w))
  /\ (writable w = true ->
      exists s', holds (snd (delete_group gid w)) s'
                 /\ groups s' = groups (stored w)
                 /\ length (people s') = length (people (stored w))).
Proof.
  intros Hp Hg w1.
  assert (Hfp : list_find (has_id pid) (people (stored w)) = None)
    by (apply list_find_absent; exact Hp).
  assert (Hfg : list_find (group_has_id gid) (groups (stored w)) = None)
    by (apply list_find_absent; exact Hg).
  unfold stored in *.
  repeat split.
  - intros n. unfold rename_group. by rewrite bind_run, Hfg.
  - intros g f. unfold add_person_to_group. by rewrite bind_run, Hfp.
  - intros g. unfold remove_person_from_group. by rewrite bind_run, Hfp.
  - intros g f. unfold update_membership_fields.
    by rewrite bind_run, bind_run, update_membership_loop_absent.
  - intros b. unfold set_person_base_score. by rewrite bind_run, Hfp.
  - intros e. unfold add_performance_event. by rewrite bind_run, Hfp.
  - intros eid patch. unfold update_performance_event.
    by rewrite bind_run, bind_run, update_event_loop_absent.
  - intros eid. unfold delete_performance_event.
    by rewrite bind_run, bind_run, delete_event_loop_absent.
  - unfold delete_person. by rewrite bind_run, save_result, load_writable.
  - unfold delete_group. by rewrite bind_run, save_result, load_writable.
  - intros Hw. unfold delete_person. rewrite bind_run.
    eexists. split; [apply save_holds; by rewrite load_writable|].
    simpl. split; [|reflexivity]. by apply filter_all.
  - intros Hw. unfold delete_group. rewrite bind_run.
    eexists. split; [apply save_holds; by rewrite load_writable|].
    simpl. split; [by apply filter_all|]. by rewrite length_map.
Qed.

End NotFound.

Lemma not_found_results_witness :
  rename_group "no_group" "新名字" world_with_member = (false, world_with_member)
  /\ add_person_to_group "nobody" "0f0e1d2c" None world_with_member
     = (false, world_with_member)
  /\ fst (delete_person "nobody" world_with_member) = true.
Proof.
  assert (Hp : Forall (fun p => p_id p <> "nobody") (people (stored world_with_member))).
  { apply Forall_cons. split; [vm_compute; discriminate|]. apply Forall_nil_2. }
  assert (Hg : Forall (fun g => g_id g <> "no_group") (groups (stored world_with_member))).
  { apply Forall_cons. split; [vm_compute; discriminate|]. apply Forall_nil_2. }
  destruct (not_found_results world_with_member "nobody" "no_group" Hp Hg)
    as (H1 & H2 & _ & _ & _ & _ & _ & _ & H9 & _).
  split; [exact (H1 _)|]. split; [exact (H2 _ _)|]. exact H9.
Defined.

(** C8, the claim as stated fails: [delete_person] and [delete_group]
    return [true] for an id that nothing in the store has, and
    [add_person_to_group] returns [true] for a group id that no group has. *)
Lemma delete_absent_returns_true :
  Forall (fun p => p_id p <> "nobody") (people (stored world_with_member))
  /\ Forall (fun g => g_id g <> "no_group") (groups (stored world_with_member))
  /\ fst (delete_person "nobody" world_with_member) = true
  /\ fst (delete_group "no_group" world_with_member) = true
  /\ fst (add_person_to_group "1f0e1d2c" "no_group" None world_with_member) = true.
Proof.
  split; [|split].
  - apply Forall_cons. split; [vm_compute; discriminate|]. apply Forall_nil_2.
  - apply Forall_cons. split; [vm_compute; discriminate|]. apply Forall_nil_2.
  - repeat split; vm_compute; reflexivity.
Qed.

(** ** Upsert *)

Section Upsert.
Context `{PyBuiltins}.

Lemma quiet_upsert_name (pd : value) : quiet (upsert_name pd).
Proof.
  unfold upsert_name. destruct pd; try apply quiet_ret.
  destruct (py_eq_str _ _); quiet_tac.
Qed.

Lemma quiet_upsert_membership (src : string) (g : option string)
    (mf : option (gmap string value)) : quiet (upsert_membership src g mf).
Proof.
  unfold upsert_membership. destruct g as [g|]; [|apply quiet_ret].
  destruct (String.eqb g ""); quiet_tac.
Qed.

Lemma quiet_upsert_attach (m : option Membership) (mf : option (gmap string value))
    (ms : list Membership) : quiet (upsert_attach m mf ms).
Proof.
  unfold upsert_attach. destruct m as [m|]; [|apply quiet_ret].
  destruct (list_find _ _) as [[j ems]|]; quiet_tac.
Qed.

Lemma upsert_attach_attached (src : string) (g : option string)
    (mf : option (gmap string value)) (ms : list Membership) (w w' : World) :
  attached g mf src ms
    (fst (upsert_attach (fst (upsert_membership src g mf w)) mf ms w')).
Proof.
  unfold attached, upsert_membership, upsert_attach.
  destruct g as [g|]; [|reflexivity].
  destruct (String.eqb g ""); [reflexivity|]. simpl.
  destruct (list_find (in_group g) ms) as [[j ems]|]; simpl; eauto.
Qed.

(** The merge branch: what [upsert_person] returns and writes when the
    profile's dedup key matches the person [ep] at position [i]. *)
Lemma upsert_matched (pd : value) (src : string) (g : option string)
    (mf : option (gmap string value)) (w : World) (i : nat) (ep : Person) :
  find_by_key (key (profile_dedup pd)) (people (stored w)) = Some (i, ep) ->
  exists (t t_imported : string) (ms' : list Membership),
    let ep' :=
      set_memberships ms'
        (set_sources (p_sources ep ++ [ {| src_type := src; imported_at := t_imported |} ])
           (set_profile (merged pd (p_profile ep)) (set_p_updated_at t ep))) in
    let s' := set_people (<[i := ep']> (people (stored w))) (stored w) in
    fst (upsert_person pd src g mf w) = (Some (p_id ep), false)
    /\ attached g mf src (p_memberships ep) ms'
    /\ (writable w = true ->
        holds (snd (upsert_person pd src g mf w))
              (set_schema_version (Some SCHEMA_VERSION) s'))
    /\ (writable w = false ->
        disk (snd (upsert_person pd src g mf w)) = disk (snd (load_org_store w)))
    /\ writable (snd (upsert_person pd src g mf w)) = writable w.
Proof.
  intros Hfind. unfold upsert_person, profile_dedup, stored in *.
  rewrite bind_run.
  destruct (_extract_contact_from_profile pd) as [phone email].
  rewrite bind_run, bind_run, Hfind.
  set (w1 := snd (load_org_store w)).
  set (w2 := snd (upsert_name pd w1)).
  set (w3 := snd (upsert_membership src g mf w2)).
  rewrite !bind_run, ret_run.
  set (w4 := snd (_get_timestamp w3)).
  set (w5 := snd (_get_timestamp w4)).
  set (w6 := snd (upsert_attach _ mf (p_memberships ep) w5)).
  assert (Hq : disk w6 = disk w1 /\ writable w6 = writable w).
  { unfold w6.
    destruct (quiet_upsert_attach (fst (upsert_membership src g mf w2)) mf
                (p_memberships ep) w5) as [-> ->].
    unfold w5, w4, w3. simpl.
    destruct (quiet_upsert_membership src g mf w2) as [-> ->].
    unfold w2. destruct (quiet_upsert_name pd w1) as [-> ->].
    unfold w1. by rewrite load_writable. }
  destruct Hq as [Hd Hw].
  exists (fst (_get_timestamp w3)), (fst (_get_timestamp w4)),
    (fst (upsert_attach (fst (upsert_membership src g mf w2)) mf (p_memberships ep) w5)).
  cbn zeta. split; [reflexivity|]. split; [apply upsert_attach_attached|].
  split; [|split].
  - intros Hwt. simpl. apply save_holds. by rewrite Hw.
  - intros Hwt. simpl. rewrite save_run, Hw, Hwt. exact Hd.
  - simpl. by rewrite save_writable.
Qed.

(** The create branch: no person has the profile's dedup key, or the key
    is empty. *)
Lemma upsert_created (pd : value) (src : string) (g : option string)
    (mf : option (gmap string value)) (w : World) :
  find_by_key (key (profile_dedup pd)) (people (stored w)) = None ->
  exists np : Person,
    let s' := set_people (people (stored w) ++ [np]) (stored w) in
    fst (upsert_person pd src g mf w) = (Some (p_id np), true)
    /\ p_dedup np = profile_dedup pd
    /\ p_profile np = pd
    /\ (exists t, p_sources np = [ {| src_type := src; imported_at := t |} ])
    /\ attached g mf src [] (p_memberships np)
    /\ (exists t, p_performance np
                  = Some {| base_score := 0%float; events := [];
                            perf_updated_at := Some t |})
    /\ (writable w = true ->
        holds (snd (upsert_person pd src g mf w))
              (set_schema_version (Some SCHEMA_VERSION) s'))
    /\ (writable w = false ->
        disk (snd (upsert_person pd src g mf w)) = disk (snd (load_org_store w)))
    /\ writable (snd (upsert_person pd src g mf w)) = writable w.
Proof.
  intros Hfind. unfold upsert_person, profile_dedup, stored in *.
  rewrite bind_run.
  destruct (_extract_contact_from_profile pd) as [phone email].
  rewrite bind_run, bind_run, Hfind.
  set (w1 := snd (load_org_store w)).
  set (w2 := snd (upsert_name pd w1)).
  set (w3 := snd (upsert_membership src g mf w2)).
  rewrite !bind_run, ret_run.
  assert (Hq : disk w3 = disk w1 /\ writable w3 = writable w).
  { unfold w3. destruct (quiet_upsert_membership src g mf w2) as [-> ->].
    unfold w2. destruct (quiet_upsert_name pd w1) as [-> ->].
    unfold w1. by rewrite load_writable. }
  destruct Hq as [Hd Hw].
  match goal with
  | |- context [save_org_store (set_people (_ ++ [?np]) _)] => exists np
  end.
  cbn zeta. split; [reflexivity|]. simpl.
  split; [reflexivity|]. split; [reflexivity|]. split; [eauto|]. split.
  { unfold attached, upsert_membership. destruct g as [g|]; [|reflexivity].
    destruct (String.eqb g ""); [reflexivity|]. simpl. eauto. }
  split; [eauto|]. split; [|split].
  - intros Hwt. apply save_holds. simpl. by rewrite Hw.
  - intros Hwt. rewrite save_run. simpl. rewrite Hw, Hwt. exact Hd.
  - rewrite save_writable. simpl. exact Hw.
Qed.

End Upsert.

Section Merge.
Context `{PyBuiltins}.

Lemma find_by_key_Some (k : string) (ps : list Person) (i : nat) (p : Person) :
  find_by_key k ps = Some (i, p) ->
  k <> "" /\ ps !! i = Some p /\ key (p_dedup p) = k
  /\ forall j q, ps !! j = Some q -> j < i -> key (p_dedup q) <> k.
Proof.
  unfold find_by_key. destruct (String.eqb k "") eqn:E; [discriminate|].
  intros Hf. apply list_find_Some in Hf as (Hi & Hk & Hbefore).
  split; [|by eauto]. intros ->. by rewrite String.eqb_refl in E.
Qed.

(** C10. When the profile's dedup key matches a person, the document
    written back has that person at the same position with the same id,
    name, phone, e-mail, dedup key, creation time and ledger, whatever the
    incoming profile holds; every other person, the groups and the
    organisation are as they were. *)
Theorem upsert_merge_frame (pd : value) (src : string) (g : option string)
    (mf : option (gmap string value)) (w : World) (i : nat) (ep : Person) :
  find_by_key (key (profile_dedup pd)) (people (stored w)) = Some (i, ep) ->
  writable w = true ->
  exists (s' : Store) (ep' : Person),
    holds (snd (upsert_person pd src g mf w)) s'
    /\ people s' = <[i := ep']> (people (stored w))
    /\ people s' !! i = Some ep'
    /\ groups s' = groups (stored w)
    /\ org s' = org (stored w)
    /\ p_id ep' = p_id ep
    /\ p_name ep' = p_name ep
    /\ p_phone ep' = p_phone ep
    /\ p_email ep' = p_email ep
    /\ p_dedup ep' = p_dedup ep
    /\ p_created_at ep' = p_created_at ep
    /\ p_performance ep' = p_performance ep
    /\ forall j q, j <> i -> people (stored w) !! j = Some q -> people s' !! j = Some q.
Proof.
  intros Hfind Hw.
  destruct (upsert_matched pd src g mf w i ep Hfind) as (t & ti & ms' & _ & _ & Hh & _ & _).
  apply find_by_key_Some in Hfind as (_ & Hi & _).
  eexists _, _. split; [exact (Hh Hw)|]. simpl.
  split; [reflexivity|].
  split; [apply list_lookup_insert_eq; by eapply lookup_lt_Some|].
  repeat (split; [reflexivity|]).
  intros j q Hj Hq. by rewrite list_lookup_insert_ne.
Qed.

Lemma merge_profile_lookup (incoming old : gmap string value) (k : string) :
  merge_profile incoming old !! k =
    match incoming !! k with
    | Some v => if provided v then Some v else old !! k
    | None => old !! k
    end.
Proof.
  unfold merge_profile.
  apply (map_fold_weak_ind
           (fun (r : gmap string value) (m : gmap string value) =>
              r !! k = match m !! k with
                       | Some v => if provided v then Some v else old !! k
                       | None => old !! k
                       end)).
  - by rewrite lookup_empty.
  - intros j x m r Hj IH. destruct (decide (j = k)) as [->|Hne].
    + rewrite lookup_insert_eq. destruct (provided x) eqn:Ex.
      * by rewrite lookup_insert_eq.
      * rewrite IH, Hj. reflexivity.
    + rewrite (lookup_insert_ne m) by exact Hne.
      destruct (provided x); [by rewrite lookup_insert_ne|exact IH].
Qed.

(** C2. When the incoming mapping matches a person whose profile is a
    mapping, the profile written back holds, at every incoming key whose
    value is non-empty (truthy) and is not the sentinel, the incoming
    value; at every other key, absent from the payload or present with an
    empty or sentinel value, what it held before; and the sources are the
    former ones, unchanged and in order, followed by one new entry for
    this import. *)
Theorem upsert_merge_rule (incoming old : gmap string value) (src : string)
    (g : option string) (mf : option (gmap string value))
    (w : World) (i : nat) (ep : Person) :
  find_by_key (key (profile_dedup (VDict incoming))) (people (stored w)) = Some (i, ep) ->
  p_profile ep = VDict old ->
  writable w = true ->
  exists (s' : Store) (ep' : Person) (new : gmap string value),
    holds (snd (upsert_person (VDict incoming) src g mf w)) s'
    /\ people s' !! i = Some ep'
    /\ p_profile ep' = VDict new
    /\ (forall k v, incoming !! k = Some v ->
          truthy v = true -> py_eq_str v SENTINEL = false -> new !! k = Some v)
    /\ (forall k, incoming !! k = None -> new !! k = old !! k)
    /\ (forall k v, incoming !! k = Some v ->
          truthy v = false \/ py_eq_str v SENTINEL = true -> new !! k = old !! k)
    /\ exists t, p_sources ep' = p_sources ep ++ [ {| src_type := src; imported_at := t |} ].
Proof.
  intros Hfind Hold Hw.
  destruct (upsert_matched (VDict incoming) src g mf w i ep Hfind)
    as (t & ti & ms' & _ & _ & Hh & _ & _).
  apply find_by_key_Some in Hfind as (_ & Hi & _).
  eexists _, _, (merge_profile incoming old). split; [exact (Hh Hw)|]. simpl.
  split; [apply list_lookup_insert_eq; by eapply lookup_lt_Some|]. simpl.
  split; [by rewrite Hold|].
  split; [|split; [|split]].
  - intros k v Hk Ht Hs. rewrite merge_profile_lookup, Hk.
    unfold provided. by rewrite Ht, Hs.
  - intros k Hk. by rewrite merge_profile_lookup, Hk.
  - intros k v Hk Hv. rewrite merge_profile_lookup, Hk. unfold provided.
    destruct Hv as [-> | ->]; [reflexivity|]. by rewrite andb_false_r.
  - by exists ti.
Qed.

End Merge.

Lemma world_with_group_reached :
  snd (create_group "研发组" "" None fresh_world) = world_with_group.
Proof. vm_compute. reflexivity. Qed.

Lemma world_with_member_reached :
  snd (upsert_person profile_zhang "file_upload" (Some "0f0e1d2c") None world_with_group)
  = world_with_member.
Proof. vm_compute. reflexivity. Qed.

Lemma world_with_member_people : people (stored world_with_member) = [person_zhang].
Proof. vm_compute. reflexivity. Qed.

Lemma world_with_member_finds :
  find_by_key (key (profile_dedup profile_renamed)) (people (stored world_with_member))
  = Some (0, person_zhang).
Proof. vm_compute. reflexivity. Qed.

Lemma upsert_merge_frame_witness :
  exists s' ep',
    holds (snd (upsert_person profile_renamed "text_analysis" None None world_with_member)) s'
    /\ people s' = [ep']
    /\ p_name ep' = VStr "张三"
    /\ p_phone ep' = "13812345678"
    /\ p_email ep' = "".
Proof.
  destruct (upsert_merge_frame profile_renamed "text_analysis" None None
              world_with_member 0 person_zhang world_with_member_finds eq_refl)
    as (s' & ep' & Hh & Hp & _ & _ & _ & _ & Hn & Hph & Hem & _).
  exists s', ep'. split; [exact Hh|].
  rewrite world_with_member_people in Hp.
  split; [exact Hp|]. rewrite Hn, Hph, Hem. by vm_compute.
Defined.

Lemma upsert_merge_rule_witness :
  exists s' ep' new,
    holds (snd (upsert_person profile_renamed "text_analysis" None None world_with_member)) s'
    /\ people s' !! 0 = Some ep'
    /\ p_profile ep' = VDict new
    /\ new !! "姓名" = Some (VStr "李四")
    /\ new !! "邮箱" = Some (VStr "li@example.com")
    /\ new !! "教育背景" = None
    /\ length (p_sources ep') = 2.
Proof.
  destruct (upsert_merge_rule fields_renamed fields_zhang "text_analysis" None None
              world_with_member 0 person_zhang world_with_member_finds eq_refl eq_refl)
    as (s' & ep' & new & Hh & Hp & Hprof & Hset & _ & Hkeep & t & Hsrc).
  exists s', ep', new. split; [exact Hh|]. split; [exact Hp|]. split; [exact Hprof|].
  split; [apply Hset; vm_compute; reflexivity|].
  split; [apply Hset; vm_compute; reflexivity|].
  split.
  - rewrite (Hkeep "教育背景" (VStr "未提及")); [vm_compute; reflexivity| |].
    + vm_compute; reflexivity.
    + right. vm_compute; reflexivity.
  - rewrite Hsrc. reflexivity.
Defined.

(** ** Dedup convergence *)

Section Convergence.
Context `{PyBuiltins}.

Lemma profile_dedup_phone (pd : value) (phone : string) :
  _normalize_phone (fst (_extract_contact_from_profile pd)) = phone ->
  phone <> "" ->
  key (profile_dedup pd) = "phone:" +:+ phone.
Proof.
  intros Hn Hne. unfold profile_dedup.
  destruct (_extract_contact_from_profile pd) as [ph em]. simpl in Hn.
  unfold _compute_dedup_key. rewrite Hn.
  destruct (String.eqb phone "") eqn:E; [|reflexivity].
  apply String.eqb_eq in E. contradiction.
Qed.

Lemma find_by_key_None (k : string) (ps : list Person) :
  k <> "" ->
  find_by_key k ps = None <-> Forall (fun p => key (p_dedup p) <> k) ps.
Proof.
  intros Hk. unfold find_by_key.
  destruct (String.eqb k "") eqn:E; [apply String.eqb_eq in E; contradiction|].
  apply list_find_None.
Qed.

Lemma find_by_key_intro (k : string) (ps : list Person) (i : nat) (p : Person) :
  k <> "" -> ps !! i = Some p -> key (p_dedup p) = k ->
  (forall j q, ps !! j = Some q -> j < i -> key (p_dedup q) <> k) ->
  find_by_key k ps = Some (i, p).
Proof.
  intros Hk Hi Hp Hb. unfold find_by_key.
  destruct (String.eqb k "") eqn:E; [apply String.eqb_eq in E; contradiction|].
  apply list_find_Some. eauto.
Qed.

Lemma find_by_key_appended (k : string) (ps : list Person) (np : Person) :
  k <> "" -> Forall (fun p => key (p_dedup p) <> k) ps -> key (p_dedup np) = k ->
  find_by_key k (ps ++ [np]) = Some (length ps, np).
Proof.
  intros Hk Hps Hnp. apply find_by_key_intro; [done| |done|].
  - by rewrite lookup_app_r, Nat.sub_diag.
  - intros j q Hj Hlt. rewrite lookup_app_l in Hj by exact Hlt.
    rewrite Forall_forall in Hps. apply Hps. eapply list_elem_of_lookup_2, Hj.
Qed.

Lemma find_by_key_replaced (k : string) (ps : list Person) (i : nat) (p p' : Person) :
  find_by_key k ps = Some (i, p) -> key (p_dedup p') = k ->
  find_by_key k (<[i := p']> ps) = Some (i, p').
Proof.
  intros Hf Hp'. apply find_by_key_Some in Hf as (Hk & Hi & _ & Hb).
  apply find_by_key_intro; [done| |done|].
  - apply list_lookup_insert_eq. by eapply lookup_lt_Some.
  - intros j q Hj Hlt. rewrite list_lookup_insert_ne in Hj by lia. by eapply Hb.
Qed.

Lemma filter_key_appended (k : string) (ps : list Person) (np : Person) :
  Forall (fun p => key (p_dedup p) <> k) ps -> key (p_dedup np) = k ->
  filter (has_key k) (ps ++ [np]) = [np].
Proof.
  intros Hps Hnp. rewrite filter_app.
  assert (Hnil : filter (has_key k) ps = []).
  { induction Hps as [|q ps Hq _ IH]; [reflexivity|].
    rewrite filter_cons, decide_False by exact Hq. exact IH. }
  rewrite Hnil. simpl. rewrite filter_cons, decide_True by exact Hnp. reflexivity.
Qed.

Lemma insert_appended {A} (l : list A) (x y : A) :
  <[length l := y]> (l ++ [x]) = l ++ [y].
Proof.
  rewrite insert_app_r_alt by lia. by rewrite Nat.sub_diag.
Qed.

(** C1, as amended. Two profiles whose extracted phones normalise to the
    same non-empty text, upserted one after the other with the writes
    succeeding: both calls return the same person id and the second returns
    [isNew = false], on every store. The first returns [isNew = true]
    exactly when no person of the store had that dedup key before, and the
    document then holds exactly one person with it, the one whose id was
    returned. *)
Theorem upsert_dedup_convergence (p1 p2 : value) (src1 src2 : string)
    (g1 g2 : option string) (mf1 mf2 : option (gmap string value))
    (w : World) (phone : string) :
  writable w = true ->
  _normalize_phone (fst (_extract_contact_from_profile p1)) = phone ->
  _normalize_phone (fst (_extract_contact_from_profile p2)) = phone ->
  phone <> "" ->
  let k := "phone:" +:+ phone in
  let r1 := upsert_person p1 src1 g1 mf1 w in
  let r2 := upsert_person p2 src2 g2 mf2 (snd r1) in
  (exists pid, fst (fst r1) = Some pid /\ fst (fst r2) = Some pid)
  /\ snd (fst r2) = false
  /\ (Forall (fun p => key (p_dedup p) <> k) (people (stored w)) ->
      snd (fst r1) = true
      /\ exists s2 p, holds (snd r2) s2
                      /\ filter (has_key k) (people s2) = [p]
                      /\ fst (fst r1) = Some (p_id p))
  /\ (Exists (has_key k) (people (stored w)) -> snd (fst r1) = false).
Proof.
  intros Hw Hn1 Hn2 Hne k r1 r2.
  assert (Hk : k <> "") by done.
  assert (Hk1 : key (profile_dedup p1) = k) by by apply profile_dedup_phone.
  assert (Hk2 : key (profile_dedup p2) = k) by by apply profile_dedup_phone.
  destruct (find_by_key k (people (stored w))) as [[i ep]|] eqn:Hfind.
  - (* the store already holds the key *)
    pose proof Hfind as Hfind0. rewrite <- Hk1 in Hfind.
    destruct (upsert_matched p1 src1 g1 mf1 w i ep Hfind)
      as (t & ti & ms' & Hr1 & _ & Hh1 & _ & Hw1).
    fold r1 in Hr1, Hh1, Hw1. specialize (Hh1 Hw). cbn zeta in Hh1.
    set (ep' := set_memberships ms' _) in Hh1.
    assert (Hfind2 : find_by_key (key (profile_dedup p2)) (people (stored (snd r1)))
                     = Some (i, ep')).
    { rewrite (stored_holds _ _ Hh1), Hk2. simpl.
      eapply find_by_key_replaced; [exact Hfind0|].
      by apply find_by_key_Some in Hfind0 as (_ & _ & ? & _). }
    destruct (upsert_matched p2 src2 g2 mf2 (snd r1) i ep' Hfind2)
      as (t2 & ti2 & ms2 & Hr2 & _).
    fold r2 in Hr2. rewrite Hr1, Hr2. simpl.
    split; [by exists (p_id ep)|]. split; [reflexivity|]. split; [|done].
    intros Hnone. apply find_by_key_None in Hnone; [|exact Hk]. congruence.
  - (* no person holds the key yet *)
    pose proof Hfind as Hfind0. rewrite <- Hk1 in Hfind.
    destruct (upsert_created p1 src1 g1 mf1 w Hfind)
      as (np & Hr1 & Hd & _ & _ & _ & _ & Hh1 & _ & Hw1).
    fold r1 in Hr1, Hh1, Hw1. specialize (Hh1 Hw). cbn zeta in Hh1.
    apply find_by_key_None in Hfind0; [|exact Hk].
    assert (Hnp : key (p_dedup np) = k) by by rewrite Hd.
    assert (Hfind2 : find_by_key (key (profile_dedup p2)) (people (stored (snd r1)))
                     = Some (length (people (stored w)), np)).
    { rewrite (stored_holds _ _ Hh1), Hk2. simpl. by apply find_by_key_appended. }
    destruct (upsert_matched p2 src2 g2 mf2 (snd r1) _ np Hfind2)
      as (t2 & ti2 & ms2 & Hr2 & _ & Hh2 & _).
    fold r2 in Hr2, Hh2. rewrite Hw1 in Hh2. specialize (Hh2 Hw). cbn zeta in Hh2.
    rewrite Hr1, Hr2. simpl.
    split; [by exists (p_id np)|]. split; [reflexivity|]. split.
    + intros _. split; [reflexivity|].
      eexists _, _. split; [exact Hh2|]. simpl.
      rewrite (stored_holds _ _ Hh1). simpl. rewrite insert_appended.
      split; [by apply filter_key_appended|reflexivity].
    + intros Hex. apply Exists_exists in Hex as (q & Hq & Hkq).
      rewrite Forall_forall in Hfind0. by apply Hfind0 in Hq.
Qed.

End Convergence.

Lemma upsert_dedup_convergence_witness :
  fst (upsert_person profile_zhang "file_upload" None None fresh_world)
  = (Some "0f0e1d2c", true)
  /\ fst (upsert_person profile_zhang_later "text_analysis" None None
            (snd (upsert_person profile_zhang "file_upload" None None fresh_world)))
     = (Some "0f0e1d2c", false).
Proof.
  destruct (upsert_dedup_convergence profile_zhang profile_zhang_later
              "file_upload" "text_analysis" None None None None
              fresh_world "13812345678")
    as ((pid & H1 & H2) & Hnew2 & Hfirst & _).
  - reflexivity.
  - vm_compute. reflexivity.
  - vm_compute. reflexivity.
  - discriminate.
  - cbn zeta in *. destruct Hfirst as (Hnew1 & _).
    { vm_compute. apply Forall_nil_2. }
    assert (Hpid : pid = "0f0e1d2c").
    { assert (Hc : fst (fst (upsert_person profile_zhang "file_upload" None None fresh_world))
                   = Some "0f0e1d2c") by (vm_compute; reflexivity).
      rewrite H1 in Hc. by injection Hc. }
    subst pid. split.
    + destruct (upsert_person profile_zhang "file_upload" None None fresh_world) as [[a b] w1].
      simpl in *. by subst.
    + destruct (upsert_person profile_zhang_later _ _ _ _) as [[a b] w2].
      simpl in *. by subst.
Defined.

(** C1, the claim as stated fails: on a store that already holds a person
    with the dedup key, the first call returns [isNew = false]. *)
Lemma upsert_existing_not_new :
  _normalize_phone (fst (_extract_contact_from_profile profile_renamed)) = "13812345678"
  /\ _normalize_phone (fst (_extract_contact_from_profile profile_zhang_later))
     = "13812345678"
  /\ fst (upsert_person profile_renamed "text_analysis" None None world_with_member)
     = (Some "1f0e1d2c", false)
  /\ fst (upsert_person profile_zhang_later "pdf_import" None None
            (snd (upsert_person profile_renamed "text_analysis" None None
                    world_with_member)))
     = (Some "1f0e1d2c", false).
Proof. repeat split; vm_compute; reflexivity. Qed.

(** ** Lists with unique keys *)

Section UniqueLists.

Lemma fmap_insert_same {A B} (f : A -> B) (l : list A) (i : nat) (x y : A) :
  l !! i = Some x -> f y = f x -> f <$> <[i := y]> l = f <$> l.
Proof.
  intros Hi Hf. rewrite list_fmap_insert, Hf. apply list_insert_id.
  by rewrite list_lookup_fmap, Hi.
Qed.

Lemma filter_none {A} (P : A -> Prop) `{!forall x, Decision (P x)} (l : list A) :
  Forall (fun x => ~ P x) l -> filter P l = [].
Proof.
  induction 1 as [|x l Hx _ IH]; [reflexivity|].
  by rewrite filter_cons, decide_False.
Qed.

Lemma filter_nil_none {A} (P : A -> Prop) `{!forall x, Decision (P x)} (l : list A) :
  filter P l = [] -> Forall (fun x => ~ P x) l.
Proof.
  induction l as [|x l IH]; [constructor|].
  rewrite filter_cons. destruct (decide (P x)); [discriminate|].
  intros Hl. constructor; auto.
Qed.

(** In a list whose images under [f] are pairwise distinct, the elements
    with the image of [x] are [x] alone. *)
Lemma NoDup_filter_one {A B} `{!EqDecision B} (f : A -> B) (l : list A) (x : A) :
  NoDup (f <$> l) -> x ∈ l -> filter (fun y => f y = f x) l = [x].
Proof.
  induction l as [|y l IH]; intros Hnd Hx; [by apply elem_of_nil in Hx|].
  rewrite fmap_cons in Hnd. apply NoDup_cons in Hnd as [Hy Hnd].
  rewrite filter_cons. destruct (decide (f y = f x)) as [Heq|Hne].
  - assert (Hrest : filter (fun z => f z = f x) l = []).
    { apply filter_none, Forall_forall. intros z Hz Hfz.
      apply Hy. rewrite Heq, <- Hfz. by apply list_elem_of_fmap_2. }
    rewrite Hrest. apply elem_of_cons in Hx as [->|Hx]; [reflexivity|].
    exfalso. apply Hy. rewrite Heq. by apply list_elem_of_fmap_2.
  - apply elem_of_cons in Hx as [->|Hx]; [done|]. by apply IH.
Qed.

Lemma NoDup_fmap_snoc {A B} (f : A -> B) (l : list A) (x : A) :
  NoDup (f <$> l) -> Forall (fun y => f y <> f x) l -> NoDup (f <$> l ++ [x]).
Proof.
  intros Hnd Hx. rewrite fmap_app. apply NoDup_app. split; [exact Hnd|]. split.
  - intros b Hb Hbx. apply list_elem_of_singleton in Hbx as ->.
    apply list_elem_of_fmap in Hb as (y & Hy & Hin).
    rewrite Forall_forall in Hx. by eapply Hx.
  - apply NoDup_singleton.
Qed.

Lemma NoDup_fmap_filter {A B} (f : A -> B) (P : A -> Prop)
    `{!forall x, Decision (P x)} (l : list A) :
  NoDup (f <$> l) -> NoDup (f <$> filter P l).
Proof.
  induction l as [|x l IH]; intros Hnd; [constructor|].
  rewrite fmap_cons in Hnd. apply NoDup_cons in Hnd as [Hx Hnd].
  rewrite filter_cons. destruct (decide (P x)); [|by apply IH].
  rewrite fmap_cons. apply NoDup_cons. split; [|by apply IH].
  intros Hin. apply Hx. apply list_elem_of_fmap in Hin as (y & -> & Hy).
  apply list_elem_of_filter in Hy as [_ Hy]. by apply list_elem_of_fmap_2.
Qed.

End UniqueLists.

(** ** Version 1 migration *)

Section Migration.
Context `{PyBuiltins}.

Lemma keys_unique_appended (ps : list Person) (np : Person) (s : Store) :
  keys_unique (set_people ps s) ->
  (person_key np <> "" -> Forall (fun p => person_key p <> person_key np) ps) ->
  keys_unique (set_people (ps ++ [np]) s).
Proof.
  unfold keys_unique. simpl. intros Hnd Hnew.
  rewrite fmap_app, filter_app. simpl. rewrite filter_cons.
  destruct (decide (person_key np <> "")) as [Hne|_];
    [|rewrite filter_nil, app_nil_r; exact Hnd].
  rewrite filter_nil. apply NoDup_app. split; [exact Hnd|]. split; [|apply NoDup_singleton].
  intros k Hk Hk'. apply list_elem_of_singleton in Hk' as ->.
  apply list_elem_of_filter in Hk as [_ Hk].
  apply list_elem_of_fmap in Hk as (p & Hp & Hin).
  specialize (Hnew Hne). rewrite Forall_forall in Hnew. by eapply Hnew.
Qed.

Lemma keys_unique_replaced (ps : list Person) (i : nat) (p p' : Person) (s : Store) :
  keys_unique (set_people ps s) -> ps !! i = Some p -> person_key p' = person_key p ->
  keys_unique (set_people (<[i := p']> ps) s).
Proof.
  unfold keys_unique. simpl. intros Hnd Hi Hk.
  by rewrite (fmap_insert_same person_key ps i p p').
Qed.

Lemma memberships_unique_replaced (ps : list Person) (i : nat) (p' : Person) (s : Store) :
  memberships_unique (set_people ps s) -> NoDup (group_ids p') ->
  memberships_unique (set_people (<[i := p']> ps) s).
Proof. unfold memberships_unique. simpl. intros Hps Hp'. by apply Forall_insert. Qed.

Lemma memberships_unique_appended (ps : list Person) (np : Person) (s : Store) :
  memberships_unique (set_people ps s) -> NoDup (group_ids np) ->
  memberships_unique (set_people (ps ++ [np]) s).
Proof.
  unfold memberships_unique. simpl. intros Hps Hp'.
  apply Forall_app. split; [exact Hps|]. by constructor.
Qed.

Lemma set_people_same (s : Store) : set_people (people s) s = s.
Proof. by destruct s. Qed.

(** One legacy member migrated into group [gid]: the groups stay, both
    uniqueness invariants are kept, whatever was covered stays covered, and
    a member with a non-empty key is covered in [gid]. *)
Lemma migrate_member_spec (s : Store) (m : OldMember) (gid : string) (w : World) :
  let s' := fst (_migrate_member_to_store s m gid w) in
  groups s' = groups s
  /\ (keys_unique s -> keys_unique s')
  /\ (memberships_unique s -> memberships_unique s')
  /\ (forall k g, covers s k g -> covers s' k g)
  /\ (member_key m <> "" -> covers s' (member_key m) gid)
  /\ (forall p', p' ∈ people s' -> forall g, g ∈ group_ids p' ->
        g = gid \/ exists p, p ∈ people s /\ g ∈ group_ids p).
Proof.
  unfold _migrate_member_to_store, member_key, profile_dedup.
  destruct (_extract_contact_from_profile _) as [phone email].
  set (dedup := _compute_dedup_key phone email).
  rewrite !bind_run.
  set (membership := {| ms_group_id := gid |}).
  destruct (find_by_key (key dedup) (people s)) as [[i ep]|] eqn:Hfind.
  - (* an existing person with the key *)
    apply find_by_key_Some in Hfind as (Hk & Hi & Hkey & _).
    rewrite bind_run, ret_run. cbn [fst].
    set (ms := match filter (in_group gid) (p_memberships ep) with
               | [] => p_memberships ep ++ [membership]
               | _ :: _ => p_memberships ep
               end).
    set (ep' := set_p_updated_at _ (set_memberships ms ep)).
    assert (Hin : ep ∈ people s) by (eapply list_elem_of_lookup_2; exact Hi).
    assert (Hsub : forall g, g ∈ group_ids ep -> g ∈ group_ids ep').
    { intros g Hg. unfold group_ids, ep', ms in *. simpl.
      destruct (filter _ _); [|exact Hg].
      rewrite fmap_app. apply elem_of_app. by left. }
    assert (Hgid : gid ∈ group_ids ep').
    { unfold group_ids, ep', ms. simpl.
      destruct (filter (in_group gid) (p_memberships ep)) as [|m0 l] eqn:Hf.
      - rewrite fmap_app. apply elem_of_app. right. simpl. by left.
      - assert (Hm0 : m0 ∈ filter (in_group gid) (p_memberships ep))
          by (rewrite Hf; by left).
        apply list_elem_of_filter in Hm0 as [Hg0 Hm0].
        rewrite <- Hg0. by apply list_elem_of_fmap_2. }
    assert (Hback : forall g, g ∈ group_ids ep' -> g = gid \/ g ∈ group_ids ep).
    { intros g Hg. unfold group_ids, ep', ms in *. simpl in Hg.
      destruct (filter _ _); [|by right].
      rewrite fmap_app in Hg. apply elem_of_app in Hg as [Hg|Hg]; [by right|].
      left. simpl in Hg. by apply list_elem_of_singleton in Hg. }
    split; [reflexivity|]. split; [|split; [|split; [|split]]].
    + intros Hu. eapply keys_unique_replaced; [by rewrite set_people_same|exact Hi|done].
    + intros Hu. apply memberships_unique_replaced; [by rewrite set_people_same|].
      unfold memberships_unique in Hu. rewrite Forall_forall in Hu.
      specialize (Hu ep Hin). unfold group_ids, ep', ms in *. simpl.
      destruct (filter (in_group gid) (p_memberships ep)) eqn:Hf; [|exact Hu].
      apply (NoDup_fmap_snoc ms_group_id); [exact Hu|].
      apply filter_nil_none in Hf. eapply Forall_impl; [exact Hf|].
      intros m0 Hm0. exact Hm0.
    + intros k g (p & Hp & Hpk & Hpg). simpl.
      apply list_elem_of_lookup in Hp as [j Hj].
      destruct (decide (j = i)) as [->|Hne].
      * rewrite Hi in Hj. injection Hj as <-.
        exists ep'. split; [|split; [exact Hpk|by apply Hsub]].
        eapply list_elem_of_lookup_2. apply list_lookup_insert_eq.
        by eapply lookup_lt_Some.
      * exists p. split; [|done]. apply (list_elem_of_lookup_2 _ j). simpl.
        rewrite list_lookup_insert_ne by done. exact Hj.
    + intros _. exists ep'. split; [|split; [exact Hkey|exact Hgid]].
      eapply list_elem_of_lookup_2. apply list_lookup_insert_eq.
      by eapply lookup_lt_Some.
    + intros p' Hp' g Hg. simpl in Hp'.
      apply list_elem_of_lookup in Hp' as [j Hj].
      destruct (decide (j = i)) as [->|Hne].
      * rewrite list_lookup_insert_eq in Hj by (by eapply lookup_lt_Some).
        injection Hj as <-. destruct (Hback g Hg) as [->|Hg']; [by left|].
        right. by exists ep.
      * rewrite list_lookup_insert_ne in Hj by done. right. exists p'.
        split; [by eapply list_elem_of_lookup_2|done].
  - (* no person with the key: a new person *)
    rewrite !bind_run, ret_run. cbn [fst].
    set (np := {| p_dedup := dedup |}).
    split; [reflexivity|]. split; [|split; [|split; [|split]]].
    + intros Hu. apply keys_unique_appended; [by rewrite set_people_same|].
      intros Hne. apply find_by_key_None in Hfind; [exact Hfind|exact Hne].
    + intros Hu. apply memberships_unique_appended; [by rewrite set_people_same|].
      unfold group_ids, np. simpl. apply NoDup_singleton.
    + intros k g (p & Hp & Hpk & Hpg). exists p. split; [|done].
      simpl. apply elem_of_app. by left.
    + intros _. exists np. split; [|split; [reflexivity|]].
      * simpl. apply elem_of_app. right. by left.
      * unfold group_ids, np. simpl. by left.
    + intros p' Hp' g Hg. simpl in Hp'. apply elem_of_app in Hp' as [Hp'|Hp'].
      * right. by exists p'.
      * apply list_elem_of_singleton in Hp' as ->. left.
        unfold group_ids, np in Hg. simpl in Hg. by apply list_elem_of_singleton in Hg.
Qed.

Lemma migrate_members_spec (gid : string) (ms : list OldMember) :
  forall (s : Store) (w : World),
    let s' := fst (foldM (fun s m => _migrate_member_to_store s m gid) ms s w) in
    groups s' = groups s
    /\ (keys_unique s -> keys_unique s')
    /\ (memberships_unique s -> memberships_unique s')
    /\ (forall k g, covers s k g -> covers s' k g)
    /\ (forall m, m ∈ ms -> member_key m <> "" -> covers s' (member_key m) gid)
    /\ (forall p', p' ∈ people s' -> forall g, g ∈ group_ids p' ->
          g = gid \/ exists p, p ∈ people s /\ g ∈ group_ids p).
Proof.
  induction ms as [|m ms IH]; intros s w; cbn zeta.
  - simpl. split; [done|]. split; [done|]. split; [done|]. split; [done|].
    split; [intros m Hm; by apply elem_of_nil in Hm|].
    intros p' Hp' g Hg. right. by exists p'.
  - simpl. rewrite bind_run.
    destruct (migrate_member_spec s m gid w) as (Hg1 & Hk1 & Hm1 & Hc1 & Hn1 & Ho1).
    destruct (IH (fst (_migrate_member_to_store s m gid w))
                 (snd (_migrate_member_to_store s m gid w)))
      as (Hg2 & Hk2 & Hm2 & Hc2 & Hn2 & Ho2).
    cbn zeta in *.
    split; [by rewrite Hg2|]. split; [by auto|]. split; [by auto|].
    split; [by auto|]. split.
    + intros m' Hm' Hne. apply elem_of_cons in Hm' as [->|Hm']; [|by apply Hn2].
      apply Hc2. by apply Hn1.
    + intros p' Hp' g Hg. destruct (Ho2 p' Hp' g Hg) as [->|(p & Hp & Hpg)]; [by left|].
      by apply (Ho1 p Hp g).
Qed.

(** One legacy team migrated: one group is appended, with the team's id
    when it has one, and every member with a non-empty key is covered in
    that group. *)
Lemma migrate_team_spec (s : Store) (t : OldTeam) (w : World) :
  let s' := fst (migrate_team s t w) in
  (exists grp, groups s' = groups s ++ [grp]
               /\ (forall id, ot_id t = Some id -> g_id grp = id)
               /\ (forall m, m ∈ default [] (ot_members t) -> member_key m <> "" ->
                      covers s' (member_key m) (g_id grp)))
  /\ (keys_unique s -> keys_unique s')
  /\ (memberships_unique s -> memberships_unique s')
  /\ (forall k g, covers s k g -> covers s' k g).
Proof.
  unfold migrate_team. rewrite !bind_run.
  set (gid := default _ (ot_id t)).
  set (grp := {| g_id := gid |}).
  set (s0 := set_groups (groups s ++ [grp]) s).
  match goal with
  | |- context [foldM ?f ?l s0 ?w0] =>
    destruct (migrate_members_spec gid l s0 w0) as (Hg & Hk & Hm & Hc & Hn & _)
  end.
  cbn zeta in *. split; [|by auto].
  exists grp. split; [exact Hg|]. split; [|exact Hn].
  intros id Hid. unfold grp, gid. simpl. by rewrite Hid.
Qed.

Lemma migrate_teams_spec (teams : list OldTeam) :
  forall (s : Store) (w : World),
    let s' := fst (foldM migrate_team teams s w) in
    (exists gs, groups s' = groups s ++ gs
                /\ length gs = length teams
                /\ forall a ta ga, teams !! a = Some ta -> gs !! a = Some ga ->
                      (forall id, ot_id ta = Some id -> g_id ga = id)
                      /\ (forall m, m ∈ default [] (ot_members ta) -> member_key m <> "" ->
                             covers s' (member_key m) (g_id ga)))
    /\ (keys_unique s -> keys_unique s')
    /\ (memberships_unique s -> memberships_unique s')
    /\ (forall k g, covers s k g -> covers s' k g).
Proof.
  induction teams as [|t teams IH]; intros s w; cbn zeta.
  - simpl. split; [|done]. exists []. rewrite app_nil_r. split; [done|].
    split; [done|]. intros a ta ga Hta. by rewrite lookup_nil in Hta.
  - simpl. rewrite bind_run.
    destruct (migrate_team_spec s t w) as ((grp & Hg1 & Hid1 & Hn1) & Hk1 & Hm1 & Hc1).
    destruct (IH (fst (migrate_team s t w)) (snd (migrate_team s t w)))
      as ((gs & Hg2 & Hlen & Hteams) & Hk2 & Hm2 & Hc2).
    cbn zeta in *. split; [|by auto].
    exists (grp :: gs). split; [by rewrite Hg2, Hg1, <- app_assoc|].
    split; [simpl; by rewrite Hlen|].
    intros [|a] ta ga Hta Hga; simpl in Hta, Hga.
    + injection Hta as <-. injection Hga as <-. split; [exact Hid1|].
      intros m Hm Hne. apply Hc2. by apply Hn1.
    + exact (Hteams a ta ga Hta Hga).
Qed.

(** [ensure_performance] on every person changes ledgers only. *)
Lemma forM_ensure_spec (ps : list Person) :
  forall w, Forall2 (fun p p' => exists perf, p' = set_performance perf p)
              ps (fst (forM ensure_performance ps w)).
Proof.
  induction ps as [|p ps IH]; intros w; simpl; [constructor|].
  rewrite !bind_run, ret_run. simpl. constructor; [|apply IH].
  unfold ensure_performance. rewrite bind_run, ret_run. simpl. eauto.
Qed.

Lemma migrate_v2_to_v3_spec (s : Store) (w : World) :
  let s' := fst (_migrate_v2_to_v3 s w) in
  groups s' = groups s
  /\ person_key <$> people s' = person_key <$> people s
  /\ group_ids <$> people s' = group_ids <$> people s
  /\ p_id <$> people s' = p_id <$> people s
  /\ (forall k g, covers s k g -> covers s' k g).
Proof.
  unfold _migrate_v2_to_v3. rewrite bind_run, ret_run. simpl.
  pose proof (forM_ensure_spec (people s) w) as HF.
  set (ps' := fst (forM ensure_performance (people s) w)) in *.
  assert (Hmap : forall {B} (f : Person -> B),
             (forall perf p, f (set_performance perf p) = f p) ->
             f <$> ps' = f <$> people s).
  { intros B f Hf. induction HF as [|p p' l l' (perf & ->) _ IH]; [reflexivity|].
    rewrite !fmap_cons, Hf. by f_equal. }
  split; [reflexivity|]. split; [by apply Hmap|]. split; [by apply Hmap|].
  split; [by apply Hmap|].
  intros k g (p & Hp & Hk & Hg).
  apply list_elem_of_lookup in Hp as [i Hi].
  destruct (Forall2_lookup_l _ _ _ _ _ HF Hi) as (p' & Hi' & perf & ->).
  exists (set_performance perf p). split; [by eapply list_elem_of_lookup_2|done].
Qed.

Lemma filter_fmap_comm {A B} (f : A -> B) (P : B -> Prop)
    `{!forall b, Decision (P b)} (l : list A) :
  filter P (f <$> l) = f <$> filter (fun x => P (f x)) l.
Proof.
  induction l as [|x l IH]; [reflexivity|].
  rewrite fmap_cons, !filter_cons. destruct (decide (P (f x))); by rewrite IH.
Qed.

Lemma filter_key_nonempty (k : string) (ps : list Person) :
  k <> "" ->
  filter (has_key k) ps = filter (has_key k) (filter (fun p => person_key p <> "") ps).
Proof.
  intros Hk. induction ps as [|p ps IH]; [reflexivity|].
  rewrite !filter_cons. destruct (decide (has_key k p)) as [Hp|Hp].
  - rewrite decide_True by (unfold person_key; rewrite Hp; exact Hk).
    rewrite filter_cons, decide_True by exact Hp. by rewrite IH.
  - destruct (decide (person_key p <> "")); [|exact IH].
    rewrite filter_cons, decide_False by exact Hp. exact IH.
Qed.

(** With unique keys, the people holding a non-empty key that someone
    holds are that one person. *)
Lemma keys_unique_one (s : Store) (p : Person) :
  keys_unique s -> p ∈ people s -> person_key p <> "" ->
  filter (has_key (person_key p)) (people s) = [p].
Proof.
  unfold keys_unique. intros Hnd Hp Hne.
  rewrite filter_fmap_comm in Hnd.
  rewrite filter_key_nonempty by exact Hne.
  apply (NoDup_filter_one person_key); [exact Hnd|].
  apply list_elem_of_filter. by split.
Qed.

Lemma membership_one (p : Person) (g : string) :
  NoDup (group_ids p) -> g ∈ group_ids p ->
  length (filter (in_group g) (p_memberships p)) = 1.
Proof.
  unfold group_ids. intros Hnd Hg.
  apply list_elem_of_fmap in Hg as (m & -> & Hm).
  pose proof (NoDup_filter_one ms_group_id _ m Hnd Hm) as Hf.
  transitivity (length [m]); [|reflexivity]. f_equal. exact Hf.
Qed.

Lemma create_empty_spec (w : World) :
  groups (fst (_create_empty_org_store w)) = []
  /\ people (fst (_create_empty_org_store w)) = [].
Proof. by split. Qed.

Lemma migrate_from_v1_teams (first_item : OldTeam) (others : list OldTeam)
    (ms0 : list OldMember) (w : World) :
  ot_members first_item = Some ms0 ->
  _migrate_from_v1 (PTeams (first_item :: others)) w
  = foldM migrate_team (first_item :: others)
      (fst (_create_empty_org_store w)) (snd (_create_empty_org_store w)).
Proof.
  intros Hms. unfold _migrate_from_v1. rewrite bind_run, Hms. reflexivity.
Qed.

(** C9. A version 1 payload of teams is migrated by [load_org_store] into
    a store with one group per team, in order and under the team's id when
    it has one. Dedup keys are recomputed from the embedded profiles: no
    two people share a non-empty key and no person has two memberships of
    one group. Two legacy members, of whichever teams, whose recomputed
    keys are equal and non-empty are one person, and that person has
    exactly one membership of each of the two teams' groups. *)
Theorem migration_merges_collisions (w : World) (teams : list OldTeam)
    (first_item : OldTeam) (others : list OldTeam) :
  disk w = Some (PTeams teams) ->
  teams = first_item :: others ->
  is_Some (ot_members first_item) ->
  let s := stored w in
  keys_unique s
  /\ memberships_unique s
  /\ length (groups s) = length teams
  /\ (forall a ta ga id,
        teams !! a = Some ta -> groups s !! a = Some ga -> ot_id ta = Some id ->
        g_id ga = id)
  /\ forall a b ta tb ga gb ma mb,
       teams !! a = Some ta -> teams !! b = Some tb ->
       groups s !! a = Some ga -> groups s !! b = Some gb ->
       ma ∈ default [] (ot_members ta) -> mb ∈ default [] (ot_members tb) ->
       member_key ma = member_key mb -> member_key ma <> "" ->
       exists p,
         filter (has_key (member_key ma)) (people s) = [p]
         /\ length (filter (in_group (g_id ga)) (p_memberships p)) = 1
         /\ length (filter (in_group (g_id gb)) (p_memberships p)) = 1.
Proof.
  intros Hd -> [ms0 Hms0]. cbn zeta.
  unfold stored, load_org_store. rewrite Hd.
  rewrite !bind_run, ret_run. cbn [fst].
  rewrite (migrate_from_v1_teams first_item others ms0 w Hms0).
  set (w0 := snd (_create_empty_org_store w)).
  set (s0 := fst (_create_empty_org_store w)).
  destruct (migrate_teams_spec (first_item :: others) s0 w0)
    as ((gs & Hgs & Hlen & Hteams) & Hk & Hm & _).
  cbn zeta in *.
  set (s1 := fst (foldM migrate_team (first_item :: others) s0 w0)) in *.
  match goal with
  | |- context [_migrate_v2_to_v3 s1 ?w1] =>
    destruct (migrate_v2_to_v3_spec s1 w1) as (Hg3 & Hk3 & Hm3 & _ & Hc3);
    set (s2 := fst (_migrate_v2_to_v3 s1 w1)) in *
  end.
  cbn zeta in *.
  assert (Hgs1 : groups s1 = gs) by (rewrite Hgs; reflexivity).
  assert (Hku : keys_unique s2).
  { unfold keys_unique. rewrite Hk3. apply Hk. unfold keys_unique. simpl. constructor. }
  assert (Hmu : memberships_unique s2).
  { unfold memberships_unique.
    apply (Forall_fmap group_ids (fun l => NoDup l)). rewrite Hm3.
    apply Forall_fmap. apply Hm. constructor. }
  split; [exact Hku|]. split; [exact Hmu|].
  split; [by rewrite Hg3, Hgs1|]. split.
  { intros a ta ga id Hta Hga Hid. rewrite Hg3, Hgs1 in Hga.
    by apply (proj1 (Hteams a ta ga Hta Hga)). }
  intros a b ta tb ga gb ma mb Hta Htb Hga Hgb Hma Hmb Heq Hne.
  rewrite Hg3, Hgs1 in Hga, Hgb.
  destruct (Hteams a ta ga Hta Hga) as [_ Hca].
  destruct (Hteams b tb gb Htb Hgb) as [_ Hcb].
  assert (Hca' : covers s2 (member_key ma) (g_id ga))
    by (apply Hc3, Hca; [exact Hma|exact Hne]).
  assert (Hcb' : covers s2 (member_key mb) (g_id gb))
    by (apply Hc3, Hcb; [exact Hmb|by rewrite <- Heq]).
  destruct Hca' as (p & Hp & Hpk & Hpa).
  destruct Hcb' as (q & Hq & Hqk & Hqb).
  assert (Hone : filter (has_key (member_key ma)) (people s2) = [p]).
  { rewrite <- Hpk. apply keys_unique_one; [exact Hku|exact Hp|by rewrite Hpk]. }
  assert (Hqp : q = p).
  { assert (Hqin : q ∈ filter (has_key (member_key ma)) (people s2)).
    { apply list_elem_of_filter. split; [|exact Hq].
      unfold has_key. unfold person_key in Hqk. by rewrite Hqk, Heq. }
    rewrite Hone in Hqin. by apply list_elem_of_singleton in Hqin. }
  subst q. exists p. split; [exact Hone|].
  unfold memberships_unique in Hmu. rewrite Forall_forall in Hmu.
  split; apply membership_one; auto.
Qed.

End Migration.

Lemma legacy_groups_stored : groups (stored legacy_world) = legacy_groups.
Proof. vm_compute. reflexivity. Qed.

Lemma migration_merges_collisions_witness :
  exists p,
    filter (has_key "phone:13812345678") (people (stored legacy_world)) = [p]
    /\ length (filter (in_group "t1") (p_memberships p)) = 1
    /\ length (filter (in_group "t2") (p_memberships p)) = 1.
Proof.
  destruct (migration_merges_collisions legacy_world
              [legacy_team_a; legacy_team_b] legacy_team_a [legacy_team_b]
              eq_refl eq_refl (ex_intro _ [legacy_member_a] eq_refl))
    as (_ & _ & _ & _ & Hmerge).
  destruct (legacy_groups !! 0) as [ga|] eqn:Hga; [|discriminate].
  destruct (legacy_groups !! 1) as [gb|] eqn:Hgb; [|discriminate].
  assert (Hida : g_id ga = "t1") by (vm_compute in Hga; by injection Hga as <-).
  assert (Hidb : g_id gb = "t2") by (vm_compute in Hgb; by injection Hgb as <-).
  rewrite <- legacy_groups_stored in Hga, Hgb.
  destruct (Hmerge 0 1 legacy_team_a legacy_team_b ga gb legacy_member_a legacy_member_b
              eq_refl eq_refl Hga Hgb) as (p & Hp & Ha & Hb).
  - simpl. by left.
  - simpl. by left.
  - vm_compute. reflexivity.
  - vm_compute. discriminate.
  - exists p. rewrite Hida in Ha. rewrite Hidb in Hb.
    split; [|by split].
    assert (Hk : member_key legacy_member_a = "phone:13812345678")
      by (vm_compute; reflexivity).
    by rewrite Hk in Hp.
Defined.

(** ** Invariants across the operations *)

Section Keeps.
Context (P : Store -> Prop).

Lemma keeps_quiet {A} (m : M A) : quiet m -> keeps P m.
Proof. intros Hq w. left. apply Hq. Qed.

Lemma keeps_ret {A} (a : A) : keeps P (mret a : M A).
Proof. apply keeps_quiet, quiet_ret. Qed.

Lemma keeps_bind {A B} (m : M A) (f : A -> M B) :
  keeps P m -> (forall a, keeps P (f a)) -> keeps P (x ← m; f x).
Proof.
  intros Hm Hf w. rewrite bind_run.
  destruct (Hf (fst (m w)) (snd (m w))) as [->|Hs]; [apply Hm|by right].
Qed.

Lemma keeps_bind_post {A B} (Q : A -> Prop) (m : M A) (f : A -> M B) :
  quiet m -> (forall w, Q (fst (m w))) -> (forall a, Q a -> keeps P (f a)) ->
  keeps P (x ← m; f x).
Proof.
  intros Hm HQ Hf w. rewrite bind_run.
  destruct (Hf (fst (m w)) (HQ w) (snd (m w))) as [->|Hs]; [|by right].
  left. apply Hm.
Qed.

Lemma keeps_save (s : Store) :
  P (set_schema_version (Some SCHEMA_VERSION) s) -> keeps P (save_org_store s).
Proof.
  intros Hs w. rewrite save_run. destruct (writable w); [|by left].
  right. eexists. split; [exact Hs|reflexivity].
Qed.

Lemma keeps_sat {A} (m : M A) (w : World) :
  keeps P m -> disk_sat P w -> disk_sat P (snd (m w)).
Proof.
  intros Hm Hw s Hs. destruct (Hm w) as [Hd|(s' & Hs' & Hd)].
  - apply Hw. by rewrite <- Hd.
  - rewrite Hd in Hs. by injection Hs as <-.
Qed.

End Keeps.

Section Unique.
Context `{PyBuiltins}.

Lemma group_ids_set_performance (perf : option Performance) (p : Person) :
  group_ids (set_performance perf p) = group_ids p.
Proof. reflexivity. Qed.

Lemma migrate_from_v1_unique (d : Payload) (w : World) :
  keys_unique (fst (_migrate_from_v1 d w))
  /\ memberships_unique (fst (_migrate_from_v1 d w)).
Proof.
  assert (Hempty : forall s, people s = [] -> keys_unique s /\ memberships_unique s).
  { intros s Hs. unfold keys_unique, memberships_unique. rewrite Hs.
    split; constructor. }
  unfold _migrate_from_v1. rewrite bind_run.
  set (s0 := fst (_create_empty_org_store w)).
  set (w0 := snd (_create_empty_org_store w)).
  destruct (Hempty s0 eq_refl) as [Hk0 Hm0].
  destruct d as [s|[|t ts]|[|m ms]| |]; try (split; assumption).
  - destruct (ot_members t); [|split; assumption].
    destruct (migrate_teams_spec (t :: ts) s0 w0) as (_ & Hk & Hm & _).
    split; auto.
  - destruct (om_profile m); [|split; assumption].
    rewrite !bind_run.
    match goal with
    | |- context [foldM ?f ?l ?s1 ?w1] =>
      destruct (migrate_members_spec "default_group" l s1 w1) as (_ & Hk & Hm & _)
    end.
    cbn zeta in *. split; [apply Hk|apply Hm]; apply Hempty; reflexivity.
Qed.

Lemma migrate_v2_to_v3_unique (s : Store) (w : World) :
  (keys_unique s -> keys_unique (fst (_migrate_v2_to_v3 s w)))
  /\ (memberships_unique s -> memberships_unique (fst (_migrate_v2_to_v3 s w))).
Proof.
  destruct (migrate_v2_to_v3_spec s w) as (_ & Hk & Hm & _).
  cbn zeta in *. split.
  - unfold keys_unique. by rewrite Hk.
  - unfold memberships_unique. intros Hu.
    apply (Forall_fmap group_ids (fun l => NoDup l)). rewrite Hm.
    by apply Forall_fmap.
Qed.

(** What [load_org_store] returns satisfies both uniqueness invariants
    whenever the document on file does; a version 1 payload needs no
    assumption, the migration establishes them. *)
Lemma stored_unique (w : World) :
  (disk_sat keys_unique w -> keys_unique (stored w))
  /\ (disk_sat memberships_unique w -> memberships_unique (stored w)).
Proof.
  assert (Hv1 : forall d,
            let r := (migrated ← _migrate_from_v1 d;
                      migrated ← _migrate_v2_to_v3 migrated;
                      _ ← save_org_store migrated; mret migrated) w in
            keys_unique (fst r) /\ memberships_unique (fst r)).
  { intros d. cbn zeta. rewrite !bind_run, ret_run. cbn [fst].
    destruct (migrate_from_v1_unique d w) as [Hk Hm].
    match goal with
    | |- context [_migrate_v2_to_v3 ?s1 ?w1] =>
      destruct (migrate_v2_to_v3_unique s1 w1) as [Hk' Hm']
    end. split; auto. }
  assert (Hempty : forall w0, keys_unique (fst (_create_empty_org_store w0))
                              /\ memberships_unique (fst (_create_empty_org_store w0))).
  { intros w0. split; constructor. }
  unfold stored, load_org_store, disk_sat.
  destruct (disk w) as [[s| | | |]|] eqn:Hd;
    try (destruct (Hv1 (PTeams teams)) as [? ?]; by split);
    try (destruct (Hv1 (PMembers members)) as [? ?]; by split);
    try (destruct (Hv1 POther) as [? ?]; by split);
    try (destruct (Hempty w) as [? ?]; by split).
  case_bool_decide; [split; intros Hs; by apply Hs|].
  case_bool_decide; [|destruct (Hv1 (PDoc s)) as [? ?]; by split].
  rewrite !bind_run, ret_run. cbn [fst].
  destruct (migrate_v2_to_v3_unique s w) as [Hk Hm].
  split; intros Hs; [apply Hk|apply Hm]; by apply Hs.
Qed.

Lemma load_sat (P : Store -> Prop) (w : World) :
  (disk_sat P w -> P (stored w)) -> disk_sat P w ->
  disk_sat P (snd (load_org_store w)).
Proof.
  intros HP Hw s Hs.
  destruct (load_effect w) as [_ [Hd|[Hd _]]].
  - apply Hw. by rewrite <- Hd.
  - rewrite Hd in Hs. injection Hs as <-. by apply HP.
Qed.

(** An operation that loads the store and then runs [rest] on it. *)
Lemma op_sat (P : Store -> Prop) {A} (rest : Store -> M A) (w : World) :
  (disk_sat P w -> P (stored w)) -> disk_sat P w ->
  (P (stored w) -> keeps P (rest (stored w))) ->
  disk_sat P (snd ((store ← load_org_store; rest store) w)).
Proof.
  intros HP Hw Hrest. rewrite bind_run. fold (stored w).
  apply keeps_sat; [by apply Hrest, HP|by apply load_sat].
Qed.

End Unique.

(** Runs a quiet prefix of clock readings, then continues. *)
Ltac keeps_quiet_prefix :=
  repeat (apply keeps_bind; [solve [apply keeps_quiet; quiet_tac]|intros ?]).

Section Uniqueness.
Context `{PyBuiltins}.



Lemma list_find_lookup {A} (P : A -> Prop) `{!forall x, Decision (P x)}
    (l : list A) (i : nat) (x : A) :
  list_find P l = Some (i, x) -> l !! i = Some x /\ P x.
Proof. intros Hf. apply list_find_Some in Hf. tauto. Qed.

(** Refreshing a membership in place keeps the group ids. *)
Lemma group_ids_refreshed (ms : list Membership) (j : nat) (m m' : Membership) :
  ms !! j = Some m -> ms_group_id m' = ms_group_id m ->
  ms_group_id <$> <[j := m']> ms = ms_group_id <$> ms.
Proof. apply fmap_insert_same. Qed.



Lemma quiet_update_membership_loop (pid g : string) (f : gmap string value)
    (ps : list Person) : quiet (update_membership_loop pid g f ps).
Proof.
  induction ps as [|p ps IH]; simpl; [apply quiet_ret|].
  destruct (if decide (has_id pid p) then _ else None) as [[j ms]|].
  - quiet_tac.
  - apply quiet_bind; [exact IH|]. intros. apply quiet_ret.
Qed.


Lemma quiet_update_event_loop (pid eid : string) (patch : EventPatch)
    (ps : list Person) : quiet (update_event_loop pid eid patch ps).
Proof.
  induction ps as [|p ps IH]; simpl; [apply quiet_ret|].
  destruct (decide (has_id pid p)).
  - apply quiet_bind; [apply quiet_ensured_performance|]. intros perf.
    destruct (list_find _ _) as [[j e]|]; [quiet_tac|].
    apply quiet_bind; [exact IH|]. intros. apply quiet_ret.
  - apply quiet_bind; [exact IH|]. intros. apply quiet_ret.
Qed.


Lemma quiet_delete_event_loop (pid eid : string) (ps : list Person) :
  quiet (delete_event_loop pid eid ps).
Proof.
  induction ps as [|p ps IH]; simpl; [apply quiet_ret|].
  destruct (decide (has_id pid p)).
  - apply quiet_bind; [apply quiet_ensured_performance|]. intros perf.
    destruct (_ <? _)%nat; [quiet_tac|].
    apply quiet_bind; [exact IH|]. intros. apply quiet_ret.
  - apply quiet_bind; [exact IH|]. intros. apply quiet_ret.
Qed.




End Uniqueness.

Section MembershipUniqueness.
Context `{PyBuiltins}.

Lemma list_find_replaced {A} (P : A -> Prop) `{!forall x, Decision (P x)}
    (l : list A) (i : nat) (x y : A) :
  list_find P l = Some (i, x) -> P y -> list_find P (<[i := y]> l) = Some (i, y).
Proof.
  intros Hf Hy. apply list_find_Some in Hf as (Hi & _ & Hb).
  apply list_find_Some. split; [|split; [exact Hy|]].
  - apply list_lookup_insert_eq. by eapply lookup_lt_Some.
  - intros j z Hj Hlt. rewrite list_lookup_insert_ne in Hj by lia. by eapply Hb.
Qed.

Lemma list_find_appended {A} (P : A -> Prop) `{!forall x, Decision (P x)}
    (l : list A) (y : A) :
  list_find P l = None -> P y -> list_find P (l ++ [y]) = Some (length l, y).
Proof.
  intros Hf Hy. apply list_find_None in Hf.
  apply list_find_Some. split; [|split; [exact Hy|]].
  - by rewrite lookup_app_r, Nat.sub_diag.
  - intros j z Hj Hlt. rewrite lookup_app_l in Hj by exact Hlt.
    rewrite Forall_forall in Hf. apply Hf. by eapply list_elem_of_lookup_2.
Qed.

(** [add_person_to_group] for a person the store holds. *)
Lemma add_person_to_group_spec (pid g : string) (f : option (gmap string value))
    (w : World) (i : nat) (person : Person) :
  list_find (has_id pid) (people (stored w)) = Some (i, person) ->
  exists ms',
    joined g f (p_memberships person) ms'
    /\ fst (add_person_to_group pid g f w) = writable w
    /\ writable (snd (add_person_to_group pid g f w)) = writable w
    /\ (writable w = true ->
        holds (snd (add_person_to_group pid g f w))
              (set_schema_version (Some SCHEMA_VERSION)
                 (set_people (<[i := set_memberships ms' person]> (people (stored w)))
                             (stored w)))).
Proof.
  intros Hfp. unfold add_person_to_group, joined, stored in *.
  rewrite bind_run, Hfp.
  pose proof (load_writable w) as Hlw.
  destruct (list_find (in_group g) (p_memberships person)) as [[j m]|].
  - rewrite bind_run. eexists. split; [eauto|].
    rewrite save_result, save_writable. simpl.
    split; [exact Hlw|]. split; [exact Hlw|]. intros Hw. apply save_holds. simpl.
    congruence.
  - rewrite !bind_run. eexists. split; [eauto|].
    rewrite save_result, save_writable. simpl.
    split; [exact Hlw|]. split; [exact Hlw|]. intros Hw. apply save_holds. simpl.
    congruence.
Qed.




End MembershipUniqueness.


(** * Further properties of the store *)

(** ** At most one person per dedup key *)

Section KeysUnique.
Context `{PyBuiltins}.

Lemma fmap_map_same {A B} (f : A -> B) (g : A -> A) (l : list A) :
  (forall x, f (g x) = f x) -> f <$> map g l = f <$> l.
Proof.
  intros Hfg. induction l as [|x l IH]; [reflexivity|].
  simpl. rewrite Hfg. by f_equal.
Qed.

Lemma ku_same_people (s : Store) (s' : Store) :
  person_key <$> people s' = person_key <$> people s ->
  keys_unique s -> keys_unique s'.
Proof. unfold keys_unique. by intros ->. Qed.

Lemma ku_replaced (s : Store) (i : nat) (p p' : Person) (v : option Z) :
  keys_unique s -> people s !! i = Some p -> person_key p' = person_key p ->
  keys_unique (set_schema_version v (set_people (<[i := p']> (people s)) s)).
Proof.
  intros Hs Hi Hk. apply (ku_same_people s); [|exact Hs]. simpl.
  by apply (fmap_insert_same person_key _ i p).
Qed.

Lemma update_membership_loop_keys (pid g : string) (f : gmap string value)
    (ps : list Person) :
  forall w ps', fst (update_membership_loop pid g f ps w) = Some ps' ->
                person_key <$> ps' = person_key <$> ps.
Proof.
  induction ps as [|p ps IH]; intros w ps'; simpl; [discriminate|].
  destruct (if decide (has_id pid p) then _ else None) as [[j ms]|].
  - rewrite bind_run, ret_run. simpl. by intros [= <-].
  - rewrite bind_run, ret_run. simpl.
    destruct (fst (update_membership_loop pid g f ps w)) as [r|] eqn:Hr; [|discriminate].
    simpl. intros [= <-]. rewrite !fmap_cons. f_equal. by eapply IH.
Qed.

Lemma update_event_loop_keys (pid eid : string) (patch : EventPatch) (ps : list Person) :
  forall w ps', fst (update_event_loop pid eid patch ps w) = Some ps' ->
                person_key <$> ps' = person_key <$> ps.
Proof.
  induction ps as [|p ps IH]; intros w ps'; simpl; [discriminate|].
  destruct (decide (has_id pid p)).
  - rewrite bind_run. destruct (list_find _ _) as [[j e]|].
    + rewrite bind_run, ret_run. simpl. by intros [= <-].
    + rewrite bind_run, ret_run. simpl.
      match goal with
      | |- context [update_event_loop pid eid patch ps ?w1] =>
        destruct (fst (update_event_loop pid eid patch ps w1)) as [r|] eqn:Hr;
          [|discriminate]
      end.
      simpl. intros [= <-]. rewrite !fmap_cons. f_equal. by eapply IH.
  - rewrite bind_run, ret_run. simpl.
    destruct (fst (update_event_loop pid eid patch ps w)) as [r|] eqn:Hr; [|discriminate].
    simpl. intros [= <-]. rewrite !fmap_cons. f_equal. by eapply IH.
Qed.

Lemma delete_event_loop_keys (pid eid : string) (ps : list Person) :
  forall w ps', fst (delete_event_loop pid eid ps w) = Some ps' ->
                person_key <$> ps' = person_key <$> ps.
Proof.
  induction ps as [|p ps IH]; intros w ps'; simpl; [discriminate|].
  destruct (decide (has_id pid p)).
  - rewrite bind_run. destruct (_ <? _)%nat.
    + rewrite bind_run, ret_run. simpl. by intros [= <-].
    + rewrite bind_run, ret_run. simpl.
      match goal with
      | |- context [delete_event_loop pid eid ps ?w1] =>
        destruct (fst (delete_event_loop pid eid ps w1)) as [r|] eqn:Hr;
          [|discriminate]
      end.
      simpl. intros [= <-]. rewrite !fmap_cons. f_equal. by eapply IH.
  - rewrite bind_run, ret_run. simpl.
    destruct (fst (delete_event_loop pid eid ps w)) as [r|] eqn:Hr; [|discriminate].
    simpl. intros [= <-]. rewrite !fmap_cons. f_equal. by eapply IH.
Qed.

Lemma keys_unique_filtered (s : Store) (Q : Person -> Prop)
    `{!forall p, Decision (Q p)} (v : option Z) :
  keys_unique s ->
  keys_unique (set_schema_version v (set_people (filter Q (people s)) s)).
Proof.
  unfold keys_unique. simpl. rewrite !filter_fmap_comm. intros Hnd.
  rewrite list_filter_filter.
  rewrite (list_filter_iff _ (fun p => Q p /\ person_key p <> "")) by tauto.
  rewrite <- list_filter_filter. by apply NoDup_fmap_filter.
Qed.

Lemma exec_keys_unique (o : Op) (w : World) :
  disk_sat keys_unique w -> disk_sat keys_unique (exec o w).
Proof.
  intros Hw. pose proof (proj1 (stored_unique w)) as Hst.
  destruct o; simpl.
  - by apply load_sat.
  - unfold create_group. apply op_sat; [exact Hst|exact Hw|]. intros Hs.
    keeps_quiet_prefix.
    apply keeps_bind; [by apply keeps_save|]. intros. apply keeps_ret.
  - unfold rename_group. apply op_sat; [exact Hst|exact Hw|]. intros Hs.
    destruct (list_find _ _) as [[i grp]|]; [|apply keeps_ret].
    keeps_quiet_prefix. by apply keeps_save.
  - unfold delete_group. apply op_sat; [exact Hst|exact Hw|]. intros Hs.
    apply keeps_save. apply (ku_same_people (stored w)); [|exact Hs]. simpl.
    by apply fmap_map_same.
  - unfold update_organization. apply op_sat; [exact Hst|exact Hw|]. intros Hs.
    keeps_quiet_prefix. by apply keeps_save.
  - unfold save_teams. apply op_sat; [exact Hst|exact Hw|]. intros Hs.
    by apply keeps_save.
  - intros s Hd.
    destruct (find_by_key (key (profile_dedup profile_data)) (people (stored w)))
      as [[i ep]|] eqn:Hfind.
    + destruct (upsert_matched profile_data source group_id membership_fields w i ep Hfind)
        as (t & ti & ms' & _ & _ & Hh & Hnw & _).
      destruct (writable w) eqn:Hwr.
      * destruct (Hh eq_refl) as [Hd' _]. rewrite Hd' in Hd. injection Hd as <-.
        apply find_by_key_Some in Hfind as (_ & Hi & _).
        eapply ku_replaced; [by apply Hst|exact Hi|reflexivity].
      * rewrite (Hnw eq_refl) in Hd. by apply (load_sat keys_unique w Hst Hw).
    + destruct (upsert_created profile_data source group_id membership_fields w Hfind)
        as (np & _ & Hdd & _ & _ & _ & _ & Hh & Hnw & _).
      destruct (writable w) eqn:Hwr.
      * destruct (Hh eq_refl) as [Hd' _]. rewrite Hd' in Hd. injection Hd as <-.
        apply (ku_same_people (set_people (people (stored w) ++ [np]) (stored w)));
          [reflexivity|].
        apply keys_unique_appended; [rewrite set_people_same; by apply Hst|].
        intros Hne. unfold person_key in *. rewrite Hdd in *.
        by apply find_by_key_None in Hfind.
      * rewrite (Hnw eq_refl) in Hd. by apply (load_sat keys_unique w Hst Hw).
  - unfold delete_person. apply op_sat; [exact Hst|exact Hw|]. intros Hs.
    apply keeps_save. by apply keys_unique_filtered.
  - unfold add_person_to_group. apply op_sat; [exact Hst|exact Hw|]. intros Hs.
    destruct (list_find (has_id person_id) _) as [[i person]|] eqn:Hfp;
      [|apply keeps_ret].
    apply list_find_lookup in Hfp as [Hi _].
    destruct (list_find (in_group group_id) _) as [[j ms]|];
      keeps_quiet_prefix; apply keeps_save; by eapply ku_replaced.
  - unfold remove_person_from_group. apply op_sat; [exact Hst|exact Hw|]. intros Hs.
    destruct (list_find (has_id person_id) _) as [[i person]|] eqn:Hfp;
      [|apply keeps_ret].
    apply list_find_lookup in Hfp as [Hi _].
    apply keeps_save; by eapply ku_replaced.
  - unfold update_membership_fields. apply op_sat; [exact Hst|exact Hw|]. intros Hs.
    apply (keeps_bind_post keys_unique
             (fun r => forall ps', r = Some ps' ->
                                   person_key <$> ps' = person_key <$> people (stored w))).
    + apply quiet_update_membership_loop.
    + intros w0 ps'. apply update_membership_loop_keys.
    + intros [ps'|] Hr; [|apply keeps_ret]. apply keeps_save.
      apply (ku_same_people (stored w)); [by apply Hr|exact Hs].
  - unfold set_person_base_score. apply op_sat; [exact Hst|exact Hw|]. intros Hs.
    destruct (list_find (has_id person_id) _) as [[i person]|] eqn:Hfp;
      [|apply keeps_ret].
    apply list_find_lookup in Hfp as [Hi _].
    apply keeps_bind; [apply keeps_quiet, quiet_ensured_performance|]. intros perf.
    keeps_quiet_prefix. apply keeps_save. by eapply ku_replaced.
  - unfold add_performance_event. apply op_sat; [exact Hst|exact Hw|]. intros Hs.
    destruct (list_find (has_id person_id) _) as [[i person]|] eqn:Hfp;
      [|apply keeps_ret].
    apply list_find_lookup in Hfp as [Hi _].
    apply keeps_bind; [apply keeps_quiet, quiet_ensured_performance|]. intros perf.
    keeps_quiet_prefix. apply keeps_save. by eapply ku_replaced.
  - unfold update_performance_event. apply op_sat; [exact Hst|exact Hw|]. intros Hs.
    apply (keeps_bind_post keys_unique
             (fun r => forall ps', r = Some ps' ->
                                   person_key <$> ps' = person_key <$> people (stored w))).
    + apply quiet_update_event_loop.
    + intros w0 ps'. apply update_event_loop_keys.
    + intros [ps'|] Hr; [|apply keeps_ret]. apply keeps_save.
      apply (ku_same_people (stored w)); [by apply Hr|exact Hs].
  - unfold delete_performance_event. apply op_sat; [exact Hst|exact Hw|]. intros Hs.
    apply (keeps_bind_post keys_unique
             (fun r => forall ps', r = Some ps' ->
                                   person_key <$> ps' = person_key <$> people (stored w))).
    + apply quiet_delete_event_loop.
    + intros w0 ps'. apply delete_event_loop_keys.
    + intros [ps'|] Hr; [|apply keeps_ret]. apply keeps_save.
      apply (ku_same_people (stored w)); [by apply Hr|exact Hs].
Qed.

(** X1. At most one person per non-empty dedup key: from a file whose
    document, if any, has that property, every sequence of store commands
    leaves a store that has it. A missing file and a version 1 payload need
    no assumption. *)
Theorem dedup_keys_stay_unique (w : World) (ops : list Op) :
  disk_sat keys_unique w -> keys_unique (stored (exec_all ops w)).
Proof.
  intros Hw. apply stored_unique. revert w Hw.
  induction ops as [|o ops IH]; intros w Hw; [exact Hw|].
  simpl. apply IH. by apply exec_keys_unique.
Qed.

End KeysUnique.

Lemma dedup_keys_stay_unique_witness :
  keys_unique (stored (exec_all example_session fresh_world))
  /\ person_key <$> people (stored (exec_all example_session fresh_world))
     = ["phone:13812345678"].
Proof.
  split; [|vm_compute; reflexivity].
  apply (dedup_keys_stay_unique fresh_world example_session).
  intros s Hs. discriminate.
Defined.

(** ** Records without contact information *)

Section NoContact.
Context `{PyBuiltins}.

Lemma find_by_key_empty (ps : list Person) : find_by_key "" ps = None.
Proof. reflexivity. Qed.

(** X2. A profile with an empty dedup key is never deduplicated: every
    upsert of it, the write succeeding, appends a new person with an empty
    key and that profile and returns [isNew = true], whatever the store
    holds. A payload that is not a mapping always has an empty key. *)
Theorem upsert_without_contact_creates (pd : value) (src : string) (g : option string)
    (mf : option (gmap string value)) (w : World) :
  key (profile_dedup pd) = "" ->
  writable w = true ->
  (exists np s',
      fst (upsert_person pd src g mf w) = (Some (p_id np), true)
      /\ holds (snd (upsert_person pd src g mf w)) s'
      /\ people s' = people (stored w) ++ [np]
      /\ groups s' = groups (stored w)
      /\ person_key np = "" /\ p_profile np = pd)
  /\ (forall v, is_dict v = false -> key (profile_dedup v) = "").
Proof.
  intros Hk Hw. split.
  - assert (Hfind : find_by_key (key (profile_dedup pd)) (people (stored w)) = None)
      by (rewrite Hk; apply find_by_key_empty).
    destruct (upsert_created pd src g mf w Hfind)
      as (np & Hr & Hd & Hp & _ & _ & _ & Hh & _).
    exists np. eexists. split; [exact Hr|]. split; [exact (Hh Hw)|].
    simpl. split; [reflexivity|]. split; [reflexivity|].
    split; [|exact Hp]. unfold person_key. by rewrite Hd.
  - intros v Hv. destruct v; try discriminate; reflexivity.
Qed.

End NoContact.

Lemma upsert_without_contact_creates_witness :
  fst (upsert_person (VStr "简历全文") "text_analysis" None None world_with_member)
  = (Some "2f0e1d2c", true).
Proof.
  destruct (upsert_without_contact_creates (VStr "简历全文") "text_analysis" None None
              world_with_member eq_refl eq_refl) as ((np & s' & Hr & _) & _).
  rewrite Hr. f_equal. f_equal.
  assert (Hc : fst (upsert_person (VStr "简历全文") "text_analysis" None None
                      world_with_member) = (Some "2f0e1d2c", true))
    by (vm_compute; reflexivity).
  rewrite Hr in Hc. by injection Hc.
Defined.

(** ** Loading and migrating *)

Section Loading.
Context `{PyBuiltins}.

Lemma migrate_then_save (m : M Store) (w : World) :
  quiet m ->
  (forall w0, schema_version (fst (m w0)) = Some SCHEMA_VERSION) ->
  let r := (migrated ← m; _ ← save_org_store migrated; mret migrated) w in
  fst r = fst (m w)
  /\ (writable w = true -> holds (snd r) (fst r))
  /\ (writable w = false -> disk (snd r) = disk w).
Proof.
  intros Hq Hv. cbn zeta. rewrite bind_run, bind_run, ret_run. simpl.
  destruct (Hq w) as [Hd Hw]. split; [reflexivity|]. rewrite save_run, Hw. split.
  - intros ->. simpl. split; [|apply Hv]. by rewrite set_schema_version_id by apply Hv.
  - intros ->. exact Hd.
Qed.

Lemma migrate_v1_then_save (d : Payload) (w : World) :
  let r := (migrated ← _migrate_from_v1 d;
            migrated ← _migrate_v2_to_v3 migrated;
            _ ← save_org_store migrated; mret migrated) w in
  fst r = fst (_migrate_v2_to_v3 (fst (_migrate_from_v1 d w)) (snd (_migrate_from_v1 d w)))
  /\ (writable w = true -> holds (snd r) (fst r))
  /\ (writable w = false -> disk (snd r) = disk w).
Proof.
  pose proof (migrate_then_save
                (migrated ← _migrate_from_v1 d; _migrate_v2_to_v3 migrated) w) as Hm.
  cbn zeta in *. rewrite !bind_run in *. apply Hm.
  - apply quiet_bind; [apply quiet_migrate_from_v1|]. intros. apply quiet_migrate_v2_to_v3.
  - intros w0. rewrite bind_run. apply migrate_v2_to_v3_version.
Qed.

(** X3. Loading a file that parses leaves, when the file can be written, a
    current-version document equal to the store returned, so a second load
    returns the same store and changes nothing: a migration is persisted
    at once and happens once. A document already at the current version is
    returned as it is, the world untouched. *)
Theorem load_persists_migration (w : World) (d : Payload) :
  disk w = Some d -> d <> PCorrupt -> writable w = true ->
  holds (snd (load_org_store w)) (fst (load_org_store w))
  /\ load_org_store (snd (load_org_store w))
     = (fst (load_org_store w), snd (load_org_store w))
  /\ (forall s, d = PDoc s -> schema_version s = Some SCHEMA_VERSION ->
        load_org_store w = (s, w)).
Proof.
  intros Hd Hc Hw.
  assert (Hh : holds (snd (load_org_store w)) (fst (load_org_store w))).
  { unfold load_org_store. rewrite Hd.
    destruct d as [s|ts|ms| |]; [|by apply migrate_v1_then_save..|done].
    case_bool_decide as Hv3; [by split|].
    case_bool_decide as Hv2; [|by apply migrate_v1_then_save].
    apply migrate_then_save; [apply quiet_migrate_v2_to_v3| |exact Hw].
    intros. apply migrate_v2_to_v3_version. }
  split; [exact Hh|]. split; [by apply load_holds|].
  intros s -> Hv. apply load_holds. by split.
Qed.

(** X4. A missing file and a file that does not parse give an empty store
    (no group, no person) and loading never creates or rewrites the file
    in either case. *)
Theorem load_missing_or_corrupt (w : World) :
  disk w = None \/ disk w = Some PCorrupt ->
  groups (stored w) = [] /\ people (stored w) = []
  /\ schema_version (stored w) = Some SCHEMA_VERSION
  /\ disk (snd (load_org_store w)) = disk w.
Proof.
  intros Hd. unfold stored, load_org_store.
  destruct Hd as [E|E]; rewrite E; (repeat split; try reflexivity); simpl; exact E.
Qed.

Lemma migrate_from_v1_unrecognised (d : Payload) (w : World) :
  unrecognised d ->
  groups (fst (_migrate_from_v1 d w)) = [] /\ people (fst (_migrate_from_v1 d w)) = [].
Proof.
  intros Hu. unfold _migrate_from_v1. rewrite bind_run.
  destruct d as [s|[|t ts]|[|m ms]| |]; simpl in Hu; try done.
  - by rewrite Hu.
  - by rewrite Hu.
Qed.

(** X5. A payload that parses but is neither a document of version 3 or 2
    nor a version 1 list with the expected first item (a mapping tagged
    with another version, an empty list, a scalar) is loaded as an empty
    store, and when the file can be written that empty store replaces the
    payload on file. *)
Theorem load_unrecognised_resets (w : World) (d : Payload) :
  disk w = Some d -> unrecognised d ->
  groups (stored w) = [] /\ people (stored w) = []
  /\ (writable w = true -> holds (snd (load_org_store w)) (stored w))
  /\ (writable w = false -> disk (snd (load_org_store w)) = Some d).
Proof.
  intros Hd Hu.
  assert (Hload : load_org_store w
                  = (migrated ← _migrate_from_v1 d;
                     migrated ← _migrate_v2_to_v3 migrated;
                     _ ← save_org_store migrated; mret migrated) w).
  { unfold load_org_store. rewrite Hd.
    destruct d as [s| | | |]; try reflexivity; [|done].
    destruct Hu as [H3 H2]. by rewrite !bool_decide_eq_false_2. }
  unfold stored. rewrite Hload.
  destruct (migrate_v1_then_save d w) as (Hr & Hwt & Hwf). cbn zeta in *.
  destruct (migrate_from_v1_unrecognised d w Hu) as [Hg Hp].
  destruct (migrate_v2_to_v3_spec (fst (_migrate_from_v1 d w)) (snd (_migrate_from_v1 d w)))
    as (Hg3 & Hk3 & _).
  cbn zeta in *. rewrite Hr.
  split; [by rewrite Hg3|]. split.
  - rewrite Hp in Hk3. by apply fmap_nil_inv in Hk3.
  - rewrite <- Hr. split; [exact Hwt|]. intros Hw. rewrite Hwf by exact Hw. exact Hd.
Qed.

(** X6. [ensure_performance] changes nothing but the ledger: a missing
    ledger becomes the empty one (base 0, no events), an existing ledger
    keeps its base score and its events and only gets a missing
    [updated_at] filled in. A second call changes nothing and does not
    read the clock. *)
Theorem ensure_performance_backfills (p : Person) (w : World) :
  let p' := fst (ensure_performance p w) in
  let w' := snd (ensure_performance p w) in
  (exists perf',
      p' = set_performance (Some perf') p
      /\ is_Some (perf_updated_at perf')
      /\ (forall perf, p_performance p = Some perf ->
            base_score perf' = base_score perf /\ events perf' = events perf
            /\ (is_Some (perf_updated_at perf) -> perf' = perf /\ w' = w))
      /\ (p_performance p = None -> base_score perf' = 0%float /\ events perf' = []))
  /\ ensure_performance p' w' = (p', w').
Proof.
  cbn zeta. unfold ensure_performance. rewrite bind_run, ret_run. simpl.
  unfold ensured_performance.
  destruct (p_performance p) as [perf|] eqn:Hp.
  - destruct (perf_updated_at perf) as [t|] eqn:Ht.
    + split.
      * exists perf. split; [reflexivity|]. split; [by rewrite Ht|].
        split; [|discriminate]. intros perf0 [= <-]. by repeat split.
      * simpl. rewrite bind_run. simpl. rewrite Ht. reflexivity.
    + split.
      * eexists. split; [reflexivity|]. simpl. split; [by eexists|].
        split; [|discriminate]. intros perf0 [= <-]. simpl.
        split; [reflexivity|]. split; [reflexivity|]. rewrite Ht. by intros [? ?].
      * reflexivity.
  - split.
    + eexists. split; [reflexivity|]. simpl. split; [by eexists|].
      split; [discriminate|]. by intros _.
    + reflexivity.
Qed.

End Loading.

Lemma load_persists_migration_witness :
  length (people (fst (load_org_store legacy_world))) = 1
  /\ load_org_store (snd (load_org_store legacy_world))
     = (fst (load_org_store legacy_world), snd (load_org_store legacy_world)).
Proof.
  destruct (load_persists_migration legacy_world (PTeams [legacy_team_a; legacy_team_b])
              eq_refl) as (_ & Hagain & _); [discriminate|reflexivity|].
  split; [vm_compute; reflexivity|exact Hagain].
Defined.

Lemma load_missing_or_corrupt_witness :
  people (stored fresh_world) = [] /\ disk (snd (load_org_store fresh_world)) = None.
Proof.
  destruct (load_missing_or_corrupt fresh_world (or_introl eq_refl))
    as (_ & Hp & _ & Hd).
  split; [exact Hp|exact Hd].
Defined.

Lemma load_unrecognised_resets_witness :
  people (stored world_version_1) = []
  /\ holds (snd (load_org_store world_version_1)) (stored world_version_1).
Proof.
  destruct (load_unrecognised_resets world_version_1 (PDoc store_version_1) eq_refl)
    as (_ & Hp & Hh & _).
  - split; discriminate.
  - split; [exact Hp|by apply Hh].
Defined.

(** ** Deleting a person, leaving a group *)

Section Removal.
Context `{PyBuiltins}.

Lemma load_save_holds (s : Store) (w : World) :
  writable w = true ->
  holds (snd (save_org_store s (snd (load_org_store w))))
        (set_schema_version (Some SCHEMA_VERSION) s).
Proof.
  intros Hw. apply save_holds. pose proof (load_writable w) as Hlw. congruence.
Qed.

Lemma load_save_result (s : Store) (w : World) :
  fst (save_org_store s (snd (load_org_store w))) = writable w.
Proof. rewrite save_result. exact (load_writable w). Qed.

Lemma get_person_by_id_holds (pid : string) (w : World) (s : Store) :
  holds w s ->
  fst (get_person_by_id pid w) = snd <$> list_find (has_id pid) (people s).
Proof.
  intros Hh. unfold get_person_by_id. rewrite bind_run, ret_run.
  by rewrite (load_holds w s Hh).
Qed.

Lemma get_person_by_id_stored (pid : string) (w : World) :
  fst (get_person_by_id pid w) = snd <$> list_find (has_id pid) (people (stored w)).
Proof. unfold get_person_by_id. by rewrite bind_run, ret_run. Qed.

Lemma list_find_filter_implied {A} (P Q : A -> Prop)
    `{!forall x, Decision (P x)} `{!forall x, Decision (Q x)} (l : list A) :
  (forall x, P x -> Q x) ->
  snd <$> list_find P (filter Q l) = snd <$> list_find P l.
Proof.
  intros HPQ. induction l as [|x l IH]; [reflexivity|].
  rewrite filter_cons. destruct (decide (Q x)) as [HQ|HQ].
  - simpl. destruct (decide (P x)); [reflexivity|].
    destruct (list_find P (filter Q l)) as [[? ?]|], (list_find P l) as [[? ?]|];
      simpl in *; congruence.
  - simpl. destruct (decide (P x)) as [HP|HP]; [by destruct HQ; apply HPQ|].
    rewrite IH. by destruct (list_find P l) as [[? ?]|].
Qed.

(** X7. [delete_person], the write succeeding, returns [True] and leaves
    exactly the people whose id differs, in their order, and the groups as
    they were: the id can no longer be looked up, every other id gives what
    it gave before, and when nobody had the id the people are unchanged. *)
Theorem delete_person_removes (pid : string) (w : World) :
  writable w = true ->
  let w' := snd (delete_person pid w) in
  fst (delete_person pid w) = true
  /\ people (stored w') = filter (fun p => p_id p <> pid) (people (stored w))
  /\ groups (stored w') = groups (stored w)
  /\ fst (get_person_by_id pid w') = None
  /\ (forall q, q <> pid -> fst (get_person_by_id q w') = fst (get_person_by_id q w))
  /\ (fst (get_person_by_id pid w) = None -> people (stored w') = people (stored w)).
Proof.
  intros Hw. cbn zeta. unfold delete_person. rewrite bind_run.
  change (fst (load_org_store w)) with (stored w).
  set (s' := set_people _ (stored w)).
  pose proof (load_save_holds s' w Hw) as Hh.
  rewrite load_save_result. split; [exact Hw|].
  rewrite (stored_holds _ _ Hh), (get_person_by_id_holds pid _ _ Hh). simpl.
  split; [reflexivity|]. split; [reflexivity|]. split; [|split].
  - rewrite (list_find_absent (has_id pid)); [reflexivity|].
    apply Forall_forall. intros p Hp. apply list_elem_of_filter in Hp. tauto.
  - intros q Hq. rewrite (get_person_by_id_holds q _ _ Hh), get_person_by_id_stored.
    simpl. apply list_find_filter_implied. unfold has_id. congruence.
  - rewrite get_person_by_id_stored. intros Hnone.
    apply fmap_None, list_find_None in Hnone.
    apply filter_all. exact Hnone.
Qed.



Lemma drop_group_none (g : string) (ms : list Membership) :
  list_find (in_group g) (drop_group g ms) = None.
Proof.
  apply list_find_None, Forall_forall. intros m Hm.
  apply list_elem_of_filter in Hm. unfold in_group. tauto.
Qed.




End Removal.

Lemma delete_person_removes_witness :
  people (stored (snd (delete_person "1f0e1d2c" world_with_member))) = [].
Proof.
  destruct (delete_person_removes "1f0e1d2c" world_with_member eq_refl)
    as (_ & Hp & _).
  rewrite Hp. vm_compute. reflexivity.
Defined.


(** ** A file that cannot be written *)









Section Unwritable.
Context `{PyBuiltins}.











End Unwritable.


(** ** Dedup keys *)

Section DedupKeys.
Context `{PyBuiltins}.

Lemma eqb_empty (s : string) : String.eqb s "" = true <-> s = "".
Proof. apply String.eqb_eq. Qed.

(** X11. The dedup key is empty exactly when both the normalised phone
    and the normalised email are empty. Two contacts get the same
    non-empty key exactly when their normalised phones are non-empty and
    equal, or both normalised phones are empty and their normalised emails
    are equal: the email is ignored as soon as there is a phone, and a
    phone key never equals an email key. *)
Theorem dedup_key_collision (ph1 em1 ph2 em2 : value) :
  let k1 := key (_compute_dedup_key ph1 em1) in
  let k2 := key (_compute_dedup_key ph2 em2) in
  (k1 = "" <-> _normalize_phone ph1 = "" /\ _normalize_email em1 = "")
  /\ (k1 <> "" /\ k1 = k2 <->
      (_normalize_phone ph1 <> "" /\ _normalize_phone ph1 = _normalize_phone ph2)
      \/ (_normalize_phone ph1 = "" /\ _normalize_phone ph2 = ""
          /\ _normalize_email em1 <> ""
          /\ _normalize_email em1 = _normalize_email em2)).
Proof.
  cbn zeta. unfold _compute_dedup_key.
  destruct (String.eqb (_normalize_phone ph1) "") eqn:P1;
    destruct (String.eqb (_normalize_email em1) "") eqn:E1;
    destruct (String.eqb (_normalize_phone ph2) "") eqn:P2;
    destruct (String.eqb (_normalize_email em2) "") eqn:E2;
    simpl;
    repeat match goal with
           | E : String.eqb _ "" = true |- _ => apply String.eqb_eq in E
           | E : String.eqb _ "" = false |- _ => apply String.eqb_neq in E
           end;
    (split; [split; [try discriminate; try tauto|intros [? ?]; try tauto]|]);
    (split;
     [ intros [Hne Heq]; try (by destruct Hne); try discriminate Heq;
       try (injection Heq as Heq); try (left; by split); try (right; by repeat split);
       try congruence
     | intros [[Ha Hb]|(Ha & Hb & Hc & Hd)]; try tauto; try congruence;
       try (split; [discriminate|by rewrite ?Hb, ?Hd]) ]).
Qed.

End DedupKeys.

(** ** Merging profiles *)

(** X12. Merging a payload into a stored profile never removes a key and
    never stores an empty or sentinel value over it: each key of the result
    holds the former value or a provided incoming one. Merging the same
    payload a second time changes nothing, and a payload with no provided
    value leaves the profile as it was. *)
Theorem merge_profile_enriches (incoming old : gmap string value) :
  (forall k, is_Some (old !! k) -> is_Some (merge_profile incoming old !! k))
  /\ (forall k v, merge_profile incoming old !! k = Some v ->
        old !! k = Some v \/ (incoming !! k = Some v /\ provided v = true))
  /\ merge_profile incoming (merge_profile incoming old) = merge_profile incoming old
  /\ ((forall k v, incoming !! k = Some v -> provided v = false) ->
      merge_profile incoming old = old).
Proof.
  split; [|split; [|split]].
  - intros k Hk. rewrite merge_profile_lookup.
    destruct (incoming !! k) as [v|]; [|exact Hk].
    destruct (provided v); [by eexists|exact Hk].
  - intros k v. rewrite merge_profile_lookup.
    destruct (incoming !! k) as [v'|] eqn:Hi; [|by left].
    destruct (provided v') eqn:Hp; [|by left].
    intros [= <-]. by right.
  - apply map_eq. intros k. rewrite !merge_profile_lookup.
    destruct (incoming !! k) as [v|]; [|reflexivity].
    by destruct (provided v).
  - intros Hnone. apply map_eq. intros k. rewrite merge_profile_lookup.
    destruct (incoming !! k) as [v|] eqn:Hi; [|reflexivity].
    by rewrite (Hnone k v Hi).
Qed.

(** ** Looking up what was upserted *)

Section Lookup.
Context `{PyBuiltins}.

Lemma find_person_by_dedup_key_holds (k : string) (w : World) (s : Store) :
  holds w s ->
  fst (find_person_by_dedup_key k w) = snd <$> find_by_key k (people s).
Proof.
  intros Hh. unfold find_person_by_dedup_key, find_by_key.
  destruct (String.eqb k ""); [reflexivity|].
  rewrite bind_run, ret_run. by rewrite (load_holds w s Hh).
Qed.

(** X13. After an upsert of a profile with a non-empty dedup key, the
    write succeeding, [find_person_by_dedup_key] with that key returns a
    person whose id is the one the upsert returned and whose key is that
    key; when the upsert created the person, the profile found is the
    payload. *)
Theorem upsert_then_find (pd : value) (src : string) (g : option string)
    (mf : option (gmap string value)) (w : World) :
  writable w = true ->
  key (profile_dedup pd) <> "" ->
  let r := upsert_person pd src g mf w in
  exists p,
    fst (find_person_by_dedup_key (key (profile_dedup pd)) (snd r)) = Some p
    /\ fst (fst r) = Some (p_id p)
    /\ key (p_dedup p) = key (profile_dedup pd)
    /\ (snd (fst r) = true -> p_profile p = pd).
Proof.
  intros Hw Hk. cbn zeta.
  destruct (find_by_key (key (profile_dedup pd)) (people (stored w)))
    as [[i ep]|] eqn:Hf.
  - destruct (upsert_matched pd src g mf w i ep Hf)
      as (t & ti & ms' & Hr & _ & Hh & _).
    cbn zeta in Hh. specialize (Hh Hw).
    destruct (find_by_key_Some _ _ _ _ Hf) as (_ & _ & Hkey & _).
    eexists. rewrite (find_person_by_dedup_key_holds _ _ _ Hh). simpl.
    erewrite find_by_key_replaced; [|exact Hf|exact Hkey]. simpl.
    split; [reflexivity|]. rewrite Hr. simpl.
    split; [reflexivity|]. split; [exact Hkey|discriminate].
  - destruct (upsert_created pd src g mf w Hf)
      as (np & Hr & Hd & Hp & _ & _ & _ & Hh & _).
    cbn zeta in Hh. specialize (Hh Hw).
    exists np. rewrite (find_person_by_dedup_key_holds _ _ _ Hh). simpl.
    rewrite (find_by_key_appended _ _ np Hk); [| |by rewrite Hd].
    + simpl. rewrite Hr. simpl. by rewrite Hd.
    + by apply find_by_key_None.
Qed.

End Lookup.

Lemma upsert_then_find_witness :
  exists p,
    fst (find_person_by_dedup_key "phone:13812345678"
           (snd (upsert_person profile_zhang "text_analysis" None None fresh_world)))
    = Some p
    /\ p_profile p = profile_zhang.
Proof.
  assert (Hk : key (profile_dedup profile_zhang) = "phone:13812345678")
    by (vm_compute; reflexivity).
  assert (Hne : key (profile_dedup profile_zhang) <> "")
    by (rewrite Hk; discriminate).
  destruct (upsert_then_find profile_zhang "text_analysis" None None fresh_world
              eq_refl Hne) as (p & Hfind & _ & _ & Hnew).
  exists p. rewrite <- Hk. split; [exact Hfind|].
  apply Hnew. vm_compute. reflexivity.
Defined.

(** ** The ledger of a stored person *)

Lemma ensured_performance_spec (p : Person) (w : World) :
  events (fst (ensured_performance p w)) = ledger_events p
  /\ base_score (fst (ensured_performance p w)) = ledger_base p.
Proof.
  unfold ensured_performance, ledger_events, ledger_base.
  destruct (p_performance p) as [perf|]; [|by split].
  destruct (perf_updated_at perf); by split.
Qed.

Section Ledger.
Context `{PyBuiltins}.

(** X14. [add_performance_event] on a person found by id, the write
    succeeding, returns [True] and appends the event to that person's
    ledger: the base score and the earlier events stay as they were (an
    absent ledger counting as base 0 with no events), groups and the other
    people are untouched, and [get_person_performance] then returns that
    ledger. *)
Theorem add_performance_event_appends (pid : string) (e : Event) (w : World)
    (i : nat) (person : Person) :
  writable w = true ->
  list_find (has_id pid) (people (stored w)) = Some (i, person) ->
  let w' := snd (add_performance_event pid e w) in
  fst (add_performance_event pid e w) = true
  /\ groups (stored w') = groups (stored w)
  /\ exists perf',
      people (stored w') = <[i := set_performance (Some perf') person]> (people (stored w))
      /\ events perf' = ledger_events person ++ [e]
      /\ base_score perf' = ledger_base person
      /\ fst (get_person_performance pid w') = perf'.
Proof.
  intros Hw Hf. cbn zeta. unfold add_performance_event. rewrite bind_run.
  change (fst (load_org_store w)) with (stored w). rewrite Hf.
  rewrite bind_run, bind_run.
  set (w1 := snd (load_org_store w)).
  set (perf := fst (ensured_performance person w1)).
  set (w2 := snd (ensured_performance person w1)).
  set (t := fst (_now w2)). set (w3 := snd (_now w2)).
  assert (Hw3 : writable w3 = true).
  { unfold w3. destruct (quiet_now w2) as [_ ->].
    unfold w2. destruct (quiet_ensured_performance person w1) as [_ ->].
    unfold w1. pose proof (load_writable w). congruence. }
  destruct (ensured_performance_spec person w1) as [Hev Hbase].
  fold perf in Hev, Hbase.
  set (perf' := {| base_score := base_score perf; events := events perf ++ [e];
                   perf_updated_at := Some t |}).
  pose proof (save_holds
                (set_people (<[i := set_performance (Some perf') person]>
                               (people (stored w))) (stored w)) w3 Hw3) as Hh.
  rewrite save_result. split; [exact Hw3|].
  rewrite (stored_holds _ _ Hh). simpl. split; [reflexivity|].
  exists perf'. split; [reflexivity|]. simpl.
  split; [by rewrite Hev|]. split; [exact Hbase|].
  unfold get_person_performance. rewrite bind_run.
  rewrite (get_person_by_id_holds pid _ _ Hh). simpl.
  erewrite list_find_replaced; [|exact Hf|].
  - by simpl.
  - destruct (list_find_lookup _ _ _ _ Hf) as [_ Hid].
    unfold has_id in *. by destruct person.
Qed.

Lemma filter_shorter {A} (P : A -> Prop) `{!forall x, Decision (P x)} (l : list A) :
  (length (filter P l) <? length l)%nat = true <-> Exists (fun x => ~ P x) l.
Proof.
  rewrite Nat.ltb_lt. split.
  - intros Hlt. destruct (decide (Forall P l)) as [Hall|Hnot].
    + rewrite (filter_all P l Hall) in Hlt. lia.
    + apply not_Forall_Exists in Hnot; [exact Hnot|]. intros x. apply _.
  - intros Hex. apply Exists_exists in Hex as (x & Hx & HP).
    by eapply length_filter_lt.
Qed.

Lemma delete_event_loop_result (pid eid : string) (ps : list Person) (w : World) :
  is_Some (fst (delete_event_loop pid eid ps w)) <-> Exists (holds_event pid eid) ps.
Proof.
  revert w. induction ps as [|p ps IH]; intros w; simpl.
  - split; [by intros [? ?]|by inversion 1].
  - destruct (decide (has_id pid p)) as [Hid|Hid].
    + rewrite bind_run.
      destruct (ensured_performance_spec p w) as [Hev _].
      set (perf := fst (ensured_performance p w)) in *.
      set (w1 := snd (ensured_performance p w)).
      destruct (length (filter (fun e => ev_id e <> eid) (events perf))
                <? length (events perf))%nat eqn:Hlt.
      * rewrite bind_run, ret_run. simpl. split; [intros _|by eexists].
        apply Exists_cons_hd. split; [exact Hid|].
        apply filter_shorter in Hlt. rewrite Hev in Hlt.
        eapply Exists_impl; [exact Hlt|]. simpl. intros e He.
        by destruct (decide (ev_id e = eid)).
      * rewrite bind_run, ret_run. simpl. rewrite fmap_is_Some, IH.
        split; [by apply Exists_cons_tl|].
        intros Hex. apply Exists_cons in Hex as [[_ Hhere]|Hex]; [|exact Hex].
        assert (Hlt' : (length (filter (fun e => ev_id e <> eid) (events perf))
                        <? length (events perf))%nat = true).
        { apply filter_shorter. rewrite Hev.
          eapply Exists_impl; [exact Hhere|]. simpl. intros e He Hne. by apply Hne. }
        congruence.
    + rewrite bind_run, ret_run. simpl. rewrite fmap_is_Some, IH.
      split; [by apply Exists_cons_tl|].
      intros Hex. apply Exists_cons in Hex as [[Hhere _]|Hex]; [|exact Hex].
      by destruct Hid.
Qed.

(** X15. [delete_performance_event] returns [True] exactly when the file
    can be written and some person of the store has the person id and
    holds, in their ledger, an event with the event id; a person with the
    id who does not hold the event is passed over. When it returns
    [False] the file is as loading left it. *)
Theorem delete_performance_event_result (pid eid : string) (w : World) :
  (fst (delete_performance_event pid eid w) = true
   <-> writable w = true /\ Exists (holds_event pid eid) (people (stored w)))
  /\ (fst (delete_performance_event pid eid w) = false ->
      disk (snd (delete_performance_event pid eid w)) = disk (snd (load_org_store w))).
Proof.
  unfold delete_performance_event. rewrite bind_run, bind_run.
  change (fst (load_org_store w)) with (stored w).
  set (w1 := snd (load_org_store w)).
  pose proof (delete_event_loop_result pid eid (people (stored w)) w1) as Hres.
  destruct (quiet_delete_event_loop pid eid (people (stored w)) w1) as [Hd Hwr].
  assert (Hw1 : writable w1 = writable w) by apply load_writable.
  destruct (fst (delete_event_loop pid eid (people (stored w)) w1)) as [ps'|].
  - rewrite save_result, Hwr, Hw1. split.
    + split; [intros Hw; split; [exact Hw|]; apply Hres; by eexists|tauto].
    + intros Hw. rewrite save_run, Hwr, Hw1, Hw. exact Hd.
  - rewrite ret_run. simpl. split; [|by intros _].
    split; [discriminate|]. intros [_ Hex]. apply Hres in Hex. by destruct Hex.
Qed.

End Ledger.

Lemma add_performance_event_appends_witness :
  fst (add_performance_event "1f0e1d2c" (event_with_delta 5) world_with_member) = true.
Proof.
  assert (Hf : list_find (has_id "1f0e1d2c") (people (stored world_with_member))
               = Some (0, member_zhang)) by (vm_compute; reflexivity).
  destruct (add_performance_event_appends "1f0e1d2c" (event_with_delta 5)
              world_with_member 0 member_zhang eq_refl Hf) as (Hr & _).
  exact Hr.
Defined.

(** ** A flat list of legacy members *)

Section FlatMembers.
Context `{PyBuiltins}.

Lemma migrate_from_v1_members (first_item : OldMember) (others : list OldMember)
    (pr : value) (w : World) :
  om_profile first_item = Some pr ->
  exists (grp : Group) (w1 : World),
    g_id grp = "default_group" /\ g_name grp = "默认小组"
    /\ g_description grp = "从旧数据迁移"
    /\ _migrate_from_v1 (PMembers (first_item :: others)) w
       = foldM (fun s m => _migrate_member_to_store s m "default_group")
           (first_item :: others)
           (set_groups [grp] (fst (_create_empty_org_store w))) w1.
Proof.
  intros Hpr. unfold _migrate_from_v1. rewrite !bind_run, Hpr, !bind_run.
  eexists _, _. split; [|split; [|split]]; [| | |reflexivity]; reflexivity.
Qed.

(** X16. A version 1 payload that is a flat list of members (the first
    carrying a profile) is migrated into a store with the single group
    [default_group]: nobody belongs to another group or twice to that one,
    no two people share a non-empty key, and the members with a given
    non-empty recomputed key are exactly one person, who has one
    membership of the default group. *)
Theorem flat_members_migration (w : World) (first_item : OldMember)
    (others : list OldMember) :
  disk w = Some (PMembers (first_item :: others)) ->
  is_Some (om_profile first_item) ->
  let s := stored w in
  (exists g, groups s = [g] /\ g_id g = "default_group" /\ g_name g = "默认小组"
             /\ g_description g = "从旧数据迁移")
  /\ keys_unique s
  /\ memberships_unique s
  /\ (forall p g, p ∈ people s -> g ∈ group_ids p -> g = "default_group")
  /\ (forall m, m ∈ first_item :: others -> member_key m <> "" ->
        exists p, filter (has_key (member_key m)) (people s) = [p]
                  /\ length (filter (in_group "default_group") (p_memberships p)) = 1).
Proof.
  intros Hd [pr Hpr]. cbn zeta.
  unfold stored, load_org_store. rewrite Hd.
  rewrite !bind_run, ret_run. cbn [fst].
  destruct (migrate_from_v1_members first_item others pr w Hpr)
    as (grp & w1 & Hgid & Hgname & Hgdesc & ->).
  set (s0 := fst (_create_empty_org_store w)).
  destruct (migrate_members_spec "default_group" (first_item :: others)
              (set_groups [grp] s0) w1) as (Hg1 & Hk & Hm & _ & Hcov & Hids).
  cbn zeta in *.
  set (s1 := fst (foldM _ (first_item :: others) (set_groups [grp] s0) w1)) in *.
  set (w2 := snd (foldM _ (first_item :: others) (set_groups [grp] s0) w1)) in *.
  destruct (migrate_v2_to_v3_spec s1 w2) as (Hg3 & Hk3 & Hm3 & _ & Hc3).
  cbn zeta in *.
  set (s2 := fst (_migrate_v2_to_v3 s1 w2)) in *.
  assert (Hku : keys_unique s2).
  { unfold keys_unique. rewrite Hk3. apply Hk. unfold keys_unique. simpl. constructor. }
  assert (Hmu : memberships_unique s2).
  { unfold memberships_unique.
    apply (Forall_fmap group_ids (fun l => NoDup l)). rewrite Hm3.
    apply Forall_fmap. apply Hm. constructor. }
  split; [|split; [exact Hku|split; [exact Hmu|split]]].
  - rewrite Hg3, Hg1. simpl. exists grp. by repeat split.
  - intros p g Hp Hg.
    assert (Hin : group_ids p ∈ group_ids <$> people s1).
    { rewrite <- Hm3. by apply list_elem_of_fmap_2. }
    apply list_elem_of_fmap in Hin as (p1 & Heq & Hp1).
    rewrite Heq in Hg.
    destruct (Hids p1 Hp1 g Hg) as [Hdef|(p0 & Hp0 & _)]; [exact Hdef|].
    simpl in Hp0. by apply elem_of_nil in Hp0.
  - intros m Hin Hne.
    destruct (Hc3 _ _ (Hcov m Hin Hne)) as (p & Hp & Hpk & Hpg).
    exists p. split.
    + rewrite <- Hpk. apply keys_unique_one; [exact Hku|exact Hp|by rewrite Hpk].
    + unfold memberships_unique in Hmu. rewrite Forall_forall in Hmu.
      apply membership_one; auto.
Qed.

End FlatMembers.

Lemma flat_members_migration_witness :
  (forall p g, p ∈ people (stored flat_world) -> g ∈ group_ids p -> g = "default_group")
  /\ length (people (stored flat_world)) = 1.
Proof.
  destruct (flat_members_migration flat_world legacy_member_a [legacy_member_b]
              eq_refl) as (_ & _ & _ & Hg & _).
  - vm_compute. by eexists.
  - split; [exact Hg|vm_compute; reflexivity].
Defined.

(** ** Groups *)

Section Groups.
Context `{PyBuiltins}.

Lemma get_group_by_id_holds (gid : string) (w : World) (s : Store) :
  holds w s ->
  get_group_by_id gid w = (snd <$> list_find (group_has_id gid) (groups s), w).
Proof.
  intros Hh. unfold get_group_by_id. rewrite bind_run, ret_run.
  by rewrite (load_holds w s Hh).
Qed.

Lemma get_group_by_id_stored (gid : string) (w : World) :
  fst (get_group_by_id gid w) = snd <$> list_find (group_has_id gid) (groups (stored w)).
Proof. unfold get_group_by_id. by rewrite bind_run, ret_run. Qed.

Lemma get_people_in_group_stored (gid : string) (w : World) :
  fst (get_people_in_group gid w)
  = omap (fun person =>
            match list_find (in_group gid) (p_memberships person) with
            | Some (_, ms) => Some (person, ms)
            | None => None
            end) (people (stored w)).
Proof. unfold get_people_in_group. by rewrite bind_run, ret_run. Qed.

(** X17. After [delete_group G], the write succeeding, the group can no
    longer be looked up and [get_people_in_group G] is empty, while every
    other group id gives the group it gave before and lists the same
    people, by id and in order. *)
Theorem delete_group_then_queries (G : string) (w : World) :
  writable w = true ->
  let w' := snd (delete_group G w) in
  fst (get_group_by_id G w') = None
  /\ fst (get_people_in_group G w') = []
  /\ (forall G', G' <> G ->
        fst (get_group_by_id G' w') = fst (get_group_by_id G' w)
        /\ (fun r => p_id (fst r)) <$> fst (get_people_in_group G' w')
           = (fun r => p_id (fst r)) <$> fst (get_people_in_group G' w)).
Proof.
  intros Hw. cbn zeta. unfold delete_group. rewrite bind_run.
  change (fst (load_org_store w)) with (stored w).
  set (s2 := set_people _ _).
  pose proof (load_save_holds s2 w Hw) as Hh.
  pose proof (stored_holds _ _ Hh) as Hs.
  rewrite !get_group_by_id_stored, !get_people_in_group_stored, Hs. simpl.
  split; [|split].
  - rewrite (list_find_absent (group_has_id G)); [reflexivity|].
    apply Forall_forall. intros g Hg. apply list_elem_of_filter in Hg.
    unfold group_has_id. tauto.
  - induction (people (stored w)) as [|p ps IH]; [reflexivity|]. simpl.
    assert (Hnone : list_find (in_group G) (drop_group G (p_memberships p)) = None)
      by apply drop_group_none.
    replace (p_memberships (set_memberships (drop_group G (p_memberships p)) p))
      with (drop_group G (p_memberships p)) by (by destruct p).
    by rewrite Hnone.
  - intros G' HG'. rewrite !get_group_by_id_stored, !get_people_in_group_stored, Hs.
    simpl. split.
    + assert (Himp : forall g, group_has_id G' g -> g_id g <> G)
        by (unfold group_has_id; congruence).
      exact (list_find_filter_implied (group_has_id G') (fun g => g_id g <> G)
               (groups (stored w)) Himp).
    + induction (people (stored w)) as [|p ps IH]; [reflexivity|]. simpl.
      replace (p_memberships (set_memberships (drop_group G (p_memberships p)) p))
        with (drop_group G (p_memberships p)) by (by destruct p).
      pose proof (list_find_filter_implied (in_group G')
                    (fun m => ms_group_id m <> G) (p_memberships p)) as Hfind.
      fold (drop_group G (p_memberships p)) in Hfind.
      assert (Himp : forall m, in_group G' m -> ms_group_id m <> G)
        by (unfold in_group; congruence).
      specialize (Hfind Himp).
      destruct (list_find (in_group G') (drop_group G (p_memberships p))) as [[j m]|],
               (list_find (in_group G') (p_memberships p)) as [[j' m']|];
        simpl in Hfind; try discriminate; simpl; rewrite ?IH; try reflexivity.
      all: try (f_equal; by destruct p).
      all: try exact IH.
Qed.

(** X18. [rename_group] on an id the store holds, the write succeeding,
    returns [True]; looking the id up then gives a group with the new name
    and the former id, description, tags and creation time, in the former
    position among the groups; the people are untouched. Only the first
    group with the id is renamed. *)
Theorem rename_group_then_get (gid new_name : string) (w : World)
    (i : nat) (grp : Group) :
  writable w = true ->
  list_find (group_has_id gid) (groups (stored w)) = Some (i, grp) ->
  let w' := snd (rename_group gid new_name w) in
  fst (rename_group gid new_name w) = true
  /\ people (stored w') = people (stored w)
  /\ exists g',
      fst (get_group_by_id gid w') = Some g'
      /\ groups (stored w') = <[i := g']> (groups (stored w))
      /\ g_name g' = new_name /\ g_id g' = gid
      /\ g_description g' = g_description grp /\ g_tags g' = g_tags grp
      /\ g_created_at g' = g_created_at grp.
Proof.
  intros Hw Hf. cbn zeta. unfold rename_group. rewrite bind_run.
  change (fst (load_org_store w)) with (stored w). rewrite Hf, bind_run.
  set (w1 := snd (load_org_store w)).
  set (t := fst (_get_timestamp w1)). set (w2 := snd (_get_timestamp w1)).
  assert (Hw2 : writable w2 = true).
  { unfold w2. destruct (quiet_timestamp w1) as [_ ->].
    unfold w1. pose proof (load_writable w). congruence. }
  set (g' := {| g_id := g_id grp; g_name := new_name;
                g_description := g_description grp; g_tags := g_tags grp;
                g_created_at := g_created_at grp; g_updated_at := t |}).
  pose proof (save_holds (set_groups (<[i := g']> (groups (stored w))) (stored w))
                w2 Hw2) as Hh.
  rewrite save_result. split; [exact Hw2|].
  rewrite (stored_holds _ _ Hh), (get_group_by_id_holds gid _ _ Hh). simpl.
  split; [reflexivity|]. exists g'.
  destruct (list_find_lookup _ _ _ _ Hf) as [_ Hid].
  split.
  - erewrite list_find_replaced; [reflexivity|exact Hf|exact Hid].
  - by repeat split.
Qed.

Lemma create_group_spec (n d : string) (t : option (list value)) :
  forall w0, writable w0 = true ->
            writable (snd (create_group n d t w0)) = true
            /\ people (stored (snd (create_group n d t w0))) = people (stored w0)
            /\ exists g,
                groups (stored (snd (create_group n d t w0))) = groups (stored w0) ++ [g]
                /\ g_id g = fst (create_group n d t w0) /\ g_name g = n
                /\ g_description g = d /\ g_tags g = default [] t
                /\ (fst (get_group_by_id (fst (create_group n d t w0)) w0) = None ->
                    fst (get_group_by_id (fst (create_group n d t w0))
                           (snd (create_group n d t w0))) = Some g).
Proof.
  intros w0 Hw0. unfold create_group. rewrite !bind_run, ret_run.
  change (fst (load_org_store w0)) with (stored w0).
  set (w1 := snd (load_org_store w0)).
  set (u := fst (uuid4 w1)). set (w2 := snd (uuid4 w1)).
  set (t1 := fst (_get_timestamp w2)). set (w3 := snd (_get_timestamp w2)).
  set (t2 := fst (_get_timestamp w3)). set (w4 := snd (_get_timestamp w3)).
  assert (Hw4 : writable w4 = true).
  { unfold w4. destruct (quiet_timestamp w3) as [_ ->].
    unfold w3. destruct (quiet_timestamp w2) as [_ ->].
    unfold w2. destruct (quiet_uuid4 w1) as [_ ->].
    unfold w1. pose proof (load_writable w0). congruence. }
  set (g := {| g_id := take_chars 8 u; g_name := n; g_description := d;
               g_tags := default [] t; g_created_at := t1; g_updated_at := t2 |}).
  pose proof (save_holds (set_groups (groups (stored w0) ++ [g]) (stored w0))
                w4 Hw4) as Hh.
  cbn [fst snd]. rewrite save_writable. split; [exact Hw4|].
  rewrite (stored_holds _ _ Hh). simpl. split; [reflexivity|].
  exists g. split; [reflexivity|]. repeat (split; [reflexivity|]).
  rewrite get_group_by_id_stored, (get_group_by_id_holds _ _ _ Hh). simpl.
  intros Hnone. apply fmap_None in Hnone.
  by rewrite (list_find_appended (group_has_id (take_chars 8 u)) _ g Hnone eq_refl).
Qed.

(** X19. [create_group], the write succeeding, appends one group with the
    given name, description and tags (none when omitted) and returns its
    id; the people and the former groups are untouched, names are not
    checked (two calls with the same name give two groups), and the
    returned id looks the new group up when no former group had that id. *)
Theorem create_group_appends (n d : string) (t : option (list value)) (w : World) :
  writable w = true ->
  let r := create_group n d t w in
  (exists g,
      groups (stored (snd r)) = groups (stored w) ++ [g]
      /\ g_id g = fst r /\ g_name g = n /\ g_description g = d
      /\ g_tags g = default [] t
      /\ (fst (get_group_by_id (fst r) w) = None ->
          fst (get_group_by_id (fst r) (snd r)) = Some g))
  /\ people (stored (snd r)) = people (stored w)
  /\ length (groups (stored (snd (create_group n d t (snd r)))))
     = S (S (length (groups (stored w)))).
Proof.
  pose proof (create_group_spec n d t) as Hone.
  intros Hw. cbn zeta.
  destruct (Hone w Hw) as (Hw' & Hp & g & Hg & Hrest).
  split; [by exists g|]. split; [exact Hp|].
  destruct (Hone _ Hw') as (_ & _ & g2 & Hg2 & _).
  rewrite Hg2, Hg, !length_app. simpl. lia.
Qed.

End Groups.

Lemma rename_group_then_get_witness :
  exists g', fst (get_group_by_id "0f0e1d2c"
                    (snd (rename_group "0f0e1d2c" "新名" world_with_group))) = Some g'
             /\ g_name g' = "新名".
Proof.
  assert (Hf : exists grp, list_find (group_has_id "0f0e1d2c")
                             (groups (stored world_with_group)) = Some (0, grp))
    by (vm_compute; by eexists).
  destruct Hf as (grp & Hf).
  destruct (rename_group_then_get "0f0e1d2c" "新名" world_with_group 0 grp eq_refl Hf)
    as (_ & _ & g' & Hget & _ & Hname & _).
  exists g'. by split.
Defined.

Lemma delete_group_then_queries_witness :
  fst (get_people_in_group "0f0e1d2c" (snd (delete_group "0f0e1d2c" world_with_member)))
  = [].
Proof.
  destruct (delete_group_then_queries "0f0e1d2c" world_with_member eq_refl)
    as (_ & Hp & _).
  exact Hp.
Defined.

Lemma create_group_appends_witness :
  length (groups (stored (snd (create_group "甲组" "" None fresh_world)))) = 1.
Proof.
  destruct (create_group_appends "甲组" "" None fresh_world eq_refl)
    as ((g & Hg & _) & _).
  rewrite Hg. reflexivity.
Defined.

(** ** The default group of [add_profile_multi] *)

Section DefaultGroup.
Context `{PyBuiltins}.

Lemma load_again (w : World) :
  writable w = true ->
  groups (stored (snd (load_org_store w))) = groups (stored w)
  /\ people (stored (snd (load_org_store w))) = people (stored w).
Proof.
  intros Hw. destruct (disk w) as [d|] eqn:Hd.
  - assert (Hcase : d = PCorrupt \/ holds (snd (load_org_store w)) (stored w)).
    { unfold stored, load_org_store. rewrite Hd.
      destruct d as [s|ts|ms| |]; [|right; by apply migrate_v1_then_save..|by left].
      right. case_bool_decide as Hv3; [by split|].
      case_bool_decide as Hv2; [|by apply migrate_v1_then_save].
      apply migrate_then_save; [apply quiet_migrate_v2_to_v3| |exact Hw].
      intros. apply migrate_v2_to_v3_version. }
    destruct Hcase as [->|Hh].
    + unfold stored, load_org_store. rewrite Hd. simpl. by rewrite Hd.
    + by rewrite (stored_holds _ _ Hh).
  - unfold stored, load_org_store. rewrite Hd. simpl. by rewrite Hd.
Qed.

Lemma attached_in (g : string) (mf : option (gmap string value)) (src : string)
    (ms ms' : list Membership) :
  attached (Some g) mf src ms ms' -> g <> "" -> g ∈ ms_group_id <$> ms'.
Proof.
  unfold attached. intros Ha Hg.
  destruct (String.eqb g "") eqn:E; [by apply String.eqb_eq in E|].
  destruct (list_find (in_group g) ms) as [[j m]|] eqn:Hf.
  - destruct Ha as (t & ->).
    destruct (list_find_lookup _ _ _ _ Hf) as [Hj Hin].
    rewrite (group_ids_refreshed ms j m) by done.
    apply list_elem_of_fmap. exists m. split; [by rewrite Hin|].
    by eapply list_elem_of_lookup_2.
  - destruct Ha as (t1 & t2 & ->). rewrite fmap_app. apply elem_of_app. right.
    simpl. apply list_elem_of_singleton. reflexivity.
Qed.

Lemma upsert_joins (pd : value) (src g : string) (w : World) :
  writable w = true ->
  let w' := snd (upsert_person pd src (Some g) None w) in
  writable w' = true
  /\ groups (stored w') = groups (stored w)
  /\ exists p, p ∈ people (stored w')
               /\ person_key p = key (profile_dedup pd)
               /\ fst (fst (upsert_person pd src (Some g) None w)) = Some (p_id p)
               /\ (g <> "" -> g ∈ group_ids p).
Proof.
  intros Hw. cbn zeta.
  destruct (find_by_key (key (profile_dedup pd)) (people (stored w)))
    as [[i ep]|] eqn:Hf.
  - destruct (upsert_matched pd src (Some g) None w i ep Hf)
      as (t & ti & ms' & Hr & Hatt & Hh & _ & Hw').
    cbn zeta in Hh. specialize (Hh Hw).
    destruct (find_by_key_Some _ _ _ _ Hf) as (_ & Hi & Hkey & _).
    split; [congruence|]. rewrite (stored_holds _ _ Hh). simpl.
    split; [reflexivity|]. eexists. split; [|split; [|split]].
    + apply (list_elem_of_lookup_2 _ i).
      apply list_lookup_insert_eq. by eapply lookup_lt_Some.
    + exact Hkey.
    + by rewrite Hr.
    + intros Hg. unfold group_ids. simpl. by eapply attached_in.
  - destruct (upsert_created pd src (Some g) None w Hf)
      as (np & Hr & Hd & _ & _ & Hatt & _ & Hh & _ & Hw').
    cbn zeta in Hh. specialize (Hh Hw).
    split; [congruence|]. rewrite (stored_holds _ _ Hh). simpl.
    split; [reflexivity|]. exists np. split; [|split; [|split]].
    + apply elem_of_app. right. by apply list_elem_of_singleton.
    + unfold person_key. by rewrite Hd.
    + by rewrite Hr.
    + intros Hg. unfold group_ids. by eapply attached_in.
Qed.

Lemma add_profile_multi_run (pd : value) (src : string)
    (group_id : option string) (w : World) :
  supplied group_id = false ->
  snd (add_profile_multi pd src group_id w)
  = match groups (stored w) with
    | [] =>
      snd (upsert_person pd src
             (Some (fst (create_group "默认小组" "" None (snd (load_org_store w)))))
             None
             (snd (create_group "默认小组" "" None (snd (load_org_store w)))))
    | g0 :: _ =>
      snd (upsert_person pd src (Some (g_id g0)) None (snd (load_org_store w)))
    end.
Proof.
  intros Hsup.
  assert (Hsnd : forall g' w',
            snd (('(person_id, _) ← upsert_person pd src g' None;
                  mret (match person_id with Some _ => true | None => false end)) w')
            = snd (upsert_person pd src g' None w')).
  { intros g' w'. rewrite bind_run.
    by destruct (upsert_person pd src g' None w') as [[? ?] ?]. }
  unfold add_profile_multi. rewrite Hsup, bind_run, Hsnd.
  unfold load_groups. rewrite !bind_run, ret_run. cbn [fst snd].
  change (fst (load_org_store w)) with (stored w).
  destruct (groups (stored w)) as [|g0 gs]; [|reflexivity].
  by rewrite bind_run, ret_run.
Qed.

(** X20. [add_profile_multi] without a group id (omitted or empty), the
    writes succeeding: on a store with no group it creates the group
    "默认小组" and puts the person in it; on a store with groups it
    creates none and puts the person in the first group. The person has
    the dedup key of the payload; the membership is conditional on the
    group id being non-empty. *)
Theorem add_profile_multi_default_group (pd : value) (src : string)
    (group_id : option string) (w : World) :
  writable w = true ->
  supplied group_id = false ->
  let w' := snd (add_profile_multi pd src group_id w) in
  match groups (stored w) with
  | [] =>
    exists g p, groups (stored w') = [g] /\ g_name g = "默认小组"
                /\ p ∈ people (stored w')
                /\ person_key p = key (profile_dedup pd)
                /\ (g_id g <> "" -> g_id g ∈ group_ids p)
  | g0 :: _ =>
    groups (stored w') = groups (stored w)
    /\ exists p, p ∈ people (stored w')
                 /\ person_key p = key (profile_dedup pd)
                 /\ (g_id g0 <> "" -> g_id g0 ∈ group_ids p)
  end.
Proof.
  intros Hw Hsup. cbn zeta. rewrite (add_profile_multi_run pd src group_id w Hsup).
  set (w1 := snd (load_org_store w)).
  assert (Hw1 : writable w1 = true)
    by (unfold w1; pose proof (load_writable w); congruence).
  destruct (load_again w Hw) as [Hg1 Hp1]. fold w1 in Hg1, Hp1.
  destruct (groups (stored w)) as [|g0 gs] eqn:Hgs.
  - destruct (create_group_spec "默认小组" "" None w1 Hw1)
      as (Hw2 & _ & g & Hg & Hid & Hname & _).
    set (w2 := snd (create_group "默认小组" "" None w1)) in *.
    set (gid := fst (create_group "默认小组" "" None w1)) in *.
    destruct (upsert_joins pd src gid w2 Hw2) as (_ & Hgr & p & Hp & Hk & _ & Hin).
    cbn zeta in *.
    exists g, p. rewrite Hgr, Hg, Hg1. simpl.
    split; [reflexivity|]. split; [exact Hname|]. split; [exact Hp|].
    split; [exact Hk|]. by rewrite Hid.
  - destruct (upsert_joins pd src (g_id g0) w1 Hw1) as (_ & Hgr & p & Hp & Hk & _ & Hin).
    cbn zeta in *.
    rewrite Hgr, Hg1. split; [reflexivity|]. by exists p.
Qed.

End DefaultGroup.

Lemma add_profile_multi_default_group_witness :
  exists g p,
    groups (stored (snd (add_profile_multi profile_zhang "text_analysis" None
                           fresh_world))) = [g]
    /\ g_name g = "默认小组"
    /\ p ∈ people (stored (snd (add_profile_multi profile_zhang "text_analysis" None
                                  fresh_world))).
Proof.
  assert (Hnone : groups (stored fresh_world) = []) by (vm_compute; reflexivity).
  pose proof (add_profile_multi_default_group profile_zhang "text_analysis" None
                fresh_world eq_refl eq_refl) as Hx.
  rewrite Hnone in Hx.
  destruct Hx as (g & p & Hg & Hn & Hp & _).
  exists g, p. split; [exact Hg|]. split; [exact Hn|exact Hp].
Defined.

(** ** Memberships of a group the store does not hold *)

Section UnknownGroup.
Context `{PyBuiltins}.

Lemma get_person_by_id_run (pid : string) (w : World) (s : Store) :
  holds w s ->
  get_person_by_id pid w = (snd <$> list_find (has_id pid) (people s), w).
Proof.
  intros Hh. unfold get_person_by_id. rewrite bind_run, ret_run.
  by rewrite (load_holds w s Hh).
Qed.

Lemma lookup_groups_run (w : World) (s : Store) (ms : list Membership) :
  holds w s ->
  forM (fun m => group ← get_group_by_id (ms_group_id m);
                 mret ((fun g => (g, m)) <$> group)) ms w
  = ((fun m => (fun g => (g, m))
               <$> (snd <$> list_find (group_has_id (ms_group_id m)) (groups s)))
       <$> ms, w).
Proof.
  intros Hh.
  assert (Hone : forall m,
            (group ← get_group_by_id (ms_group_id m);
             mret ((fun g => (g, m)) <$> group)) w
            = ((fun g => (g, m))
               <$> (snd <$> list_find (group_has_id (ms_group_id m)) (groups s)), w)).
  { intros m. by rewrite bind_run, (get_group_by_id_holds _ _ _ Hh). }
  induction ms as [|m ms IH]; [reflexivity|].
  cbn [forM]. rewrite bind_run. cbn beta. rewrite Hone. cbn [fst snd].
  rewrite bind_run, IH. reflexivity.
Qed.

Lemma get_person_groups_listed (pid : string) (w : World) (s : Store)
    (g : Group) (m : Membership) :
  holds w s ->
  (g, m) ∈ fst (get_person_groups pid w) ->
  g ∈ groups s /\ g_id g = ms_group_id m
  /\ exists p, p ∈ people s /\ p_id p = pid /\ m ∈ p_memberships p.
Proof.
  intros Hh. unfold get_person_groups.
  rewrite bind_run, (get_person_by_id_run _ _ _ Hh). cbn [fst snd].
  destruct (list_find (has_id pid) (people s)) as [[i p]|] eqn:Hf; simpl.
  - rewrite bind_run, (lookup_groups_run _ _ _ Hh). cbn [fst snd].
    unfold mret, M_ret. cbn [fst]. intros Hin.
    apply list_elem_of_omap in Hin as (r & Hr & Hsome). simpl in Hsome. subst r.
    apply list_elem_of_fmap in Hr as (m' & Heq & Hm').
    destruct (list_find (group_has_id (ms_group_id m')) (groups s))
      as [[j g']|] eqn:Hg; simpl in Heq; [|discriminate].
    injection Heq as <- <-.
    destruct (list_find_lookup _ _ _ _ Hg) as [Hj Hid].
    destruct (list_find_lookup _ _ _ _ Hf) as [Hi Hpid].
    split; [by eapply list_elem_of_lookup_2|]. split; [exact Hid|].
    exists p. split; [by eapply list_elem_of_lookup_2|]. by split.
  - unfold mret, M_ret. simpl. intros Hin. by apply elem_of_nil in Hin.
Qed.

(** X21. [add_person_to_group] does not check that the group exists: for
    a person found by id and a group id that no group of the store has,
    the write succeeding, it returns [True] and stores the membership,
    [get_people_in_group] then lists the person under that id, while
    [get_person_groups] lists no membership of it. Whatever
    [get_person_groups] lists is a group of the store paired with a
    membership of that group. *)
Theorem membership_of_unknown_group (pid G : string) (f : option (gmap string value))
    (w : World) (i : nat) (person : Person) :
  writable w = true ->
  list_find (has_id pid) (people (stored w)) = Some (i, person) ->
  list_find (in_group G) (p_memberships person) = None ->
  fst (get_group_by_id G w) = None ->
  let w' := snd (add_person_to_group pid G f w) in
  fst (add_person_to_group pid G f w) = true
  /\ (exists q m, (q, m) ∈ fst (get_people_in_group G w')
                  /\ p_id q = pid /\ ms_group_id m = G)
  /\ (forall g m, (g, m) ∈ fst (get_person_groups pid w') ->
        ms_group_id m <> G /\ g_id g = ms_group_id m /\ g ∈ groups (stored w)).
Proof.
  intros Hw Hf Hnot Hnog. cbn zeta.
  destruct (list_find_lookup _ _ _ _ Hf) as [Hi Hid].
  destruct (add_person_to_group_spec pid G f w i person Hf)
    as (ms' & Hj & Hr & _ & Hh).
  specialize (Hh Hw). unfold joined in Hj. rewrite Hnot in Hj.
  destruct Hj as (t1 & t2 & ->).
  set (m := {| ms_group_id := G; joined_at := t1; ms_updated_at := t2;
               fields := dict_or f ∅ |}) in *.
  set (w' := snd (add_person_to_group pid G f w)) in *.
  pose proof (stored_holds _ _ Hh) as Hs.
  split; [congruence|]. split.
  - exists (set_memberships (p_memberships person ++ [m]) person), m.
    split; [|split; [by destruct person|reflexivity]].
    rewrite get_people_in_group_stored, Hs. simpl.
    apply list_elem_of_omap.
    exists (set_memberships (p_memberships person ++ [m]) person). split.
    + apply (list_elem_of_lookup_2 _ i).
      rewrite list_lookup_insert_eq; [reflexivity|]. by eapply lookup_lt_Some.
    + replace (p_memberships (set_memberships (p_memberships person ++ [m]) person))
        with (p_memberships person ++ [m]) by (by destruct person).
      by rewrite (list_find_appended (in_group G) _ m Hnot eq_refl).
  - intros g m0 Hin.
    destruct (get_person_groups_listed pid w' _ g m0 Hh Hin) as (Hg & Hgid & _).
    simpl in Hg. split; [|split; [exact Hgid|exact Hg]].
    rewrite get_group_by_id_stored in Hnog.
    apply fmap_None, list_find_None in Hnog.
    rewrite Forall_forall in Hnog. specialize (Hnog g Hg).
    unfold group_has_id in Hnog. congruence.
Qed.

End UnknownGroup.

Lemma membership_of_unknown_group_witness :
  fst (add_person_to_group "1f0e1d2c" "9f0e1d2c" None world_with_member) = true
  /\ forall g m,
       (g, m) ∈ fst (get_person_groups "1f0e1d2c"
                       (snd (add_person_to_group "1f0e1d2c" "9f0e1d2c" None
                               world_with_member))) ->
       ms_group_id m <> "9f0e1d2c".
Proof.
  assert (Hf : list_find (has_id "1f0e1d2c") (people (stored world_with_member))
               = Some (0, member_zhang)) by (vm_compute; reflexivity).
  assert (Hn : list_find (in_group "9f0e1d2c") (p_memberships member_zhang) = None)
    by (vm_compute; reflexivity).
  assert (Hg : fst (get_group_by_id "9f0e1d2c" world_with_member) = None)
    by (vm_compute; reflexivity).
  destruct (membership_of_unknown_group "1f0e1d2c" "9f0e1d2c" None world_with_member
              0 member_zhang eq_refl Hf Hn Hg) as (Hr & _ & Hl).
  split; [exact Hr|]. intros g m Hin. exact (proj1 (Hl g m Hin)).
Defined.
